(** * Glass: window layout, visibility, focus, crash recovery and content-fit

    A shallow embedding of the windowing core of the Glass overlay
    (src/window/windowLayoutManager.js, src/window/windowManager.js,
    src/core/crashRecoveryManager.js and, of src/ui/ask/AskView.js, the
    resize helpers, the response history and two text helpers), followed by
    the properties established about it.

    Conventions of the embedding:
    - an Electron [Rectangle] has integer fields, as [getBounds] returns them;
      the halving and centring of the layout code are exact in JavaScript's
      doubles and are carried out over the rationals [Q], with [Math.round]
      mapping back to [Z]; where the code divides by a work-area size the
      arithmetic is that of IEEE 754 binary64, as [SpecFloat] defines it;
    - a JavaScript exception is the [Throw] case of [result];
    - the window pool ([Map] from names to windows) is a [gmap string _];
      two windows are the same object iff they are stored under the same name. *)

From Stdlib Require Import ZArith QArith Qround Lia SpecFloat.
From stdpp Require Import gmap strings list fin_maps.

Local Open Scope Z_scope.

(** ** JavaScript values and control flow *)

Module JS.

Inductive js_error : Type :=
| TypeError (msg : string).

Inductive result (A : Type) : Type :=
| Ok (a : A)
| Throw (e : js_error).
Arguments Ok {A} a.
Arguments Throw {A} e.

Definition bind {A B : Type} (r : result A) (k : A → result B) : result B :=
  match r with
  | Ok a => k a
  | Throw e => Throw e
  end.

(** Reading a property of [null]. *)
Definition deref {A : Type} (o : option A) : result A :=
  match o with
  | Some a => Ok a
  | None => Throw (TypeError "Cannot read properties of null")
  end.

(** [Math.round]: nearest integer, ties towards +infinity. *)
Definition Math_round (q : Q) : Z := Qfloor (q + (1 # 2)).

(** A JavaScript number that need not be an integer: an IEEE 754 binary64
    value, with the operations of [SpecFloat] at precision 53. *)
Definition float64 : Type := spec_float.

Definition of_Z (n : Z) : float64 := binary_normalize 53 1024 n 0 false.
Definition fadd : float64 → float64 → float64 := SFadd 53 1024.
Definition fsub : float64 → float64 → float64 := SFsub 53 1024.
Definition fmul : float64 → float64 → float64 := SFmul 53 1024.
Definition fdiv : float64 → float64 → float64 := SFdiv 53 1024.

(** [Math.round] of a double. NaN, the infinities, the zeros and the values
    that are integers already are returned as they are; [m * 2^e] with
    [e < 0] goes to [floor (m * 2^e + 1/2)], and a result of zero keeps the
    sign of the argument. *)
Definition Math_round64 (v : float64) : float64 :=
  match v with
  | S754_finite s m e =>
      if 0 <=? e then v
      else
        let n := if s then Z.neg m else Z.pos m in
        let r := Z.shiftr (2 * n + 2 ^ (- e)) (1 - e) in
        if r =? 0 then S754_zero s else of_Z r
  | _ => v
  end.

(** Truthiness of an optional numeric property: [undefined] and [0] are falsy. *)
Definition truthy (o : option Z) : bool :=
  match o with
  | Some v => negb (v =? 0)
  | None => false
  end.

End JS.
Import JS.

Notation "'let*' v ':=' r 'in' k" := (JS.bind r (fun v => k))
  (at level 10, v name, r at level 100, k at level 200).

(** ** The part of the Electron API the code relies on *)

Module Electron.

Record Rectangle : Type := mkRect { x : Z; y : Z; width : Z; height : Z }.

(** A [BrowserWindow], reduced to the attributes the window manager reads
    and writes. *)
Record BrowserWindow : Type := mkWin {
  destroyed : bool;
  bounds : Rectangle;
  visible : bool;
  focused : bool;
  opacity : Q;
  alwaysOnTop : bool;
  ignoreMouseEvents : bool;
  resizable : bool;
  lockedByButton : bool
}.

(** The work area of a display; [display_id] is the display's [id]
    (renamed, [id] being the identity function). *)
Record Display : Type := mkDisplay { display_id : Z; workArea : Rectangle }.

Record Screen : Type := mkScreen {
  getPrimaryDisplay : Display;
  getAllDisplays : list Display;
  getDisplayNearestPoint : Q → Q → Display
}.

Definition isDestroyed (w : BrowserWindow) : bool := destroyed w.

(** Every method but [isDestroyed] throws on a destroyed window. *)
Definition alive {A : Type} (w : BrowserWindow) (a : A) : result A :=
  if destroyed w then Throw (TypeError "Object has been destroyed") else Ok a.

Definition getBounds (w : BrowserWindow) : result Rectangle := alive w (bounds w).
Definition isVisible (w : BrowserWindow) : result bool := alive w (visible w).

Definition set_bounds (b : Rectangle) (w : BrowserWindow) : BrowserWindow :=
  mkWin (destroyed w) b (visible w) (focused w) (opacity w) (alwaysOnTop w)
        (ignoreMouseEvents w) (resizable w) (lockedByButton w).
Definition set_visible (v : bool) (w : BrowserWindow) : BrowserWindow :=
  mkWin (destroyed w) (bounds w) v (focused w) (opacity w) (alwaysOnTop w)
        (ignoreMouseEvents w) (resizable w) (lockedByButton w).
Definition set_focused (f : bool) (w : BrowserWindow) : BrowserWindow :=
  mkWin (destroyed w) (bounds w) (visible w) f (opacity w) (alwaysOnTop w)
        (ignoreMouseEvents w) (resizable w) (lockedByButton w).
Definition set_opacity (o : Q) (w : BrowserWindow) : BrowserWindow :=
  mkWin (destroyed w) (bounds w) (visible w) (focused w) o (alwaysOnTop w)
        (ignoreMouseEvents w) (resizable w) (lockedByButton w).
Definition set_alwaysOnTop (t : bool) (w : BrowserWindow) : BrowserWindow :=
  mkWin (destroyed w) (bounds w) (visible w) (focused w) (opacity w) t
        (ignoreMouseEvents w) (resizable w) (lockedByButton w).
Definition set_ignoreMouseEvents (i : bool) (w : BrowserWindow) : BrowserWindow :=
  mkWin (destroyed w) (bounds w) (visible w) (focused w) (opacity w) (alwaysOnTop w)
        i (resizable w) (lockedByButton w).
Definition set_lockedByButton (l : bool) (w : BrowserWindow) : BrowserWindow :=
  mkWin (destroyed w) (bounds w) (visible w) (focused w) (opacity w) (alwaysOnTop w)
        (ignoreMouseEvents w) (resizable w) l.

(** [win.hide()] and [win.showInactive()]: the window is shown or hidden,
    never activated. *)
Definition hide (w : BrowserWindow) : BrowserWindow := set_visible false w.
Definition showInactive (w : BrowserWindow) : BrowserWindow := set_visible true w.

End Electron.
Import Electron.

(** ** windowLayoutManager.js *)

Module WindowLayoutManager.

(** An entry of [ORIGINAL_WINDOW_DIMENSIONS]; an absent property is [None]. *)
Record Dimensions : Type := mkDim {
  dim_width : option Z;
  dim_minHeight : option Z;
  dim_maxHeight : option Z;
  dim_height : option Z
}.

Definition ORIGINAL_WINDOW_DIMENSIONS (windowName : string) : option Dimensions :=
  if String.eqb windowName "ask" then Some (mkDim (Some 600) (Some 100) None None)
  else if String.eqb windowName "listen" then Some (mkDim (Some 400) (Some 100) None None)
  else if String.eqb windowName "settings" then Some (mkDim (Some 240) None (Some 400) None)
  else if String.eqb windowName "shortcut-settings" then Some (mkDim (Some 353) None None (Some 720))
  else None.

Definition getCurrentDisplay (scr : Screen) (window : option BrowserWindow) : Display :=
  match window with
  | None => getPrimaryDisplay scr
  | Some w =>
      if isDestroyed w then getPrimaryDisplay scr
      else
        let windowBounds := bounds w in
        getDisplayNearestPoint scr
          (inject_Z (x windowBounds) + inject_Z (width windowBounds) / 2)%Q
          (inject_Z (y windowBounds) + inject_Z (height windowBounds) / 2)%Q
  end.

Definition constrainHeight (currentHeight : Z) (originalConstraints : option Dimensions) : Z :=
  match originalConstraints with
  | None => currentHeight
  | Some c =>
      if truthy (dim_minHeight c) && (currentHeight <? default 0 (dim_minHeight c))
      then default 0 (dim_minHeight c)
      else if truthy (dim_maxHeight c) && (default 0 (dim_maxHeight c) <? currentHeight)
      then default 0 (dim_maxHeight c)
      else if truthy (dim_height c) then default 0 (dim_height c)
      else currentHeight
  end.

Section Manager.
Variable scr : Screen.
Variable windowPool : gmap string BrowserWindow.

Definition getWindowDimensions (windowName : string) : option Rectangle :=
  match windowPool !! windowName with
  | None => None
  | Some win =>
      if isDestroyed win then None
      else
        let original := ORIGINAL_WINDOW_DIMENSIONS windowName in
        let current := bounds win in
        let ow := original ≫= dim_width in
        Some (mkRect (x current) (y current)
                     (if truthy ow then default 0 ow else width current)
                     (constrainHeight (height current) original))
  end.

Definition live (name : string) : bool :=
  match windowPool !! name with
  | Some w => negb (isDestroyed w)
  | None => false
  end.

Definition calculateSettingsWindowPosition : result (option Rectangle) :=
  if negb (live "header") || negb (live "settings") then Ok None
  else
    let* header := deref (windowPool !! "header") in
    let* headerBounds := getBounds header in
    let* settingsDimensions := deref (getWindowDimensions "settings") in
    let PAD := 5 in
    let buttonPadding := 170 in
    let x' := x headerBounds + width headerBounds - width settingsDimensions + buttonPadding in
    let y' := y headerBounds + height headerBounds + PAD in
    Ok (Some (mkRect (Math_round (inject_Z x')) (Math_round (inject_Z y'))
                     (width settingsDimensions) (height settingsDimensions))).

Definition calculateHeaderResize (header : option BrowserWindow) (width' height' : Z)
  : result (option Rectangle) :=
  match header with
  | None => Ok None
  | Some h =>
      if isDestroyed h then Ok None
      else
        let* currentBounds := getBounds h in
        let centerX := (inject_Z (x currentBounds) + inject_Z (width currentBounds) / 2)%Q in
        let newX := Math_round (centerX - inject_Z width' / 2)%Q in
        Ok (Some (mkRect newX (y currentBounds) width' height'))
  end.

Inductive Strategy : Type := above | below.

Definition determineLayoutStrategy (headerBounds : Rectangle)
    (screenWidth screenHeight : Z) (relativeX relativeY : Q) (workAreaX workAreaY : Z)
  : Strategy :=
  let spaceAbove := y headerBounds - workAreaY in
  let spaceBelow := screenHeight - (y headerBounds - workAreaY + height headerBounds) in
  if spaceBelow <? spaceAbove then above else below.

Record Visibility : Type := mkVis { vis_ask : bool; vis_listen : bool }.

(** The returned object: a property per laid-out window. *)
Record LayoutResult : Type := mkLayout {
  layout_ask : option Rectangle;
  layout_listen : option Rectangle
}.

Definition empty_layout : LayoutResult := mkLayout None None.

Definition calculateFeatureWindowLayout (visibility : Visibility)
    (headerBoundsOverride : option Rectangle) : result LayoutResult :=
  let header := windowPool !! "header" in
  let* headerBounds :=
    match headerBoundsOverride with
    | Some b => Ok (Some b)
    | None =>
        match header with
        | Some h => let* b := getBounds h in Ok (Some b)
        | None => Ok None
        end
    end in
  match headerBounds with
  | None => Ok empty_layout
  | Some headerBounds =>
      let display :=
        match headerBoundsOverride with
        | Some _ =>
            getDisplayNearestPoint scr
              (inject_Z (x headerBounds) + inject_Z (width headerBounds) / 2)%Q
              (inject_Z (y headerBounds) + inject_Z (height headerBounds) / 2)%Q
        | None => getCurrentDisplay scr header
        end in
      let screenWidth := width (workArea display) in
      let screenHeight := height (workArea display) in
      let workAreaX := x (workArea display) in
      let workAreaY := y (workArea display) in
      let askVis := vis_ask visibility && live "ask" in
      let listenVis := vis_listen visibility && live "listen" in
      if negb askVis && negb listenVis then Ok empty_layout
      else
        let PAD := 8 in
        let headerCenterXRel :=
          (inject_Z (x headerBounds) - inject_Z workAreaX
           + inject_Z (width headerBounds) / 2)%Q in
        let relativeX := (headerCenterXRel / inject_Z screenWidth)%Q in
        let relativeY :=
          ((inject_Z (y headerBounds) - inject_Z workAreaY) / inject_Z screenHeight)%Q in
        let strategy :=
          determineLayoutStrategy headerBounds screenWidth screenHeight
            relativeX relativeY workAreaX workAreaY in
        let askDimensions := if askVis then getWindowDimensions "ask" else None in
        let listenDimensions := if listenVis then getWindowDimensions "listen" else None in
        let place (xRel : Q) (d : Rectangle) : Rectangle :=
          match strategy with
          | above =>
              let windowBottomAbs := y headerBounds - PAD in
              mkRect (Math_round (xRel + inject_Z workAreaX)%Q)
                     (Math_round (inject_Z (windowBottomAbs - height d)))
                     (width d) (height d)
          | below =>
              let yAbs := y headerBounds + height headerBounds + PAD in
              mkRect (Math_round (xRel + inject_Z workAreaX)%Q)
                     (Math_round (inject_Z yAbs))
                     (width d) (height d)
          end in
        if askVis && listenVis then
          let* askD := deref askDimensions in
          let* listenD := deref listenDimensions in
          let askXRel := (headerCenterXRel - inject_Z (width askD) / 2)%Q in
          let listenXRel := (askXRel - inject_Z (width listenD) - inject_Z PAD)%Q in
          Ok (mkLayout (Some (place askXRel askD)) (Some (place listenXRel listenD)))
        else
          let* winDimensions := deref (if askVis then askDimensions else listenDimensions) in
          let xRel := (headerCenterXRel - inject_Z (width winDimensions) / 2)%Q in
          if askVis then Ok (mkLayout (Some (place xRel winDimensions)) None)
          else Ok (mkLayout None (Some (place xRel winDimensions)))
  end.

Definition calculateShortcutSettingsWindowPosition : result (option Rectangle) :=
  match windowPool !! "header", windowPool !! "shortcut-settings" with
  | Some header, Some shortcutSettings =>
      let* headerBounds := getBounds header in
      let* shortcutDimensions := deref (getWindowDimensions "shortcut-settings") in
      let newX :=
        Math_round (inject_Z (x headerBounds) + inject_Z (width headerBounds) / 2
                    - inject_Z (width shortcutDimensions) / 2)%Q in
      let newY := Math_round (inject_Z (y headerBounds)) in
      Ok (Some (mkRect newX newY (width shortcutDimensions) (height shortcutDimensions)))
  | _, _ => Ok None
  end.

(** A position [{x, y}]. *)
Definition Position : Type := (Z * Z)%type.

Definition calculateStepMovePosition (header : option BrowserWindow) (direction : string)
  : result (option Position) :=
  match header with
  | None => Ok None
  | Some h =>
      if isDestroyed h then Ok None
      else
        let* currentBounds := getBounds h in
        let stepSize := 80 in
        let targetX := x currentBounds in
        let targetY := y currentBounds in
        if String.eqb direction "left" then Ok (Some (targetX - stepSize, targetY))
        else if String.eqb direction "right" then Ok (Some (targetX + stepSize, targetY))
        else if String.eqb direction "up" then Ok (Some (targetX, targetY - stepSize))
        else if String.eqb direction "down" then Ok (Some (targetX, targetY + stepSize))
        else Ok (Some (targetX, targetY))
  end.

Definition calculateNewPositionForDisplay (window : option BrowserWindow)
    (targetDisplayId : Z) : result (option (float64 * float64)) :=
  match window with
  | None => Ok None
  | Some w =>
      if isDestroyed w then Ok None
      else
        match List.find (fun d => display_id d =? targetDisplayId) (getAllDisplays scr) with
        | None => Ok None
        | Some targetDisplay =>
            let* currentBounds := getBounds w in
            let currentDisplay := getCurrentDisplay scr window in
            if display_id currentDisplay =? display_id targetDisplay
            then Ok (Some (of_Z (x currentBounds), of_Z (y currentBounds)))
            else
              let cw := workArea currentDisplay in
              let tw := workArea targetDisplay in
              let relativeX :=
                fdiv (fsub (of_Z (x currentBounds)) (of_Z (x cw))) (of_Z (width cw)) in
              let relativeY :=
                fdiv (fsub (of_Z (y currentBounds)) (of_Z (y cw))) (of_Z (height cw)) in
              let targetX := fadd (of_Z (x tw)) (fmul (of_Z (width tw)) relativeX) in
              let targetY := fadd (of_Z (y tw)) (fmul (of_Z (height tw)) relativeY) in
              Ok (Some (Math_round64 targetX, Math_round64 targetY))
        end
  end.

Definition calculateEdgePosition (header : option BrowserWindow) (direction : string)
  : result (option Position) :=
  match header with
  | None => Ok None
  | Some h =>
      if isDestroyed h then Ok None
      else
        let* currentBounds := getBounds h in
        let display := getCurrentDisplay scr header in
        let workAreaX := x (workArea display) in
        let workAreaWidth := width (workArea display) in
        let targetX :=
          if String.eqb direction "left" then workAreaX + 20
          else if String.eqb direction "right"
               then workAreaX + workAreaWidth - width currentBounds - 20
               else x currentBounds in
        Ok (Some (targetX, y currentBounds))
  end.

Definition calculateWindowHeightAdjustment (window : option BrowserWindow)
    (targetHeight : Z) : result (option Rectangle) :=
  match window with
  | None => Ok None
  | Some w =>
      if isDestroyed w then Ok None
      else
        let* currentBounds := getBounds w in
        Ok (Some (mkRect (x currentBounds) (y currentBounds)
                         (width currentBounds) targetHeight))
  end.

End Manager.

End WindowLayoutManager.
Import WindowLayoutManager.

(** ** windowManager.js *)

Module WindowManager.

(** [BrowserWindow.getFocusedWindow()]: no window of the application has
    the focus, a window of the pool has it, or a window of the application
    that is not in the pool has it. *)
Inductive FocusedWindow : Type :=
| NoFocusedWindow
| PoolWindow (name : string)
| OtherWindow.

(** The [setTimeout] callbacks of the focus logic. *)
Inductive Task : Type :=
| BlurCheck          (* 500ms after the header's blur *)
| ResumeCheck        (* 1000ms after powerMonitor's resume *)
| UnlockCheck        (* 500ms after unlock-screen, on Windows *)
| ActivateCheck      (* 100ms after the app's activate *)
| FocusRestore.      (* the 100ms timer of restoreFocusIfNeeded *)

(** Calls made to the movement manager (smoothMovementManager.js), kept in
    the order they are issued; a completion callback is named by what it
    does. *)
Inductive MotionCall : Type :=
| fade (name : string) (to : Q) (hideOnComplete : bool)
| animateLayout (layout : LayoutResult)
| animateWindowPosition (name : string) (x' y' : Z).

(** The module-level variables. *)
Record State : Type := mkState {
  windowPool : gmap string BrowserWindow;
  lastVisibleWindows : list string;
  settingsHideTimer : bool;
  shouldMaintainFocus : bool;
  aggressiveFocusMode : bool;
  focusedWindow : FocusedWindow;
  timers : list Task;
  motion : list MotionCall
}.

Definition initial (pool : gmap string BrowserWindow) : State :=
  mkState pool ["header"] false true true NoFocusedWindow [] [].

Definition with_pool (p : gmap string BrowserWindow) (st : State) : State :=
  mkState p (lastVisibleWindows st) (settingsHideTimer st) (shouldMaintainFocus st)
          (aggressiveFocusMode st) (focusedWindow st) (timers st) (motion st).
Definition with_lastVisibleWindows (l : list string) (st : State) : State :=
  mkState (windowPool st) l (settingsHideTimer st) (shouldMaintainFocus st)
          (aggressiveFocusMode st) (focusedWindow st) (timers st) (motion st).
Definition with_settingsHideTimer (t : bool) (st : State) : State :=
  mkState (windowPool st) (lastVisibleWindows st) t (shouldMaintainFocus st)
          (aggressiveFocusMode st) (focusedWindow st) (timers st) (motion st).
Definition with_focusedWindow (f : FocusedWindow) (st : State) : State :=
  mkState (windowPool st) (lastVisibleWindows st) (settingsHideTimer st)
          (shouldMaintainFocus st) (aggressiveFocusMode st) f (timers st) (motion st).
Definition with_timers (t : list Task) (st : State) : State :=
  mkState (windowPool st) (lastVisibleWindows st) (settingsHideTimer st)
          (shouldMaintainFocus st) (aggressiveFocusMode st) (focusedWindow st) t (motion st).
Definition issue (calls : list MotionCall) (st : State) : State :=
  mkState (windowPool st) (lastVisibleWindows st) (settingsHideTimer st)
          (shouldMaintainFocus st) (aggressiveFocusMode st) (focusedWindow st) (timers st)
          (motion st ++ calls).

Definition applyAggressiveAlwaysOnTop (window : BrowserWindow) : BrowserWindow :=
  if isDestroyed window then window else set_alwaysOnTop true window.

Definition removeAggressiveAlwaysOnTop (window : BrowserWindow) : BrowserWindow :=
  if isDestroyed window then window else set_alwaysOnTop false window.

(** *** changeAllWindowsVisibility *)

(** [const win = windowPool.get(name); if (win && !win.isDestroyed()) f(win)] *)
Definition on_live (f : BrowserWindow → BrowserWindow) (name : string)
    (pool : gmap string BrowserWindow) : gmap string BrowserWindow :=
  alter (fun win => if isDestroyed win then win else f win) name pool.

(** The names the [windowPool.forEach] adds to the cleared set. The [Set]
    keeps them in insertion order and the list below in the order of
    [map_to_list]; each step of the loops over them touches the window of its
    own name only, so the order does not show in the resulting pool. *)
Definition visible_names (pool : gmap string BrowserWindow) : list string :=
  (filter (fun nw => negb (isDestroyed nw.2) && visible nw.2 = true) (map_to_list pool)).*1.

(** [targetVisibility] is [Some b] when it is the boolean [b]. *)
Definition changeAllWindowsVisibility (st : State) (targetVisibility : option bool)
  : result State :=
  match windowPool st !! "header" with
  | None => Ok st
  | Some header =>
      let* headerVisible := isVisible header in
      if match targetVisibility with
         | Some b => Bool.eqb headerVisible b
         | None => false
         end
      then Ok st
      else if headerVisible then
        let recorded := visible_names (windowPool st) in
        let pool1 :=
          foldl (fun pool name =>
                   if String.eqb name "header" then pool else on_live hide name pool)
                (windowPool st) recorded in
        let pool2 := alter hide "header" pool1 in
        Ok (with_pool pool2 (with_lastVisibleWindows recorded st))
      else
        let pool1 :=
          foldl (fun pool name => on_live showInactive name pool)
                (windowPool st) (lastVisibleWindows st) in
        Ok (with_pool pool1 st)
  end.

(** *** handleWindowVisibilityRequest *)

Definition disableClicks (selected : string) (pool : gmap string BrowserWindow)
  : gmap string BrowserWindow :=
  map_imap (fun name win =>
              Some (if negb (String.eqb name selected) && negb (isDestroyed win)
                    then set_ignoreMouseEvents true win else win)) pool.

Definition restoreClicks (pool : gmap string BrowserWindow) : gmap string BrowserWindow :=
  (fun win => if isDestroyed win then win else set_ignoreMouseEvents false win) <$> pool.

Definition ANIM_OFFSET_X : Z := 50.
Definition ANIM_OFFSET_Y : Z := 20.

(** [if (name === 'listen') p.x -= ANIM_OFFSET_X; else if (name === 'ask') p.y -= ANIM_OFFSET_Y] *)
Definition slide (name : string) (p : Rectangle) : Rectangle :=
  if String.eqb name "listen" then mkRect (x p - ANIM_OFFSET_X) (y p) (width p) (height p)
  else if String.eqb name "ask" then mkRect (x p) (y p - ANIM_OFFSET_Y) (width p) (height p)
  else p.

Definition layout_of (name : string) (layout : LayoutResult) : option Rectangle :=
  if String.eqb name "ask" then layout_ask layout
  else if String.eqb name "listen" then layout_listen layout
  else None.

Definition layout_without (name : string) (layout : LayoutResult) : LayoutResult :=
  if String.eqb name "ask" then mkLayout None (layout_listen layout)
  else if String.eqb name "listen" then mkLayout (layout_ask layout) None
  else layout.

(** [finalVisibility[name] = b] *)
Definition set_vis (name : string) (b : bool) (v : Visibility) : Visibility :=
  if String.eqb name "ask" then mkVis b (vis_listen v)
  else if String.eqb name "listen" then mkVis (vis_ask v) b
  else v.

Definition handleWindowVisibilityRequest (scr : Screen) (st : State)
    (name : string) (shouldBeVisible : bool) : result State :=
  let pool := windowPool st in
  match pool !! name with
  | None => Ok st
  | Some win =>
      if isDestroyed win then Ok st
      else
        let* unchanged :=
          if negb (String.eqb name "settings")
          then let* isCurrentlyVisible := isVisible win in
               Ok (Bool.eqb isCurrentlyVisible shouldBeVisible)
          else Ok false in
        if unchanged then Ok st
        else if String.eqb name "settings" then
          if shouldBeVisible then
            let st := with_settingsHideTimer false st in
            let* position := calculateSettingsWindowPosition pool in
            match position with
            | Some position =>
                let win := applyAggressiveAlwaysOnTop
                             (showInactive (set_lockedByButton true (set_bounds position win))) in
                Ok (with_pool (<[name := win]> pool) st)
            | None => Ok st
            end
          else
            Ok (with_pool (<[name := set_lockedByButton false win]> pool)
                  (with_settingsHideTimer true st))
        else if String.eqb name "shortcut-settings" then
          if shouldBeVisible then
            let* newBounds := calculateShortcutSettingsWindowPosition pool in
            let win := match newBounds with
                       | Some b => set_bounds b win
                       | None => win
                       end in
            let pool := <[name := applyAggressiveAlwaysOnTop win]> pool in
            let pool := disableClicks name pool in
            Ok (with_pool (on_live showInactive name pool) st)
          else
            let pool := <[name := removeAggressiveAlwaysOnTop win]> pool in
            let pool := restoreClicks pool in
            Ok (with_pool (on_live hide name pool) st)
        else if String.eqb name "listen" || String.eqb name "ask" then
          let otherName := if String.eqb name "listen" then "ask" else "listen" in
          let isOtherWinVisible :=
            match pool !! otherName with
            | Some otherWin => negb (isDestroyed otherWin) && visible otherWin
            | None => false
            end in
          let finalVisibility :=
            mkVis (String.eqb name "ask" && shouldBeVisible
                   || String.eqb otherName "ask" && isOtherWinVisible)
                  (String.eqb name "listen" && shouldBeVisible
                   || String.eqb otherName "listen" && isOtherWinVisible) in
          let finalVisibility :=
            if negb shouldBeVisible then set_vis name false finalVisibility
            else finalVisibility in
          let* targetLayout := calculateFeatureWindowLayout scr pool finalVisibility None in
          if shouldBeVisible then
            match layout_of name targetLayout with
            | None => Ok st
            | Some targetBounds =>
                let startPos := slide name targetBounds in
                let win := applyAggressiveAlwaysOnTop
                             (showInactive (set_bounds startPos (set_opacity 0 win))) in
                Ok (issue [fade name 1 false; animateLayout targetLayout]
                      (with_pool (<[name := win]> pool) st))
            end
          else
            let* stillVisible := isVisible win in
            if negb stillVisible then Ok st
            else
              let* currentBounds := getBounds win in
              let targetPos := slide name currentBounds in
              Ok (issue [fade name 0 true;
                         animateWindowPosition name (x targetPos) (y targetPos);
                         animateLayout (layout_without name targetLayout)] st)
        else Ok st
  end.

(** *** Focus restoration *)

Definition setAggressiveFocusMode (enabled : bool) (st : State) : State :=
  mkState (windowPool st) (lastVisibleWindows st) (settingsHideTimer st)
          (shouldMaintainFocus st) enabled (focusedWindow st) (timers st) (motion st).

Definition getAggressiveFocusMode (st : State) : bool := aggressiveFocusMode st.

(** [activeWindow && !Array.from(windowPool.values()).includes(activeWindow)] *)
Definition isOtherAppActive (st : State) : bool :=
  match focusedWindow st with
  | OtherWindow => true
  | _ => false
  end.

Definition setTimeout (t : Task) (st : State) : State := with_timers (timers st ++ [t]) st.

Fixpoint clearTimeout (t : Task) (ts : list Task) : list Task :=
  match ts with
  | [] => []
  | t' :: ts' =>
      match t, t' with
      | BlurCheck, BlurCheck | ResumeCheck, ResumeCheck | UnlockCheck, UnlockCheck
      | ActivateCheck, ActivateCheck | FocusRestore, FocusRestore => ts'
      | _, _ => t' :: clearTimeout t ts'
      end
  end.

(** [restoreFocusIfNeeded]: (re)arms its 100ms timer. *)
Definition restoreFocusIfNeeded (st : State) : State :=
  setTimeout FocusRestore (with_timers (clearTimeout FocusRestore (timers st)) st).

(** [header.focus()] *)
Definition focus_header (header : BrowserWindow) (st : State) : State :=
  with_focusedWindow (PoolWindow "header")
    (with_pool (<["header" := set_focused true header]> (windowPool st)) st).

(** The callback of the [focusRestoreTimer]; [header.moveTop()] changes
    nothing the model keeps. *)
Definition focusRestoreTimer_fires (st : State) : State :=
  match windowPool st !! "header" with
  | None => st
  | Some header =>
      if negb (isDestroyed header) && negb (focused header) && visible header
         && shouldMaintainFocus st
      then
        if isOtherAppActive st then st
        else focus_header (applyAggressiveAlwaysOnTop header) st
      else st
  end.

(** The focus handler [setupHeaderWindowEvents] and
    [setupFeatureWindowEvents] install on a recreated window. *)
Definition recreated_window_focus (name : string) (st : State) : State :=
  if aggressiveFocusMode st
  then with_pool (alter applyAggressiveAlwaysOnTop name (windowPool st)) st
  else st.

(** [header.isVisible() && !header.isDestroyed()], for the header the
    handlers were installed on (on a destroyed header the test itself throws
    and the handler stops there: nothing is restored either). *)
Definition header_shown (st : State) : bool :=
  match windowPool st !! "header" with
  | Some header => visible header && negb (isDestroyed header)
  | None => false
  end.

(** The events the focus logic listens to, and the timers it sets. *)
Inductive Event : Type :=
| blur
| resume
| unlock_screen
| activate
| display_metrics_changed
| timeout (t : Task).

Definition on_event (e : Event) (st : State) : State :=
  match e with
  | blur =>
      match windowPool st !! "header" with
      | Some header =>
          if visible header && alwaysOnTop header then setTimeout BlurCheck st else st
      | None => st
      end
  | resume => setTimeout ResumeCheck st
  | unlock_screen => setTimeout UnlockCheck st
  | activate => if header_shown st then setTimeout ActivateCheck st else st
  | display_metrics_changed => if header_shown st then restoreFocusIfNeeded st else st
  | timeout t =>
      let st := with_timers (clearTimeout t (timers st)) st in
      match t with
      | BlurCheck =>
          match focusedWindow st with
          | PoolWindow _ => st
          | _ => restoreFocusIfNeeded st
          end
      | ResumeCheck | UnlockCheck => if header_shown st then restoreFocusIfNeeded st else st
      | ActivateCheck => restoreFocusIfNeeded st
      | FocusRestore => focusRestoreTimer_fires st
      end
  end.

Definition run (es : list Event) (st : State) : State :=
  foldl (fun st e => on_event e st) st es.

End WindowManager.
Import WindowManager.

(** ** crashRecoveryManager.js *)

Module CrashRecoveryManager.

(** A recovery attempt waiting for its timer, and a shown crash dialog:
    both carry the window name and the crash id. *)
Definition Ticket : Type := (string * string)%type.

Record State : Type := mkState {
  isShuttingDown : bool;
  recoveryAttempts : gmap string nat;
  scheduled : list (Ticket * Z);   (* setTimeout(attemptWindowRecovery, delay) *)
  dialogs : list Ticket            (* showCrashDialog calls, oldest first *)
}.

Definition maxRecoveryAttempts : nat := 3.

Definition initial : State := mkState false ∅ [] [].

(** [this.recoveryAttempts.get(windowName) || 0] *)
Definition attempts_of (st : State) (windowName : string) : nat :=
  default 0%nat (recoveryAttempts st !! windowName).

Definition showCrashDialog (windowName crashId : string) (st : State) : State :=
  mkState (isShuttingDown st) (recoveryAttempts st) (scheduled st)
          (dialogs st ++ [(windowName, crashId)]).

Definition schedule (windowName crashId : string) (delay : Z) (st : State) : State :=
  mkState (isShuttingDown st) (recoveryAttempts st)
          (scheduled st ++ [((windowName, crashId), delay)]) (dialogs st).

Definition set_attempts (windowName : string) (n : nat) (st : State) : State :=
  mkState (isShuttingDown st) (<[windowName := n]> (recoveryAttempts st))
          (scheduled st) (dialogs st).

Definition delete_attempts (windowName : string) (st : State) : State :=
  mkState (isShuttingDown st) (delete windowName (recoveryAttempts st))
          (scheduled st) (dialogs st).

(** [handleRendererCrash], after the window name and the crash id have been
    determined; saving the crash report and the emergency state catch
    their own errors and do not touch the counters. *)
Definition handleRendererCrash (windowName crashId : string) (st : State) : State :=
  if isShuttingDown st then st
  else
    let attempts := attempts_of st windowName in
    if (attempts <? maxRecoveryAttempts)%nat then
      schedule windowName crashId (1000 * (Z.of_nat attempts + 1))
        (set_attempts windowName (attempts + 1) st)
    else showCrashDialog windowName crashId st.

(** Removes the first timer set for this ticket: it has fired. *)
Fixpoint fired (t : Ticket) (l : list (Ticket * Z)) : list (Ticket * Z) :=
  match l with
  | [] => []
  | (t', d) :: l' =>
      if String.eqb t.1 t'.1 && String.eqb t.2 t'.2 then l' else (t', d) :: fired t l'
  end.

(** [attemptWindowRecovery], run by its timer; [recreated] tells whether
    recreating the window succeeded or threw. *)
Definition attemptWindowRecovery (windowName crashId : string) (recreated : bool)
    (st : State) : State :=
  let st := mkState (isShuttingDown st) (recoveryAttempts st)
                    (fired (windowName, crashId) (scheduled st)) (dialogs st) in
  if recreated then delete_attempts windowName st
  else
    let attempts := attempts_of st windowName in
    if (attempts <? maxRecoveryAttempts)%nat then
      schedule windowName crashId 2000 (set_attempts windowName (attempts + 1) st)
    else showCrashDialog windowName crashId st.

Inductive Event : Type :=
| crash (windowName crashId : string)
| attempt (windowName crashId : string) (recreated : bool).

Definition window_of (e : Event) : string :=
  match e with
  | crash w _ => w
  | attempt w _ _ => w
  end.

Definition step (st : State) (e : Event) : State :=
  match e with
  | crash w c => handleRendererCrash w c st
  | attempt w c ok => attemptWindowRecovery w c ok st
  end.

Definition run (st : State) (es : list Event) : State := foldl step st es.

(** What concerns one window: its pending attempts and its dialogs. *)
Definition pending_for (w : string) (st : State) : list (Ticket * Z) :=
  filter (fun td => td.1.1 = w) (scheduled st).

Definition dialogs_for (w : string) (st : State) : list Ticket :=
  filter (fun t => t.1 = w) (dialogs st).

End CrashRecoveryManager.

(** ** AskView.js: fitting the window to its content *)

Module AskView.

(** An element found by [querySelector]: whether it carries the class
    [hidden], and its measured heights. *)
Record Element : Type := mkElement {
  hidden : bool;
  offsetHeight : Z;
  scrollHeight : Z
}.

(** The rendered shadow DOM at the time of a measurement. *)
Record Dom : Type := mkDom {
  response_header : option Element;       (* .response-header *)
  response_container : option Element;    (* .response-container *)
  ai_response_container : option Element; (* .ai-response-container *)
  text_input_container : option Element   (* .text-input-container *)
}.

(** A message to the host: the arguments of one call of
    [window.api.askView.adjustWindowHeight]. *)
Inductive Arg : Type :=
| Str (s : string)
| Num (n : Z).

Definition Request : Type := list Arg.

Record State : Type := mkState {
  api : bool;               (* window.api is defined *)
  isThrottled : bool;
  animationFrames : nat;    (* callbacks queued by requestAnimationFrame *)
  timers : nat;             (* callbacks queued by setTimeout in firstUpdated *)
  sent : list Request
}.

Definition initial (api : bool) : State := mkState api false 0 0 [].

Definition idealHeight (dom : Dom) : option Z :=
  match response_header dom, response_container dom with
  | Some headerEl, Some responseEl =>
      let headerHeight := if hidden headerEl then 0 else offsetHeight headerEl in
      let responseHeight := scrollHeight responseEl in
      let navHeight :=
        match ai_response_container dom with
        | Some navEl => if hidden navEl then 0 else offsetHeight navEl
        | None => 0
        end in
      let inputHeight :=
        match text_input_container dom with
        | Some inputEl => if hidden inputEl then 0 else offsetHeight inputEl
        | None => 0
        end in
      Some (headerHeight + responseHeight + navHeight + inputHeight)
  | _, _ => None
  end.

(** [adjustWindowHeight]; [dom] is what the queries find once the pending
    update has completed. *)
Definition adjustWindowHeight (dom : Dom) (st : State) : State :=
  if negb (api st) then st
  else
    match idealHeight dom with
    | None => st
    | Some idealHeight =>
        let targetHeight := Z.min 700 idealHeight in
        mkState (api st) (isThrottled st) (animationFrames st) (timers st)
                (sent st ++ [[Str "ask"; Num targetHeight]])
    end.

Definition adjustWindowHeightThrottled (st : State) : State :=
  if isThrottled st then st
  else mkState (api st) true (S (animationFrames st)) (timers st) (sent st).

(** One queued animation-frame callback:
    [this.adjustWindowHeight(); this.isThrottled = false]. *)
Definition frame_callback (dom : Dom) (st : State) : State :=
  let st := adjustWindowHeight dom st in
  mkState (api st) false (animationFrames st) (timers st) (sent st).

(** An animation frame runs the callbacks queued before it. *)
Definition animation_frame (dom : Dom) (st : State) : State :=
  Nat.iter (animationFrames st) (frame_callback dom)
    (mkState (api st) (isThrottled st) 0 (timers st) (sent st)).

(** [firstUpdated]: [setTimeout(() => this.adjustWindowHeight(), 200)]. *)
Definition firstUpdated (st : State) : State :=
  mkState (api st) (isThrottled st) (animationFrames st) (S (timers st)) (sent st).

(** A timer set by [firstUpdated] fires: the adjustment is not throttled. *)
Definition timer_fires (dom : Dom) (st : State) : State :=
  match timers st with
  | O => st
  | S n =>
      adjustWindowHeight dom
        (mkState (api st) (isThrottled st) (animationFrames st) n (sent st))
  end.

(** [requestWindowResize]: the height is the only argument of the call. *)
Definition requestWindowResize (targetHeight : Z) (st : State) : State :=
  if api st
  then mkState (api st) (isThrottled st) (animationFrames st) (timers st)
               (sent st ++ [[Num targetHeight]])
  else st.

(** The callback of the [ResizeObserver] set up in [connectedCallback];
    [entries] holds the [contentRect.height] of each entry and [innerHeight]
    is [window.innerHeight]. *)
Definition resize_observed (entries : list Q) (innerHeight : Z) (st : State) : State :=
  foldl (fun st needed =>
           if Qle_bool needed (inject_Z (innerHeight - 4)) then st
           else requestWindowResize (Qceiling needed) st)
        st entries.

Inductive Event : Type :=
| render_pass                                     (* adjustWindowHeightThrottled() *)
| frame (dom : Dom)                               (* the next animation frame *)
| first_updated                                   (* Lit calls firstUpdated *)
| timeout (dom : Dom)                             (* a timer of firstUpdated fires *)
| resized (entries : list Q) (innerHeight : Z).   (* the ResizeObserver reports *)

Definition step (st : State) (e : Event) : State :=
  match e with
  | render_pass => adjustWindowHeightThrottled st
  | frame dom => animation_frame dom st
  | first_updated => firstUpdated st
  | timeout dom => timer_fires dom st
  | resized entries innerHeight => resize_observed entries innerHeight st
  end.

Definition run (st : State) (es : list Event) : State := foldl step st es.

Definition is_frame (e : Event) : bool :=
  match e with frame _ => true | _ => false end.

Definition is_render_pass (e : Event) : bool :=
  match e with render_pass => true | _ => false end.

End AskView.

(** ** Vocabulary of the statements *)

Section LayoutVocabulary.
Variable scr : Screen.
Variable pool : gmap string BrowserWindow.

(** [header_frame ov hb disp]: the layout pass works from header bounds [hb]
    on display [disp] (the override and the display nearest to its centre,
    or the live header and its current display). *)
Definition header_frame (ov : option Rectangle) (hb : Rectangle) (disp : Display) : Prop :=
  match ov with
  | Some b =>
      hb = b ∧
      disp = getDisplayNearestPoint scr
               (inject_Z (x b) + inject_Z (width b) / 2)%Q
               (inject_Z (y b) + inject_Z (height b) / 2)%Q
  | None =>
      ∃ h, pool !! "header" = Some h ∧ destroyed h = false ∧
           hb = bounds h ∧ disp = getCurrentDisplay scr (Some h)
  end.

(** The strategy picked for header bounds [hb] on display [disp]. *)
Definition side (hb : Rectangle) (disp : Display) : Strategy :=
  determineLayoutStrategy hb (width (workArea disp)) (height (workArea disp)) 0 0
    (x (workArea disp)) (y (workArea disp)).

Definition side_y (hb : Rectangle) (disp : Display) (h : Z) : Z :=
  match side hb disp with
  | above => y hb - 8 - h
  | below => y hb + height hb + 8
  end.

(** The header's horizontal centre, rounded to a pixel (half up). *)
Definition header_centre_px (hb : Rectangle) : Z := x hb + (width hb + 1) / 2.

Definition fitted_height (name : string) (w : BrowserWindow) : Z :=
  constrainHeight (height (bounds w)) (ORIGINAL_WINDOW_DIMENSIONS name).

Definition ask_rect (hb : Rectangle) (disp : Display) (a : BrowserWindow) : Rectangle :=
  mkRect (header_centre_px hb - 300) (side_y hb disp (fitted_height "ask" a))
         600 (fitted_height "ask" a).

Definition listen_rect (hb : Rectangle) (disp : Display) (left_of_ask : bool)
    (l : BrowserWindow) : Rectangle :=
  mkRect (if left_of_ask then header_centre_px hb - 300 - 408 else header_centre_px hb - 200)
         (side_y hb disp (fitted_height "listen" l))
         400 (fitted_height "listen" l).

(** What a layout pass returns, given its header frame. *)
Definition expected_layout (vis : Visibility) (hb : Rectangle) (disp : Display)
  : LayoutResult :=
  let askVis := vis_ask vis && live pool "ask" in
  let listenVis := vis_listen vis && live pool "listen" in
  mkLayout (if askVis then ask_rect hb disp <$> pool !! "ask" else None)
           (if listenVis then listen_rect hb disp askVis <$> pool !! "listen" else None).

End LayoutVocabulary.

(** The live width of a window changed to [w'], as a transient resize does. *)
Definition mutate_width (w' : Z) (w : BrowserWindow) : BrowserWindow :=
  set_bounds (mkRect (x (bounds w)) (y (bounds w)) w' (height (bounds w))) w.

(** Two rectangles share a point of positive area. *)
Definition overlaps (a b : Rectangle) : bool :=
  (x a <? x b + width b) && (x b <? x a + width a)
  && (y a <? y b + height b) && (y b <? y a + height a).

(** The window a caller hands over is missing or destroyed. *)
Definition gone (w : option BrowserWindow) : Prop :=
  match w with
  | None => True
  | Some w => destroyed w = true
  end.

(** A visibility request that asks for nothing new. *)
Definition no_op_request (st : WindowManager.State) (name : string) (shouldBeVisible : bool)
  : Prop :=
  match windowPool st !! name with
  | None => True
  | Some win =>
      destroyed win = true ∨ (name ≠ "settings" ∧ visible win = shouldBeVisible)
  end.

(** How the two loops of [changeAllWindowsVisibility] act on one window. *)
Definition hide_recorded (name : string) (w : BrowserWindow) : BrowserWindow :=
  if String.eqb name "header" then w else if isDestroyed w then w else hide w.

Definition show_recorded (name : string) (w : BrowserWindow) : BrowserWindow :=
  if isDestroyed w then w else showInactive w.

(** Every live, visible window hidden; the others as they were. *)
Definition all_hidden (pool : gmap string BrowserWindow) : gmap string BrowserWindow :=
  (fun w => if negb (destroyed w) && visible w then hide w else w) <$> pool.

(** The live windows of [names] shown, and no other window touched. *)
Definition shown_exactly (names : list string) (pool : gmap string BrowserWindow)
  : gmap string BrowserWindow :=
  map_imap (fun name w =>
              Some (if bool_decide (name ∈ names) && negb (destroyed w)
                    then showInactive w else w)) pool.

(** ** Concrete pools and screens *)

Module Examples.
Definition display0 : Display := mkDisplay 1 (mkRect 0 0 1920 1080).
Definition screen0 : Screen := mkScreen display0 [display0] (fun _ _ => display0).
Definition window0 (b : Rectangle) : BrowserWindow :=
  mkWin false b true false 1%Q true false false false.
Definition header0 : BrowserWindow := window0 (mkRect 784 21 353 47).
Definition ask0 : BrowserWindow := window0 (mkRect 0 0 777 300).
Definition listen0 : BrowserWindow := window0 (mkRect 0 0 555 50).
Definition pool0 : gmap string BrowserWindow :=
  <["header" := header0]> (<["ask" := ask0]> (<["listen" := listen0]> ∅)).
(** A header with as much room above as below: 516 = 1080 - (516 + 48). *)
Definition header_mid : BrowserWindow := window0 (mkRect 784 516 353 48).
Definition pool_mid : gmap string BrowserWindow :=
  <["header" := header_mid]> (<["ask" := ask0]> ∅).
(** A window that was destroyed and is still registered in the pool. *)
Definition gone0 (b : Rectangle) : BrowserWindow :=
  mkWin true b false false 1%Q false false false false.
Definition pool_dead_shortcut : gmap string BrowserWindow :=
  <["header" := header0]> (<["shortcut-settings" := gone0 (mkRect 0 0 353 720)]> ∅).
Definition pool_dead_header : gmap string BrowserWindow :=
  <["header" := gone0 (mkRect 784 21 353 47)]> (<["ask" := ask0]> ∅).
(** A visible header that has lost the focus and its always-on-top level. *)
Definition header_plain : BrowserWindow :=
  mkWin false (mkRect 784 21 353 47) true false 1%Q false false false false.
Definition pool_plain : gmap string BrowserWindow := <["header" := header_plain]> ∅.
(** A visible, always-on-top header that is not focused. *)
Definition pool_unfocused : gmap string BrowserWindow :=
  <["header" := mkWin false (mkRect 784 21 353 47) true false 1%Q true false false false]> ∅.
(** The pool with ask not yet shown. *)
Definition ask_hidden : BrowserWindow :=
  mkWin false (mkRect 0 0 600 300) false false 1%Q false false false false.
Definition pool_ask_hidden : gmap string BrowserWindow :=
  <["header" := header0]> (<["ask" := ask_hidden]> ∅).
(** Two displays side by side, the window being on the right-hand one, and
    a third display whose work area is empty. *)
Definition display_right : Display := mkDisplay 1 (mkRect 1440 0 1920 1080).
Definition display_left : Display := mkDisplay 2 (mkRect 0 0 1440 900).
Definition display_empty : Display := mkDisplay 3 (mkRect 0 0 0 0).
Definition screen_two : Screen :=
  mkScreen display_right [display_right; display_left; display_empty]
           (fun _ _ => display_right).
Definition screen_empty : Screen :=
  mkScreen display_right [display_right; display_left; display_empty]
           (fun _ _ => display_empty).
End Examples.
Import Examples.

(** ** The crash recovery manager seen from one window *)

Module CrashView.
Import CrashRecoveryManager.

Record View : Type := mkView {
  v_shutting : bool;
  v_attempts : option nat;
  v_pending : list (Ticket * Z);
  v_dialogs : list Ticket
}.

Definition view (w : string) (st : State) : View :=
  mkView (isShuttingDown st) (recoveryAttempts st !! w) (pending_for w st) (dialogs_for w st).

(** The effect on the view of an event of that window. *)
Definition view_step (v : View) (e : Event) : View :=
  match e with
  | crash w c =>
      if v_shutting v then v
      else
        let a := default 0%nat (v_attempts v) in
        if (a <? maxRecoveryAttempts)%nat
        then mkView (v_shutting v) (Some (a + 1)%nat)
                    (v_pending v ++ [((w, c), 1000 * (Z.of_nat a + 1))]) (v_dialogs v)
        else mkView (v_shutting v) (v_attempts v) (v_pending v) (v_dialogs v ++ [(w, c)])
  | attempt w c recreated =>
      let p := fired (w, c) (v_pending v) in
      if recreated then mkView (v_shutting v) None p (v_dialogs v)
      else
        let a := default 0%nat (v_attempts v) in
        if (a <? maxRecoveryAttempts)%nat
        then mkView (v_shutting v) (Some (a + 1)%nat) (p ++ [((w, c), 2000)]) (v_dialogs v)
        else mkView (v_shutting v) (v_attempts v) p (v_dialogs v ++ [(w, c)])
  end.

End CrashView.

(** ** The states the ask view can be in *)

Module AskViewInvariant.
Import AskView.

(** A callback is queued exactly while the view is throttled. *)
Definition consistent (api0 : bool) (st : State) : Prop :=
  api st = api0 ∧ animationFrames st = (if isThrottled st then 1 else 0)%nat.

(** The height a region contributes: nothing when it is absent or carries
    the class [hidden], its [offsetHeight] otherwise. *)
Definition region_height (el : option Element) : Z :=
  match el with
  | Some e => if hidden e then 0 else offsetHeight e
  | None => 0
  end.

(** [r] asks to fit the window "ask" to the content measured in [dom]: the
    header, the response (its scroll height), the navigation and the input
    region, capped at 700. *)
Definition fits_content (dom : Dom) (r : Request) : Prop :=
  ∃ headerEl responseEl,
    response_header dom = Some headerEl
    ∧ response_container dom = Some responseEl
    ∧ r = [Str "ask";
           Num (Z.min 700 (region_height (Some headerEl) + scrollHeight responseEl
                           + region_height (ai_response_container dom)
                           + region_height (text_input_container dom)))].

(** What the throttle does not touch. *)
Definition unthrottled_part (st : State) : bool * nat * list Request :=
  (api st, timers st, sent st).

(** A measured document: a 50px header, 900px of response, a 40px input. *)
Definition dom_tall : Dom :=
  mkDom (Some (mkElement false 50 50)) (Some (mkElement false 400 900))
        None (Some (mkElement false 40 40)).

(** The same with 300px of response and the input region hidden. *)
Definition dom_short : Dom :=
  mkDom (Some (mkElement false 50 50)) (Some (mkElement false 300 300))
        (Some (mkElement false 30 30)) (Some (mkElement true 40 40)).

End AskViewInvariant.

(** ** Further vocabulary: positions and directions *)

(** [win.setPosition(x, y)]: the window moved, its size kept. *)
Definition set_position (x' y' : Z) (w : BrowserWindow) : BrowserWindow :=
  set_bounds (mkRect x' y' (width (bounds w)) (height (bounds w))) w.

(** The direction that undoes a step. *)
Definition opposite (direction : string) : string :=
  if String.eqb direction "left" then "right"
  else if String.eqb direction "right" then "left"
  else if String.eqb direction "up" then "down"
  else if String.eqb direction "down" then "up"
  else direction.

(** ** Further vocabulary: the window manager's timers *)

(** The callback of the 200ms [settingsHideTimer] set by a hide request for
    the settings window; it runs only if the timer was not cleared. *)
Definition settingsHideTimer_fires (st : WindowManager.State) : WindowManager.State :=
  if settingsHideTimer st
  then with_settingsHideTimer false
         (with_pool (on_live (fun win => hide (removeAggressiveAlwaysOnTop win)) "settings"
                       (windowPool st)) st)
  else st.

Definition is_FocusRestore (t : Task) : bool :=
  match t with
  | FocusRestore => true
  | _ => false
  end.

(** The number of pending [focusRestoreTimer] callbacks. *)
Definition pending_restores (st : WindowManager.State) : nat :=
  length (filter (fun t => is_FocusRestore t = true) (timers st)).


(** ** windowManager.js: the handlers of the window controller *)

Module WindowController.

(** What a handler tells the movement manager to do when an animation
    completes. *)
Inductive OnComplete : Type :=
| nothing
| relayout                                       (* updateChildWindowLayouts(true) *)
| relock (name : string) (wasResizable : bool).  (* restore resizable, then relayout *)

(** The calls the handlers make to the movement manager; [animated] is
    [None] where the call leaves the argument out. *)
Inductive Call : Type :=
| animateLayout (layout : LayoutResult) (animated : option bool)
| animateWindowPosition (name : string) (x' y' : Z) (onComplete : OnComplete)
| animateWindowBounds (name : string) (b : Rectangle) (onComplete : OnComplete).

(** [win.setResizable(r)] *)
Definition set_resizable (r : bool) (w : BrowserWindow) : BrowserWindow :=
  mkWin (destroyed w) (bounds w) (visible w) (focused w) (opacity w) (alwaysOnTop w)
        (ignoreMouseEvents w) r (lockedByButton w).

(** [win && !win.isDestroyed() && win.isVisible()] *)
Definition shown (pool : gmap string BrowserWindow) (name : string) : bool :=
  match pool !! name with
  | Some win => negb (isDestroyed win) && visible win
  | None => false
  end.

(** The [visibleWindows] object built from the pool. *)
Definition visibleWindows (pool : gmap string BrowserWindow) : Visibility :=
  mkVis (shown pool "ask") (shown pool "listen").

Definition updateChildWindowLayouts (scr : Screen) (pool : gmap string BrowserWindow)
    (animated : bool) : result (list Call) :=
  if negb (shown pool "listen") && negb (shown pool "ask") then Ok []
  else
    let* newLayout := calculateFeatureWindowLayout scr pool (visibleWindows pool) None in
    Ok [animateLayout newLayout (Some animated)].

(** A handler leaves a pool and the calls it made. *)
Definition Outcome : Type := (gmap string BrowserWindow * list Call)%type.

(** [window:moveToEdge] *)
Definition on_moveToEdge (scr : Screen) (pool : gmap string BrowserWindow)
    (direction : string) : result Outcome :=
  match pool !! "header" with
  | None => Ok (pool, [])
  | Some header =>
      if isDestroyed header then Ok (pool, [])
      else
        let* newPosition := calculateEdgePosition scr (Some header) direction in
        match newPosition with
        | Some (x', y') => Ok (pool, [animateWindowPosition "header" x' y' relayout])
        | None => Ok (pool, [])
        end
  end.

(** [window:moveStep] *)
Definition on_moveStep (scr : Screen) (pool : gmap string BrowserWindow)
    (direction : string) : result Outcome :=
  match pool !! "header" with
  | None => Ok (pool, [])
  | Some header =>
      if isDestroyed header then Ok (pool, [])
      else
        let* newHeaderPosition := calculateStepMovePosition (Some header) direction in
        match newHeaderPosition with
        | None => Ok (pool, [])
        | Some (x', y') =>
            let* headerBounds := getBounds header in
            let futureHeaderBounds :=
              mkRect x' y' (width headerBounds) (height headerBounds) in
            let* newChildLayout :=
              calculateFeatureWindowLayout scr pool (visibleWindows pool)
                (Some futureHeaderBounds) in
            Ok (pool, [animateWindowPosition "header" x' y' nothing;
                       animateLayout newChildLayout None])
        end
  end.

(** [window:resizeHeaderWindow]; [isAnimating] is the movement manager's
    flag. *)
Definition on_resizeHeaderWindow (pool : gmap string BrowserWindow) (isAnimating : bool)
    (width' height' : Z) : result Outcome :=
  match pool !! "header" with
  | None => Ok (pool, [])
  | Some header =>
      if isDestroyed header || isAnimating then Ok (pool, [])
      else
        let* newHeaderBounds := calculateHeaderResize (Some header) width' height' in
        match newHeaderBounds with
        | None => Ok (pool, [])
        | Some newHeaderBounds =>
            let wasResizable := resizable header in
            let pool :=
              if negb wasResizable then <["header" := set_resizable true header]> pool
              else pool in
            Ok (pool, [animateWindowBounds "header" newHeaderBounds
                         (relock "header" wasResizable)])
        end
  end.


(** The completion callbacks. That of a bounds animation returns at once when
    its window is gone; otherwise it restores the resizable flag before it
    lays the children out again. *)
Definition completed (scr : Screen) (pool : gmap string BrowserWindow) (c : OnComplete)
    : gmap string BrowserWindow * result (list Call) :=
  match c with
  | nothing => (pool, Ok [])
  | relayout => (pool, updateChildWindowLayouts scr pool true)
  | relock name wasResizable =>
      match pool !! name with
      | None => (pool, Ok [])
      | Some win =>
          if isDestroyed win then (pool, Ok [])
          else
            let pool :=
              if negb wasResizable then <[name := set_resizable false win]> pool else pool in
            (pool, updateChildWindowLayouts scr pool true)
      end
  end.

End WindowController.

(** ** windowManager.js: creating, destroying and recreating windows *)

Module FeatureWindows.

(** The two places that construct a window. What [new BrowserWindow(options)]
    returns is Electron's business: it is a parameter of the model. *)
Inductive Construction : Type :=
| created (name : string)      (* in createFeatureWindow *)
| recreated (name : string).   (* in recreateHeaderWindow, recreateAskWindow, ... *)

Definition featureWindows : list string := ["listen"; "ask"; "settings"; "shortcut-settings"].

Definition is_feature (name : string) : bool :=
  String.eqb name "listen" || String.eqb name "ask" || String.eqb name "settings"
  || String.eqb name "shortcut-settings".

(** The argument [namesToCreate]: an array, a string, or anything else. *)
Inductive Names : Type :=
| names_array (l : list string)
| names_string (s : string)
| names_other.

(** The errors [recreateWindow] throws. *)
Inductive RecreateError : Type :=
| header_required      (* Header window required for ask/listen window creation *)
| unknown_window_type. (* Unknown window type *)

Section Lifecycle.
Variable construct : Construction → BrowserWindow.

Definition createFeatureWindow (pool : gmap string BrowserWindow) (name : string)
  : gmap string BrowserWindow :=
  match pool !! name with
  | Some _ => pool
  | None =>
      if is_feature name
      then <[name := applyAggressiveAlwaysOnTop (construct (created name))]> pool
      else pool
  end.

Definition createFeatureWindows (pool : gmap string BrowserWindow) (namesToCreate : Names)
  : gmap string BrowserWindow :=
  match namesToCreate with
  | names_array l => foldl createFeatureWindow pool l
  | names_string s => createFeatureWindow pool s
  | names_other => foldl createFeatureWindow pool featureWindows
  end.

(** The pending hide timer of the settings window is cancelled (the variable
    keeps the stale handle, which the code cannot tell from [null] any
    more), every feature window still alive is destroyed, and all four names
    leave the pool. *)
Definition destroyFeatureWindows (st : WindowManager.State) : WindowManager.State :=
  with_settingsHideTimer false
    (with_pool (foldl (fun pool name => delete name pool) (windowPool st) featureWindows) st).

Definition handleHeaderStateChanged (state : string) (st : WindowManager.State)
  : WindowManager.State :=
  if String.eqb state "main"
  then with_pool (createFeatureWindows (windowPool st) names_other) st
  else destroyFeatureWindows st.

(** [recreateWindow]: the pool it leaves, and which of its own two errors
    it throws, if any; constructing a window and wiring its events are
    taken to succeed. The old window is closed and forgotten before the new
    one is made. *)
Definition recreateWindow (windowName : string) (pool : gmap string BrowserWindow)
  : gmap string BrowserWindow * option RecreateError :=
  let pool := delete windowName pool in
  if String.eqb windowName "header"
  then (<[windowName := construct (recreated windowName)]> pool, None)
  else if String.eqb windowName "ask" || String.eqb windowName "listen" then
    match pool !! "header" with
    | None => (pool, Some header_required)
    | Some _ => (<[windowName := construct (recreated windowName)]> pool, None)
    end
  else if String.eqb windowName "settings" || String.eqb windowName "shortcut-settings"
  then (<[windowName := construct (recreated windowName)]> pool, None)
  else (pool, Some unknown_window_type).

(** [attemptWindowRecovery] of the crash recovery manager, with this window
    manager behind it. *)
Definition recover (windowName crashId : string)
    (s : gmap string BrowserWindow * CrashRecoveryManager.State)
  : gmap string BrowserWindow * CrashRecoveryManager.State :=
  let r := recreateWindow windowName s.1 in
  (r.1, CrashRecoveryManager.attemptWindowRecovery windowName crashId
          (if r.2 is None then true else false) s.2).

End Lifecycle.

End FeatureWindows.

(** ** Further vocabulary: crash recovery *)

(** The counters stay under the cap and the delays between one and three
    seconds. *)
Definition recovery_bounded (st : CrashRecoveryManager.State) : Prop :=
  (∀ w, (CrashRecoveryManager.attempts_of st w ≤ CrashRecoveryManager.maxRecoveryAttempts)%nat)
  ∧ Forall (fun td : CrashRecoveryManager.Ticket * Z => 1000 ≤ td.2 ≤ 3000)
      (CrashRecoveryManager.scheduled st).

(** ** AskView.js: the response history and two text helpers *)

Module AskHistory.

(** An entry of [this.responses]. *)
Record Response : Type := mkResponse {
  content : string;
  question : string;
  timestamp : string;
  id : Z
}.

(** The properties of the view the history code reads and writes. *)
Record State : Type := mkState {
  responses : list Response;
  currentResponseIndex : Z;
  isNavigatingHistory : bool;
  isLoading : bool;
  isStreaming : bool;
  showTextInput : bool;
  currentResponse : string;
  currentQuestion : string;
  liveResponse : string;
  liveQuestion : string;
  displayResponse : string;
  displayQuestion : string
}.

(** The state the constructor leaves. *)
Definition initial : State :=
  mkState [] (-1) false false false true "" "" "" "" "" "".

(** The payload of an ask state update. *)
Record AskState : Type := mkAskState {
  new_currentResponse : string;
  new_currentQuestion : string;
  new_isLoading : bool;
  new_isStreaming : bool;
  new_showTextInput : bool
}.

(** A non-empty string is truthy. *)
Definition nonempty (s : string) : bool :=
  match s with
  | EmptyString => false
  | String _ _ => true
  end.

(** [now] stands for the two readings of the clock, the ISO timestamp and
    [Date.now()]. *)
Definition onResponseCompleted (response question' : string) (now : string * Z)
    (st : State) : State :=
  let responses' := responses st ++ [mkResponse response question' now.1 now.2] in
  mkState responses' (Z.of_nat (length responses') - 1) (isNavigatingHistory st)
          (isLoading st) (isStreaming st) (showTextInput st)
          response question' (liveResponse st) (liveQuestion st) response question'.

Definition canNavigatePrevious (st : State) : bool :=
  (0 <? Z.of_nat (length (responses st))) && (0 <? currentResponseIndex st)
  && negb (isLoading st) && negb (isStreaming st).

Definition canNavigateNext (st : State) : bool :=
  (0 <? Z.of_nat (length (responses st)))
  && (currentResponseIndex st <? Z.of_nat (length (responses st)) - 1)
  && negb (isLoading st) && negb (isStreaming st).

Definition loadResponseAtIndex (index : Z) (st : State) : State :=
  if (index <? 0) || (Z.of_nat (length (responses st)) <=? index) then st
  else
    match responses st !! Z.to_nat index with
    | None => st
    | Some response =>
        mkState (responses st) index true (isLoading st) (isStreaming st) (showTextInput st)
                (content response) (question response) (liveResponse st) (liveQuestion st)
                (content response) (question response)
    end.

Definition navigatePreviousResponse (st : State) : State :=
  if negb (canNavigatePrevious st) then st
  else loadResponseAtIndex (currentResponseIndex st - 1) st.

Definition navigateNextResponse (st : State) : State :=
  if negb (canNavigateNext st) then st
  else loadResponseAtIndex (currentResponseIndex st + 1) st.

Definition set_isNavigatingHistory (b : bool) (st : State) : State :=
  mkState (responses st) (currentResponseIndex st) b (isLoading st) (isStreaming st)
          (showTextInput st) (currentResponse st) (currentQuestion st) (liveResponse st)
          (liveQuestion st) (displayResponse st) (displayQuestion st).

Definition forceExitNavigationMode (st : State) : State :=
  mkState (responses st) (currentResponseIndex st) false (isLoading st) (isStreaming st)
          (showTextInput st) (liveResponse st) (liveQuestion st) (liveResponse st)
          (liveQuestion st) (liveResponse st) (liveQuestion st).

Definition clearResponseContent (st : State) : State :=
  mkState [] (-1) false false false true "" "" "" "" "" "".

(** The listener of [onAskStateUpdate]. *)
Definition onAskStateUpdate (newState : AskState) (now : string * Z) (st : State) : State :=
  let prevLoading := isLoading st in
  let prevStreaming := isStreaming st in
  let shown_response :=
    if negb (isNavigatingHistory st) then new_currentResponse newState
    else currentResponse st in
  let shown_question :=
    if negb (isNavigatingHistory st) then new_currentQuestion newState
    else currentQuestion st in
  let st1 :=
    mkState (responses st) (currentResponseIndex st) (isNavigatingHistory st)
            (new_isLoading newState) (new_isStreaming newState) (new_showTextInput newState)
            shown_response shown_question
            (new_currentResponse newState) (new_currentQuestion newState)
            (if negb (isNavigatingHistory st) then new_currentResponse newState
             else displayResponse st)
            (if negb (isNavigatingHistory st) then new_currentQuestion newState
             else displayQuestion st) in
  let wasActive := prevLoading || prevStreaming in
  let nowIdle := negb (isStreaming st1) && negb (isLoading st1) in
  if wasActive && nowIdle && nonempty (liveResponse st1)
  then onResponseCompleted (liveResponse st1) (liveQuestion st1) now
         (set_isNavigatingHistory false st1)
  else st1.

(** What happens to the view. *)
Inductive Event : Type :=
| ask_state_update (newState : AskState) (now : string * Z)
| navigate_previous
| navigate_next
| clear_ask_chat
| force_exit_navigation
| send_text                   (* handleSendText, its input found, clears the flag *)
| navigation_flag_timeout.    (* the 300ms timer set by loadResponseAtIndex *)

Definition step (st : State) (e : Event) : State :=
  match e with
  | ask_state_update newState now => onAskStateUpdate newState now st
  | navigate_previous => navigatePreviousResponse st
  | navigate_next => navigateNextResponse st
  | clear_ask_chat => clearResponseContent st
  | force_exit_navigation => forceExitNavigationMode st
  | send_text => set_isNavigatingHistory false st
  | navigation_flag_timeout => set_isNavigatingHistory false st
  end.

Definition run (st : State) (es : list Event) : State := foldl step st es.

(** The index points into the history, or is -1 while the history is
    empty. *)
Definition index_in_range (st : State) : Prop :=
  (responses st = [] ∧ currentResponseIndex st = -1)
  ∨ 0 ≤ currentResponseIndex st < Z.of_nat (length (responses st)).

(** The view displays the stored response [r]. *)
Definition shows (st : State) (r : Response) : Prop :=
  currentResponse st = content r ∧ currentQuestion st = question r
  ∧ displayResponse st = content r ∧ displayQuestion st = question r.

End AskHistory.

Module AskText.

(** [getTruncatedQuestion(question, maxLength)] *)
Definition getTruncatedQuestion (question : string) (maxLength : nat) : string :=
  if negb (AskHistory.nonempty question) then ""
  else if (String.length question <=? maxLength)%nat then question
  else String.append (String.substring 0 maxLength question) "...".

(** The backtick is character 96, the line feed character 10. *)
Definition is_backtick (c : Ascii.ascii) : bool := Ascii.eqb c (Ascii.ascii_of_nat 96).

(** The number of matches of the global pattern of three backticks: the
    leftmost matches, none overlapping another. *)
Fixpoint count_fences (text : string) : nat :=
  match text with
  | EmptyString => 0
  | String a rest1 =>
      match rest1 with
      | String b (String c rest3) =>
          if is_backtick a && is_backtick b && is_backtick c
          then S (count_fences rest3)
          else count_fences rest1
      | _ => count_fences rest1
      end
  end.

(** The text appended to close a fence: a line feed and three backticks. *)
Definition closing_fence : string := String (Ascii.ascii_of_nat 10) "```".

Definition fixIncompleteCodeBlocks (text : string) : string :=
  if negb (AskHistory.nonempty text) then text
  else if Nat.odd (count_fences text) then String.append text closing_fence
  else text.

End AskText.

(** ** Further concrete pools, screens and states *)

Module MoreExamples.
(** A pool with the four feature windows; settings and shortcut-settings are
    hidden. *)
Definition hidden0 (b : Rectangle) : BrowserWindow :=
  mkWin false b false false 1%Q false false false false.
Definition settings0 : BrowserWindow := hidden0 (mkRect 0 0 240 500).
Definition shortcuts0 : BrowserWindow := hidden0 (mkRect 0 0 353 720).
Definition pool_full : gmap string BrowserWindow :=
  <["settings" := settings0]> (<["shortcut-settings" := shortcuts0]> pool0).
(** What the constructor returns, for the lifecycle examples. *)
Definition construct0 (c : FeatureWindows.Construction) : BrowserWindow :=
  hidden0 (mkRect 0 0 800 600).
(** A history of two responses, the second one current. *)
Definition history2 : AskHistory.State :=
  AskHistory.mkState
    [AskHistory.mkResponse "first answer" "first question" "t1" 1;
     AskHistory.mkResponse "second answer" "second question" "t2" 2]
    1 false false false true
    "second answer" "second question" "second answer" "second question"
    "second answer" "second question".
End MoreExamples.
Import MoreExamples.

(** * Properties *)

(** ** Rounding *)

Section Rounding.

Lemma Qfloor_add_Z (q : Q) (n : Z) : Qfloor (q + inject_Z n) = Qfloor q + n.
Proof.
  destruct q as [a b]. unfold Qfloor, Qplus, inject_Z. simpl.
  rewrite Pos.mul_1_r, Z.mul_1_r. apply Z.div_add. lia.
Qed.

Lemma Math_round_shift (q : Q) (n : Z) :
  Math_round (q + inject_Z n) = Math_round q + n.
Proof.
  unfold Math_round. rewrite <- Qfloor_add_Z.
  apply Qfloor_comp. ring.
Qed.

Lemma Math_round_Z (n : Z) : Math_round (inject_Z n) = n.
Proof.
  unfold Math_round, Qfloor, Qplus, inject_Z. simpl.
  rewrite Z.mul_1_r. 
  replace (n * 2 + 1) with (1 + n * 2) by lia.
  rewrite Z.div_add by lia. reflexivity.
Qed.

Lemma Math_round_half (n : Z) : Math_round (inject_Z n / 2) = (n + 1) / 2.
Proof.
  unfold Math_round, Qfloor, Qplus, Qdiv, Qmult, Qinv, inject_Z. simpl.
  change (Z.pos (1 * 2 * 2)) with (2 * 2). change (Z.pos (1 * 2)) with 2.
  replace (n * 1 * 2 + 1 * 2) with ((n + 1) * 2) by lia.
  rewrite Z.div_mul_cancel_r by lia. reflexivity.
Qed.

End Rounding.

Lemma Math_round_comp (p q : Q) : (p == q)%Q → Math_round p = Math_round q.
Proof. intros E. unfold Math_round. apply Qfloor_comp. rewrite E. reflexivity. Qed.

(** The shape every x coordinate of the layout has: half the header width
    plus an integer. *)
Lemma Math_round_half_plus (p : Q) (hw n : Z) :
  (p == inject_Z hw / 2 + inject_Z n)%Q → Math_round p = (hw + 1) / 2 + n.
Proof.
  intros E. rewrite (Math_round_comp _ _ E), Math_round_shift, Math_round_half.
  reflexivity.
Qed.

Ltac inject_field :=
  unfold Z.sub; rewrite ?inject_Z_plus, ?inject_Z_opp, ?inject_Z_mult; field.

(** ** The feature-window layout in closed form *)

Section Layout.
Variable scr : Screen.
Variable pool : gmap string BrowserWindow.

Lemma live_Some name w : pool !! name = Some w → destroyed w = false → live pool name = true.
Proof. intros E D. unfold live, isDestroyed. rewrite E, D. reflexivity. Qed.

Lemma live_inv name : live pool name = true → ∃ w, pool !! name = Some w ∧ destroyed w = false.
Proof.
  unfold live, isDestroyed. destruct (pool !! name) as [w|]; [|discriminate].
  intros H. exists w. split; [reflexivity|]. destruct (destroyed w); [discriminate|reflexivity].
Qed.

Lemma getWindowDimensions_ask a :
  pool !! "ask" = Some a → destroyed a = false →
  getWindowDimensions pool "ask"
  = Some (mkRect (x (bounds a)) (y (bounds a)) 600 (fitted_height "ask" a)).
Proof. intros E D. unfold getWindowDimensions, isDestroyed. rewrite E, D. reflexivity. Qed.

Lemma getWindowDimensions_listen l :
  pool !! "listen" = Some l → destroyed l = false →
  getWindowDimensions pool "listen"
  = Some (mkRect (x (bounds l)) (y (bounds l)) 400 (fitted_height "listen" l)).
Proof. intros E D. unfold getWindowDimensions, isDestroyed. rewrite E, D. reflexivity. Qed.

Lemma round_ask_x (hb : Rectangle) (wa : Z) :
  Math_round (inject_Z (x hb) - inject_Z wa + inject_Z (width hb) / 2
              - inject_Z 600 / 2 + inject_Z wa)
  = header_centre_px hb - 300.
Proof.
  unfold header_centre_px.
  rewrite (Math_round_half_plus _ (width hb) (x hb - 300)); [lia|].
  unfold Z.sub. rewrite inject_Z_plus. change (inject_Z 600) with 600%Q.
  change (inject_Z (- (300))) with (- (300))%Q. field.
Qed.

Lemma round_listen_x (hb : Rectangle) (wa : Z) :
  Math_round (inject_Z (x hb) - inject_Z wa + inject_Z (width hb) / 2
              - inject_Z 400 / 2 + inject_Z wa)
  = header_centre_px hb - 200.
Proof.
  unfold header_centre_px.
  rewrite (Math_round_half_plus _ (width hb) (x hb - 200)); [lia|].
  unfold Z.sub. rewrite inject_Z_plus. change (inject_Z 400) with 400%Q.
  change (inject_Z (- (200))) with (- (200))%Q. field.
Qed.

Lemma round_listen_left_x (hb : Rectangle) (wa : Z) :
  Math_round (inject_Z (x hb) - inject_Z wa + inject_Z (width hb) / 2
              - inject_Z 600 / 2 - inject_Z 400 - inject_Z 8 + inject_Z wa)
  = header_centre_px hb - 300 - 408.
Proof.
  unfold header_centre_px.
  rewrite (Math_round_half_plus _ (width hb) (x hb - 708)); [lia|].
  unfold Z.sub. rewrite inject_Z_plus. change (inject_Z 600) with 600%Q.
  change (inject_Z 400) with 400%Q. change (inject_Z 8) with 8%Q.
  change (inject_Z (- (708))) with (- (708))%Q. field.
Qed.

Ltac resolve_frame F :=
  unfold calculateFeatureWindowLayout;
  match goal with
  | ov : option Rectangle |- _ =>
      destruct ov as [ob|];
      [ destruct F as [-> ?]
      | let Hh := fresh in let Dh := fresh in
        destruct F as (? & Hh & Dh & -> & ?); rewrite Hh; unfold getBounds, alive;
        rewrite Dh ]
  end; cbn [JS.bind];
  match goal with
  | E : ?d = getDisplayNearestPoint _ _ _ |- _ => rewrite <- E; clear E
  | E : ?d = getCurrentDisplay _ _ |- _ => rewrite <- E; clear E
  end.

Ltac close_rects :=
  unfold ask_rect, listen_rect, side_y, side, determineLayoutStrategy;
  rewrite ?Math_round_Z, ?round_ask_x, ?round_listen_x, ?round_listen_left_x;
  match goal with |- context [?a <? ?b] => destruct (a <? b) end; reflexivity.

Lemma layout_both ov hb disp vis a l :
  header_frame scr pool ov hb disp →
  vis_ask vis = true → vis_listen vis = true →
  pool !! "ask" = Some a → destroyed a = false →
  pool !! "listen" = Some l → destroyed l = false →
  calculateFeatureWindowLayout scr pool vis ov
  = Ok (mkLayout (Some (ask_rect hb disp a)) (Some (listen_rect hb disp true l))).
Proof.
  intros F Va Vl Ea Da El Dl.
  pose proof (live_Some _ _ Ea Da) as La. pose proof (live_Some _ _ El Dl) as Ll.
  resolve_frame F; rewrite Va, Vl, La, Ll; cbn [andb negb];
    rewrite (getWindowDimensions_ask _ Ea Da), (getWindowDimensions_listen _ El Dl);
    cbn [JS.bind deref width height]; close_rects.
Qed.

Lemma layout_ask_only ov hb disp vis a :
  header_frame scr pool ov hb disp →
  vis_ask vis = true → pool !! "ask" = Some a → destroyed a = false →
  vis_listen vis && live pool "listen" = false →
  calculateFeatureWindowLayout scr pool vis ov
  = Ok (mkLayout (Some (ask_rect hb disp a)) None).
Proof.
  intros F Va Ea Da NL.
  pose proof (live_Some _ _ Ea Da) as La.
  resolve_frame F; rewrite Va, La, NL; cbn [andb negb];
    rewrite (getWindowDimensions_ask _ Ea Da);
    cbn [JS.bind deref width height]; close_rects.
Qed.

Lemma layout_listen_only ov hb disp vis l :
  header_frame scr pool ov hb disp →
  vis_listen vis = true → pool !! "listen" = Some l → destroyed l = false →
  vis_ask vis && live pool "ask" = false →
  calculateFeatureWindowLayout scr pool vis ov
  = Ok (mkLayout None (Some (listen_rect hb disp false l))).
Proof.
  intros F Vl El Dl NA.
  pose proof (live_Some _ _ El Dl) as Ll.
  resolve_frame F; rewrite Vl, Ll, NA; cbn [andb negb];
    rewrite (getWindowDimensions_listen _ El Dl);
    cbn [JS.bind deref width height]; close_rects.
Qed.

Lemma layout_neither ov hb disp vis :
  header_frame scr pool ov hb disp →
  vis_ask vis && live pool "ask" = false →
  vis_listen vis && live pool "listen" = false →
  calculateFeatureWindowLayout scr pool vis ov = Ok empty_layout.
Proof.
  intros F NA NL. resolve_frame F; rewrite NA, NL; reflexivity.
Qed.

Lemma layout_closed_form ov hb disp vis :
  header_frame scr pool ov hb disp →
  calculateFeatureWindowLayout scr pool vis ov = Ok (expected_layout pool vis hb disp).
Proof.
  intros F. unfold expected_layout.
  destruct (vis_ask vis && live pool "ask") eqn:A;
    destruct (vis_listen vis && live pool "listen") eqn:L.
  - apply andb_prop in A as [Va La], L as [Vl Ll].
    apply live_inv in La as (a & Ea & Da), Ll as (l & El & Dl).
    rewrite Ea, El. now apply layout_both.
  - apply andb_prop in A as [Va La]. apply live_inv in La as (a & Ea & Da).
    rewrite Ea. now apply layout_ask_only.
  - apply andb_prop in L as [Vl Ll]. apply live_inv in Ll as (l & El & Dl).
    rewrite El. now apply layout_listen_only.
  - now apply (layout_neither ov hb disp).
Qed.

Lemma layout_no_header vis :
  pool !! "header" = None → calculateFeatureWindowLayout scr pool vis None = Ok empty_layout.
Proof. intros E. unfold calculateFeatureWindowLayout. rewrite E. reflexivity. Qed.

End Layout.

Section LayoutClaims.
Variable scr : Screen.
Variable pool : gmap string BrowserWindow.

Lemma live_mutate_width wa wl name :
  live (alter (mutate_width wl) "listen" (alter (mutate_width wa) "ask" pool)) name
  = live pool name.
Proof.
  unfold live.
  destruct (decide (name = "listen")) as [->|Nl].
  { rewrite lookup_alter_eq, lookup_alter_ne by discriminate.
    destruct (pool !! "listen"); reflexivity. }
  rewrite lookup_alter_ne by congruence.
  destruct (decide (name = "ask")) as [->|Na].
  { rewrite lookup_alter_eq. destruct (pool !! "ask"); reflexivity. }
  rewrite lookup_alter_ne by congruence. reflexivity.
Qed.

Lemma header_frame_mutate_width wa wl ov hb disp :
  header_frame scr pool ov hb disp →
  header_frame scr (alter (mutate_width wl) "listen" (alter (mutate_width wa) "ask" pool))
    ov hb disp.
Proof.
  destruct ov; [exact id|]. unfold header_frame.
  rewrite !lookup_alter_ne by discriminate. exact id.
Qed.

Lemma expected_layout_mutate_width wa wl vis hb disp :
  expected_layout (alter (mutate_width wl) "listen" (alter (mutate_width wa) "ask" pool))
    vis hb disp
  = expected_layout pool vis hb disp.
Proof.
  unfold expected_layout. rewrite !live_mutate_width.
  rewrite lookup_alter_ne, lookup_alter_eq, lookup_alter_eq by discriminate.
  rewrite lookup_alter_ne by discriminate.
  destruct (pool !! "ask"), (pool !! "listen"); reflexivity.
Qed.

(** C1. A layout pass gives ask the width 600 and listen the width 400
    whatever their live widths are, and changing the live widths to any
    other values leaves the whole returned layout unchanged. *)
Theorem layout_width_is_nominal ov hb disp vis :
  header_frame scr pool ov hb disp →
  ∃ layout,
    calculateFeatureWindowLayout scr pool vis ov = Ok layout
    ∧ (vis_ask vis = true → live pool "ask" = true →
       ∃ b, layout_ask layout = Some b ∧ width b = 600)
    ∧ (vis_listen vis = true → live pool "listen" = true →
       ∃ b, layout_listen layout = Some b ∧ width b = 400)
    ∧ (∀ b, layout_ask layout = Some b → width b = 600)
    ∧ (∀ b, layout_listen layout = Some b → width b = 400)
    ∧ (∀ wa wl,
         calculateFeatureWindowLayout scr
           (alter (mutate_width wl) "listen" (alter (mutate_width wa) "ask" pool)) vis ov
         = Ok layout).
Proof.
  intros F. exists (expected_layout pool vis hb disp).
  split; [now apply layout_closed_form|].
  unfold expected_layout at 1 2 3 4. cbn [layout_ask layout_listen].
  repeat split.
  - intros -> La. rewrite La. apply live_inv in La as (a & -> & _).
    eexists; split; reflexivity.
  - intros -> Ll. rewrite Ll. apply live_inv in Ll as (l & -> & _).
    eexists; split; reflexivity.
  - intros b. destruct (_ && _); [|discriminate].
    destruct (pool !! "ask"); [|discriminate]. now intros [= <-].
  - intros b. destruct (vis_listen vis && _); [|discriminate].
    destruct (pool !! "listen"); [|discriminate]. now intros [= <-].
  - intros wa wl. rewrite <- (expected_layout_mutate_width wa wl).
    apply layout_closed_form. now apply header_frame_mutate_width.
Qed.

(** C4. The strategy is 'above' exactly when the space above the header in
    the work area strictly exceeds the space below it, so equal spaces give
    'below'; the windows of the returned layout sit on that side, 8px from
    the header. *)
Theorem strategy_above_iff_more_space_above ov hb disp vis layout relativeX relativeY :
  header_frame scr pool ov hb disp →
  calculateFeatureWindowLayout scr pool vis ov = Ok layout →
  let wa := workArea disp in
  let strategy :=
    determineLayoutStrategy hb (width wa) (height wa) relativeX relativeY (x wa) (y wa) in
  let spaceAbove := y hb - y wa in
  let spaceBelow := height wa - (y hb - y wa + height hb) in
  (strategy = above ↔ spaceAbove > spaceBelow)
  ∧ (spaceAbove = spaceBelow → strategy = below)
  ∧ (∀ b, layout_ask layout = Some b ∨ layout_listen layout = Some b →
          match strategy with
          | above => y b + height b = y hb - 8
          | below => y b = y hb + height hb + 8
          end).
Proof.
  intros F E wa strategy spaceAbove spaceBelow.
  rewrite (layout_closed_form scr pool ov hb disp vis F) in E. injection E as <-.
  assert (S : strategy = side hb disp) by reflexivity.
  assert (D : strategy = if spaceBelow <? spaceAbove then above else below) by reflexivity.
  repeat split.
  - rewrite D. destruct (Z.ltb_spec spaceBelow spaceAbove); [lia|discriminate].
  - rewrite D. destruct (Z.ltb_spec spaceBelow spaceAbove); [reflexivity|lia].
  - intros Eq. rewrite D. destruct (Z.ltb_spec spaceBelow spaceAbove); [lia|reflexivity].
  - intros b Hb. rewrite S. unfold expected_layout in Hb. cbn [layout_ask layout_listen] in Hb.
    destruct Hb as [Hb|Hb].
    + destruct (vis_ask vis && _); [|discriminate].
      destruct (pool !! "ask"); [|discriminate]. injection Hb as <-.
      unfold ask_rect, side_y. cbn [y height]. destruct (side hb disp); lia.
    + destruct (vis_listen vis && _); [|discriminate].
      destruct (pool !! "listen"); [|discriminate]. injection Hb as <-.
      unfold listen_rect, side_y. cbn [y height]. destruct (side hb disp); lia.
Qed.

(** C5. With ask and listen both visible, the two returned rectangles do not
    overlap: listen ends exactly 8px to the left of where ask begins,
    whichever side of the header the strategy picked. *)
Theorem ask_listen_disjoint_with_padding ov hb disp vis :
  header_frame scr pool ov hb disp →
  vis_ask vis = true → vis_listen vis = true →
  live pool "ask" = true → live pool "listen" = true →
  ∃ a l,
    calculateFeatureWindowLayout scr pool vis ov = Ok (mkLayout (Some a) (Some l))
    ∧ x l + width l + 8 = x a
    ∧ overlaps a l = false
    ∧ match side hb disp with
      | above => y a + height a = y hb - 8 ∧ y l + height l = y hb - 8
      | below => y a = y hb + height hb + 8 ∧ y l = y hb + height hb + 8
      end.
Proof.
  intros F Va Vl La Ll.
  apply live_inv in La as (a & Ea & Da). apply live_inv in Ll as (l & El & Dl).
  exists (ask_rect hb disp a), (listen_rect hb disp true l).
  split; [now apply layout_both|].
  unfold ask_rect, listen_rect, overlaps, side_y. cbn [x y width height].
  repeat split.
  - lia.
  - apply andb_false_intro1, andb_false_intro1, andb_false_intro1.
    apply Z.ltb_ge. lia.
  - destruct (side hb disp); lia.
Qed.

(** C6, as amended. Ask, whenever it is laid out, and listen, when it is laid
    out alone, have their horizontal centre on the header's centre rounded
    to a whole pixel (half up), that is at most half a pixel to its right;
    when both are laid out, listen is put to the left of the centred ask
    with the 8px gap. *)
Theorem feature_windows_centred_on_rounded_header_centre ov hb disp vis layout :
  header_frame scr pool ov hb disp →
  calculateFeatureWindowLayout scr pool vis ov = Ok layout →
  let centre := Math_round (inject_Z (x hb) + inject_Z (width hb) / 2)%Q in
  0 ≤ 2 * centre - (2 * x hb + width hb) ≤ 1
  ∧ (∀ a, layout_ask layout = Some a → x a + width a / 2 = centre)
  ∧ (∀ l, layout_listen layout = Some l → layout_ask layout = None →
          x l + width l / 2 = centre)
  ∧ (∀ a l, layout_ask layout = Some a → layout_listen layout = Some l →
            x l + width l + 8 = x a).
Proof.
  intros F E centre.
  rewrite (layout_closed_form scr pool ov hb disp vis F) in E. injection E as <-.
  assert (C : centre = header_centre_px hb).
  { unfold centre, header_centre_px.
    rewrite (Math_round_half_plus _ (width hb) (x hb)); [lia|]. ring. }
  unfold expected_layout. cbn [layout_ask layout_listen].
  rewrite C. unfold header_centre_px.
  split; [|repeat split].
  - pose proof (Z.div_mod (width hb + 1) 2 ltac:(lia)).
    pose proof (Z.mod_pos_bound (width hb + 1) 2 ltac:(lia)). lia.
  - intros a. destruct (vis_ask vis && _); [|discriminate].
    destruct (pool !! "ask"); [|discriminate]. intros [= <-].
    unfold ask_rect, header_centre_px. cbn [x width]. change (600 / 2) with 300. lia.
  - intros l. destruct (vis_ask vis && _) eqn:A.
    + apply andb_prop in A as [_ La]. apply live_inv in La as (a & -> & _).
      intros _ [=].
    + destruct (vis_listen vis && _); [|discriminate].
      destruct (pool !! "listen"); [|discriminate]. intros [= <-] _.
      unfold listen_rect, header_centre_px. cbn [x width]. change (400 / 2) with 200. lia.
  - intros a l. destruct (vis_ask vis && _); [|discriminate].
    destruct (pool !! "ask"); [|discriminate]. intros [= <-].
    destruct (vis_listen vis && _); [|discriminate].
    destruct (pool !! "listen"); [|discriminate]. intros [= <-].
    unfold ask_rect, listen_rect. cbn [x width]. lia.
Qed.

End LayoutClaims.

Lemma header_frame0 : header_frame screen0 pool0 None (bounds header0) display0.
Proof. exists header0. repeat split; reflexivity. Qed.

Lemma layout_width_is_nominal_witness :
  ∃ layout a l,
    calculateFeatureWindowLayout screen0 pool0 (mkVis true true) None = Ok layout
    ∧ layout_ask layout = Some a ∧ width a = 600
    ∧ layout_listen layout = Some l ∧ width l = 400.
Proof.
  destruct (layout_width_is_nominal screen0 pool0 None (bounds header0) display0
              (mkVis true true))
    as (layout & E & A & L & _).
  - exists header0. repeat split; reflexivity.
  - destruct A as (a & Ea & Wa); [reflexivity | vm_compute; reflexivity |].
    destruct L as (l & El & Wl); [reflexivity | vm_compute; reflexivity |].
    exists layout, a, l. auto.
Defined.

Lemma strategy_above_iff_more_space_above_witness :
  determineLayoutStrategy (bounds header_mid) 1920 1080 0 0 0 0 = below.
Proof.
  destruct (strategy_above_iff_more_space_above screen0 pool_mid None (bounds header_mid)
              display0 (mkVis true false)
              (mkLayout (Some (mkRect 661 572 600 300)) None) 0%Q 0%Q)
    as (_ & Tie & _).
  - exists header_mid. repeat split; reflexivity.
  - vm_compute. reflexivity.
  - apply Tie. reflexivity.
Defined.

Lemma ask_listen_disjoint_with_padding_witness :
  ∃ a l,
    calculateFeatureWindowLayout screen0 pool0 (mkVis true true) None
    = Ok (mkLayout (Some a) (Some l))
    ∧ x l + width l + 8 = x a ∧ overlaps a l = false.
Proof.
  destruct (ask_listen_disjoint_with_padding screen0 pool0 None (bounds header0) display0
              (mkVis true true))
    as (a & l & E & G & O & _).
  - exists header0. repeat split; reflexivity.
  - reflexivity.
  - reflexivity.
  - vm_compute. reflexivity.
  - vm_compute. reflexivity.
  - exists a, l. auto.
Defined.

Lemma feature_windows_centred_on_rounded_header_centre_witness :
  x (mkRect 661 76 600 300) + width (mkRect 661 76 600 300) / 2
  = Math_round (inject_Z 784 + inject_Z 353 / 2)%Q.
Proof.
  destruct (feature_windows_centred_on_rounded_header_centre screen0 pool0 None
              (bounds header0) display0 (mkVis true false)
              (mkLayout (Some (mkRect 661 76 600 300)) None))
    as (_ & A & _).
  - exists header0. repeat split; reflexivity.
  - vm_compute. reflexivity.
  - exact (A _ eq_refl).
Defined.

(** C6 as stated fails. With the 353px header at x = 784 (centre 960.5), ask
    alone is centred on 961, and with both windows laid out the span from
    listen's left edge to ask's right edge is centred on 757. *)
Lemma centring_counterexample :
  (∃ a, calculateFeatureWindowLayout screen0 pool0 (mkVis true false) None
        = Ok (mkLayout (Some a) None)
        ∧ 2 * x a + width a ≠ 2 * x (bounds header0) + width (bounds header0))
  ∧ (∃ a l, calculateFeatureWindowLayout screen0 pool0 (mkVis true true) None
            = Ok (mkLayout (Some a) (Some l))
            ∧ x l + (x a + width a) ≠ 2 * x (bounds header0) + width (bounds header0)
            ∧ x l + (x a + width a) + 1 ≠ 2 * x (bounds header0) + width (bounds header0)).
Proof.
  split.
  - exists (mkRect 661 76 600 300). split; [vm_compute; reflexivity|]. vm_compute. discriminate.
  - exists (mkRect 661 76 600 300), (mkRect 253 76 400 100).
    split; [vm_compute; reflexivity|]. split; vm_compute; discriminate.
Qed.

(** ** Missing and destroyed windows *)

Section MissingWindows.
Variable scr : Screen.
Variable pool : gmap string BrowserWindow.

Lemma live_gone name : gone (pool !! name) → live pool name = false.
Proof.
  unfold gone, live, isDestroyed. destruct (pool !! name); [|reflexivity].
  now intros ->.
Qed.

(** The calculators that guard with [isDestroyed] answer [null]. *)
Lemma guarded_calculators_return_null (w : option BrowserWindow) :
  gone w →
  (∀ wd ht, calculateHeaderResize w wd ht = Ok None)
  ∧ (∀ d, calculateStepMovePosition w d = Ok None)
  ∧ (∀ d, calculateEdgePosition scr w d = Ok None)
  ∧ (∀ i, calculateNewPositionForDisplay scr w i = Ok None)
  ∧ (∀ t, calculateWindowHeightAdjustment w t = Ok None).
Proof.
  destruct w as [w|]; cbn.
  - intros D.
    unfold calculateHeaderResize, calculateStepMovePosition, calculateEdgePosition,
      calculateNewPositionForDisplay, calculateWindowHeightAdjustment, isDestroyed.
    rewrite D. repeat split.
  - intros _. repeat split.
Qed.

Lemma calculateNewPositionForDisplay_unknown_display w i :
  List.find (fun d => display_id d =? i) (getAllDisplays scr) = None →
  calculateNewPositionForDisplay scr w i = Ok None.
Proof.
  intros E. unfold calculateNewPositionForDisplay. rewrite E.
  destruct w as [w|]; [|reflexivity]. destruct (isDestroyed w); reflexivity.
Qed.

Lemma calculateSettingsWindowPosition_null :
  gone (pool !! "header") ∨ gone (pool !! "settings") →
  calculateSettingsWindowPosition pool = Ok None.
Proof.
  unfold calculateSettingsWindowPosition.
  intros [G|G]; rewrite (live_gone _ G); [reflexivity|].
  rewrite orb_true_r. reflexivity.
Qed.

Lemma calculateFeatureWindowLayout_missing_header vis :
  pool !! "header" = None →
  calculateFeatureWindowLayout scr pool vis None = Ok empty_layout.
Proof. apply layout_no_header. Qed.

(** [calculateShortcutSettingsWindowPosition] only tests that the two
    windows are registered. *)
Lemma calculateShortcutSettingsWindowPosition_destroyed_window h s :
  pool !! "header" = Some h → destroyed h = false →
  pool !! "shortcut-settings" = Some s → destroyed s = true →
  calculateShortcutSettingsWindowPosition pool
  = Throw (TypeError "Cannot read properties of null").
Proof.
  intros Eh Dh Es Ds.
  unfold calculateShortcutSettingsWindowPosition, getWindowDimensions, getBounds, alive,
    isDestroyed.
  rewrite Eh, Es, Dh, Ds. reflexivity.
Qed.

Lemma calculateShortcutSettingsWindowPosition_destroyed_header h s :
  pool !! "header" = Some h → destroyed h = true →
  pool !! "shortcut-settings" = Some s →
  calculateShortcutSettingsWindowPosition pool
  = Throw (TypeError "Object has been destroyed").
Proof.
  intros Eh Dh Es.
  unfold calculateShortcutSettingsWindowPosition, getBounds, alive.
  rewrite Eh, Es, Dh. reflexivity.
Qed.

Lemma calculateFeatureWindowLayout_destroyed_header vis h :
  pool !! "header" = Some h → destroyed h = true →
  calculateFeatureWindowLayout scr pool vis None
  = Throw (TypeError "Object has been destroyed").
Proof.
  intros Eh Dh. unfold calculateFeatureWindowLayout, getBounds, alive.
  rewrite Eh, Dh. reflexivity.
Qed.

End MissingWindows.

(** C2 fails on the code. With a live header and a destroyed shortcut-settings
    window in the pool, [calculateShortcutSettingsWindowPosition] throws where
    [calculateSettingsWindowPosition] in the same situation returns null; with
    a destroyed header in the pool [calculateFeatureWindowLayout] throws too. *)
Theorem shortcut_settings_position_throws :
  calculateShortcutSettingsWindowPosition pool_dead_shortcut
  = Throw (TypeError "Cannot read properties of null")
  ∧ calculateSettingsWindowPosition
      (<["settings" := gone0 (mkRect 0 0 240 400)]> pool_dead_shortcut) = Ok None
  ∧ calculateFeatureWindowLayout screen0 pool_dead_header (mkVis true false) None
    = Throw (TypeError "Object has been destroyed").
Proof. repeat split; vm_compute; reflexivity. Qed.

(** On its live path [calculateNewPositionForDisplay] works in doubles. A
    window 42 pixels into the 1920 pixels of the right-hand display goes to
    [1440 * (42 / 1920)] on the left-hand one, which is 31.499999999999996
    in doubles and is rounded to 31, where 31.5 would be rounded to 32; the
    21 pixels of 1080 go to 17.5 of 900, rounded to 18. *)
Example calculateNewPositionForDisplay_in_doubles :
  calculateNewPositionForDisplay screen_two (Some (window0 (mkRect 1482 21 353 47))) 2
  = Ok (Some (of_Z 31, of_Z 18)).
Proof. vm_compute. reflexivity. Qed.

(** A window on a display whose work area is empty is sent to
    [Infinity] and [NaN]: the division by the zero width and height is not
    guarded. *)
Example calculateNewPositionForDisplay_empty_work_area :
  calculateNewPositionForDisplay screen_empty (Some (window0 (mkRect 42 0 353 47))) 2
  = Ok (Some (S754_infinity false, S754_nan)).
Proof. vm_compute. reflexivity. Qed.

(** ** Visibility requests *)

Section Visibility.
Variable scr : Screen.

(** C9. A visibility request for a missing or destroyed window, or for a
    window other than settings that already has the requested visibility,
    returns leaving the pool (every window's bounds, opacity, always-on-top
    flag and mouse-event state), the timers and the movement manager as
    they were. *)
Theorem visibility_request_no_op (st : State) (name : string) (shouldBeVisible : bool) :
  no_op_request st name shouldBeVisible →
  handleWindowVisibilityRequest scr st name shouldBeVisible = Ok st.
Proof.
  unfold no_op_request, handleWindowVisibilityRequest.
  destruct (windowPool st !! name) as [win|]; [|reflexivity].
  unfold isDestroyed, isVisible, alive.
  intros [D | [N V]].
  - rewrite D. reflexivity.
  - destruct (destroyed win); [reflexivity|].
    apply String.eqb_neq in N. rewrite N, V. cbn.
    rewrite Bool.eqb_reflx. reflexivity.
Qed.

End Visibility.

(** ** Toggling all windows *)

Section ToggleAll.

Lemma lookup_foldl_alter (F : string → BrowserWindow → BrowserWindow)
    (names : list string) (pool : gmap string BrowserWindow) (k : string) :
  (∀ n w, F n (F n w) = F n w) →
  foldl (fun p n => alter (F n) n p) pool names !! k
  = (if bool_decide (k ∈ names) then F k else id) <$> pool !! k.
Proof.
  intros Idem. revert pool.
  induction names as [|a names IH]; intros pool; cbn [foldl].
  - destruct (pool !! k); reflexivity.
  - rewrite IH. destruct (decide (k = a)) as [->|Hne].
    + rewrite lookup_alter_eq, (bool_decide_eq_true_2 (a ∈ a :: names)) by left.
      destruct (pool !! a) as [w|]; cbn; [|reflexivity].
      case_bool_decide; cbn; [rewrite Idem|]; reflexivity.
    + rewrite lookup_alter_ne by congruence.
      assert (E : bool_decide (k ∈ a :: names) = bool_decide (k ∈ names)).
      { apply bool_decide_ext. rewrite elem_of_cons. tauto. }
      rewrite E. reflexivity.
Qed.

Lemma elem_of_visible_names (pool : gmap string BrowserWindow) (name : string) :
  name ∈ visible_names pool
  ↔ ∃ w, pool !! name = Some w ∧ destroyed w = false ∧ visible w = true.
Proof.
  unfold visible_names. rewrite list_elem_of_fmap. split.
  - intros ([n w] & -> & H). apply list_elem_of_filter in H as [P H].
    apply elem_of_map_to_list in H. cbn in *. exists w.
    apply andb_prop in P as [D V]. unfold isDestroyed in D.
    destruct (destroyed w); [discriminate|]. auto.
  - intros (w & E & D & V). exists (name, w). split; [reflexivity|].
    apply list_elem_of_filter. split.
    + cbn. unfold isDestroyed. rewrite D, V. reflexivity.
    + now apply elem_of_map_to_list.
Qed.

Lemma hide_loop_alter (names : list string) (pool : gmap string BrowserWindow) :
  foldl (fun pool name => if String.eqb name "header" then pool else on_live hide name pool)
    pool names
  = foldl (fun p n => alter (hide_recorded n) n p) pool names.
Proof.
  revert pool. induction names as [|a names IH]; intros pool; cbn [foldl]; [reflexivity|].
  rewrite <- IH. f_equal. unfold hide_recorded, on_live.
  destruct (String.eqb a "header"); [|reflexivity].
  symmetry. now apply alter_id.
Qed.

Lemma hide_recorded_idem n w : hide_recorded n (hide_recorded n w) = hide_recorded n w.
Proof.
  unfold hide_recorded, isDestroyed. destruct (String.eqb n "header"); [reflexivity|].
  destruct (destroyed w) eqn:D; [now rewrite D|]. cbn. rewrite D. reflexivity.
Qed.

Lemma show_recorded_idem (n : string) w : show_recorded n (show_recorded n w) = show_recorded n w.
Proof.
  unfold show_recorded, isDestroyed.
  destruct (destroyed w) eqn:D; [now rewrite D|]. cbn. rewrite D. reflexivity.
Qed.

Lemma show_hide (w : BrowserWindow) : visible w = true → showInactive (hide w) = w.
Proof. destruct w. cbn. now intros ->. Qed.

Variable st : State.
Variable header : BrowserWindow.
Hypothesis header_registered : windowPool st !! "header" = Some header.
Hypothesis header_live : destroyed header = false.

Lemma hide_all_pool :
  visible header = true →
  alter hide "header"
    (foldl (fun pool name => if String.eqb name "header" then pool else on_live hide name pool)
       (windowPool st) (visible_names (windowPool st)))
  = all_hidden (windowPool st).
Proof.
  intros V. apply map_eq. intros k. unfold all_hidden.
  rewrite hide_loop_alter, lookup_fmap.
  destruct (decide (k = "header")) as [->|Hne].
  - rewrite lookup_alter_eq, lookup_foldl_alter by apply hide_recorded_idem.
    rewrite header_registered. cbn. rewrite header_live, V. cbn.
    case_bool_decide; reflexivity.
  - rewrite lookup_alter_ne, lookup_foldl_alter by (apply hide_recorded_idem || congruence).
    destruct (windowPool st !! k) as [w|] eqn:E; [|reflexivity]. cbn. f_equal.
    apply String.eqb_neq in Hne. unfold hide_recorded, isDestroyed. rewrite Hne.
    case_bool_decide as In.
    + apply elem_of_visible_names in In as (w' & E' & D & Vw).
      rewrite E in E'. injection E' as <-. rewrite D, Vw. reflexivity.
    + destruct (destroyed w) eqn:D; [reflexivity|].
      destruct (visible w) eqn:Vw; [|reflexivity].
      exfalso. apply In, elem_of_visible_names. eauto.
Qed.

Lemma show_loop_pool (names : list string) (pool : gmap string BrowserWindow) :
  foldl (fun pool name => on_live showInactive name pool) pool names
  = shown_exactly names pool.
Proof.
  apply map_eq. intros k. unfold shown_exactly, on_live.
  rewrite (lookup_foldl_alter show_recorded) by apply show_recorded_idem.
  rewrite map_lookup_imap. destruct (pool !! k) as [w|]; [|reflexivity]. cbn.
  unfold show_recorded, isDestroyed.
  case_bool_decide; destruct (destroyed w); reflexivity.
Qed.

Lemma shown_again :
  shown_exactly (visible_names (windowPool st)) (all_hidden (windowPool st)) = windowPool st.
Proof.
  apply map_eq. intros k. unfold shown_exactly, all_hidden.
  rewrite map_lookup_imap, lookup_fmap.
  destruct (windowPool st !! k) as [w|] eqn:E; [|reflexivity]. cbn. f_equal.
  case_bool_decide as In.
  - apply elem_of_visible_names in In as (w' & E' & D & Vw).
    rewrite E in E'. injection E' as <-. rewrite D, Vw. cbn. rewrite D. cbn.
    now apply show_hide.
  - cbn. destruct (destroyed w) eqn:D; [reflexivity|].
    destruct (visible w) eqn:Vw; [|reflexivity].
    exfalso. apply In, elem_of_visible_names. eauto.
Qed.

(** C10. With the header visible a call records exactly the live, visible
    pool windows and hides them all; the next call shows exactly the
    recorded windows, which restores the pool; and a call with the boolean
    the header's visibility already has changes nothing. *)
Theorem toggle_all_round_trip (targetVisibility : option bool) :
  (visible header = true → targetVisibility ≠ Some true →
   ∃ st1,
     changeAllWindowsVisibility st targetVisibility = Ok st1
     ∧ (∀ name, name ∈ lastVisibleWindows st1
                ↔ ∃ w, windowPool st !! name = Some w
                       ∧ destroyed w = false ∧ visible w = true)
     ∧ windowPool st1 = all_hidden (windowPool st)
     ∧ ∀ targetVisibility', targetVisibility' ≠ Some false →
         ∃ st2,
           changeAllWindowsVisibility st1 targetVisibility' = Ok st2
           ∧ windowPool st2 = shown_exactly (lastVisibleWindows st1) (windowPool st1)
           ∧ st2 = with_lastVisibleWindows (lastVisibleWindows st1) st)
  ∧ changeAllWindowsVisibility st (Some (visible header)) = Ok st.
Proof.
  split.
  - intros V T.
    exists (with_pool (all_hidden (windowPool st))
              (with_lastVisibleWindows (visible_names (windowPool st)) st)).
    split; [|split; [|split]].
    + unfold changeAllWindowsVisibility, isVisible, alive.
      rewrite header_registered, header_live, V. cbn [JS.bind].
      destruct targetVisibility as [[|]|]; [congruence| |];
        cbn [Bool.eqb]; now rewrite (hide_all_pool V).
    + intros name. apply elem_of_visible_names.
    + reflexivity.
    + intros tv' T'. cbn [lastVisibleWindows windowPool with_pool with_lastVisibleWindows].
      exists (with_lastVisibleWindows (visible_names (windowPool st)) st).
      split; [|split].
      * unfold changeAllWindowsVisibility, isVisible, alive.
        cbn [lastVisibleWindows windowPool with_pool with_lastVisibleWindows].
        unfold all_hidden at 1. rewrite lookup_fmap, header_registered. cbn.
        rewrite header_live, V. cbn.
        rewrite header_live. cbn [JS.bind].
        destruct tv' as [[|]|]; [| congruence |]; cbn [Bool.eqb];
          rewrite show_loop_pool, shown_again; destruct st; reflexivity.
      * cbn. now rewrite shown_again.
      * reflexivity.
  - unfold changeAllWindowsVisibility, isVisible, alive.
    rewrite header_registered, header_live. cbn. rewrite Bool.eqb_reflx. reflexivity.
Qed.

End ToggleAll.

Lemma visibility_request_no_op_witness :
  handleWindowVisibilityRequest screen0 (initial pool0) "ask" true = Ok (initial pool0).
Proof.
  apply (visibility_request_no_op screen0 (initial pool0) "ask" true).
  unfold no_op_request. vm_compute. right. split; [discriminate|reflexivity].
Defined.

(** A request that does change the visibility is not a no-op: showing the
    hidden ask window moves it 20px above its target, shows it on top with
    opacity 0, and hands the fade and the layout to the movement manager. *)
Example visibility_request_show_ask :
  handleWindowVisibilityRequest screen0 (initial pool_ask_hidden) "ask" true
  = Ok (issue [fade "ask" 1 false;
               animateLayout (mkLayout (Some (mkRect 661 76 600 300)) None)]
          (with_pool
             (<["ask" := mkWin false (mkRect 661 56 600 300) true false 0%Q true
                               false false false]> pool_ask_hidden)
             (initial pool_ask_hidden))).
Proof. vm_compute. reflexivity. Qed.

Lemma toggle_all_round_trip_witness :
  (∃ st1 st2,
     changeAllWindowsVisibility (initial pool0) None = Ok st1
     ∧ windowPool st1 = all_hidden pool0
     ∧ changeAllWindowsVisibility st1 None = Ok st2
     ∧ windowPool st2 = pool0)
  ∧ changeAllWindowsVisibility (initial pool0) (Some true) = Ok (initial pool0).
Proof.
  destruct (toggle_all_round_trip (initial pool0) header0 eq_refl eq_refl None) as [R N].
  split; [|exact N].
  destruct R as (st1 & E1 & _ & P1 & R); [reflexivity | discriminate |].
  destruct (R None) as (st2 & E2 & _ & ->); [discriminate|].
  exists st1, (with_lastVisibleWindows (lastVisibleWindows st1) (initial pool0)).
  repeat split; assumption.
Defined.

(** ** The focus toggle *)

Lemma aggressive_focus_mode_not_read (e : Event) (enabled : bool) (st : State) :
  on_event e (setAggressiveFocusMode enabled st)
  = setAggressiveFocusMode enabled (on_event e st).
Proof.
  destruct e as [| | | | |t]; cbn.
  - destruct (windowPool st !! "header") as [h|]; [|reflexivity].
    destruct (visible h && alwaysOnTop h); reflexivity.
  - reflexivity.
  - reflexivity.
  - unfold header_shown. cbn. destruct (windowPool st !! "header") as [h|]; [|reflexivity].
    destruct (visible h && negb (isDestroyed h)); reflexivity.
  - unfold header_shown. cbn. destruct (windowPool st !! "header") as [h|]; [|reflexivity].
    destruct (visible h && negb (isDestroyed h)); reflexivity.
  - destruct t; cbn.
    + destruct (focusedWindow st); reflexivity.
    + unfold header_shown. cbn. destruct (windowPool st !! "header") as [h|]; [|reflexivity].
      destruct (visible h && negb (isDestroyed h)); reflexivity.
    + unfold header_shown. cbn. destruct (windowPool st !! "header") as [h|]; [|reflexivity].
      destruct (visible h && negb (isDestroyed h)); reflexivity.
    + reflexivity.
    + unfold focusRestoreTimer_fires. cbn.
      destruct (windowPool st !! "header") as [h|]; [|reflexivity].
      destruct (negb (isDestroyed h) && negb (focused h) && visible h && shouldMaintainFocus st);
        [|reflexivity].
      unfold isOtherAppActive. cbn. destruct (focusedWindow st); reflexivity.
Qed.

(** Whatever the toggle is set to, the focus handlers run the same way. *)
Lemma run_setAggressiveFocusMode (es : list Event) (enabled : bool) (st : State) :
  run es (setAggressiveFocusMode enabled st) = setAggressiveFocusMode enabled (run es st).
Proof.
  revert st. induction es as [|e es IH]; intros st; [reflexivity|].
  unfold run in *. cbn [foldl]. rewrite aggressive_focus_mode_not_read. apply IH.
Qed.

(** Only the focus handler of a recreated window reads the toggle. *)
Lemma recreated_window_focus_off (name : string) (st : State) :
  recreated_window_focus name (setAggressiveFocusMode false st)
  = setAggressiveFocusMode false st.
Proof. reflexivity. Qed.

(** C7 fails on the code. After [setAggressiveFocusMode(false)], a resume
    from sleep still puts the visible, unfocused header back on top and
    focuses it, and so does a blur that leaves no window of the application
    focused. *)
Theorem focus_contested_with_aggressive_mode_off :
  let off := setAggressiveFocusMode false (initial pool_plain) in
  let st := run [resume; timeout ResumeCheck; timeout FocusRestore] off in
  let st' := run [blur; timeout BlurCheck; timeout FocusRestore]
               (setAggressiveFocusMode false (initial pool_unfocused)) in
  aggressiveFocusMode st = false
  ∧ windowPool st !! "header" = Some (set_focused true (set_alwaysOnTop true header_plain))
  ∧ focusedWindow st = PoolWindow "header"
  ∧ aggressiveFocusMode st' = false
  ∧ focused <$> windowPool st' !! "header" = Some true.
Proof. vm_compute. repeat split. Qed.
(** ** Crash recovery *)

Section CrashRecovery.
Import CrashRecoveryManager CrashView.

Lemma fired_other (w w' c : string) (l : list (Ticket * Z)) :
  w' ≠ w →
  filter (fun td : Ticket * Z => td.1.1 = w) (fired (w', c) l)
  = filter (fun td : Ticket * Z => td.1.1 = w) l.
Proof.
  intros Hne. induction l as [|[[n k] d] l IH]; [reflexivity|]. cbn [fired fst snd].
  destruct (String.eqb w' n && String.eqb c k) eqn:E.
  - apply andb_prop in E as [En _]. apply String.eqb_eq in En. subst n.
    rewrite filter_cons_False; [reflexivity|]. cbn. congruence.
  - rewrite !filter_cons. cbn. case_decide; [f_equal|]; exact IH.
Qed.

Lemma fired_same (w c : string) (l : list (Ticket * Z)) :
  filter (fun td : Ticket * Z => td.1.1 = w) (fired (w, c) l)
  = fired (w, c) (filter (fun td : Ticket * Z => td.1.1 = w) l).
Proof.
  induction l as [|[[n k] d] l IH]; [reflexivity|]. cbn [fired fst snd].
  destruct (String.eqb w n && String.eqb c k) eqn:E.
  - apply andb_prop in E as [En Ek]. pose proof En as En'. apply String.eqb_eq in En'.
    subst n. rewrite filter_cons_True by reflexivity. cbn [fired fst snd].
    rewrite En, Ek. reflexivity.
  - rewrite !filter_cons. cbn [fst snd]. case_decide as D.
    + subst n. cbn [fired fst snd]. rewrite E. f_equal. exact IH.
    + exact IH.
Qed.

Lemma view_step_other (w : string) (st : State) (e : Event) :
  window_of e ≠ w → view w (step st e) = view w st.
Proof.
  intros Hne. destruct e as [w' c | w' c ok]; cbn in Hne; cbn [step].
  - unfold handleRendererCrash. destruct (isShuttingDown st); [reflexivity|].
    destruct (_ <? _)%nat; unfold view, pending_for, dialogs_for; cbn.
    + rewrite lookup_insert_ne by congruence. rewrite filter_app.
      rewrite (filter_cons_False _ _ []) by (cbn; congruence).
      rewrite filter_nil, app_nil_r. reflexivity.
    + rewrite filter_app, (filter_cons_False _ _ []) by (cbn; congruence).
      rewrite filter_nil, app_nil_r. reflexivity.
  - unfold attemptWindowRecovery. destruct ok.
    + unfold view, pending_for, dialogs_for; cbn.
      rewrite lookup_delete_ne by congruence. now rewrite fired_other.
    + destruct (_ <? _)%nat; unfold view, pending_for, dialogs_for, attempts_of; cbn.
      * rewrite lookup_insert_ne by congruence. rewrite filter_app, fired_other by congruence.
        rewrite (filter_cons_False _ _ []) by (cbn; congruence).
        rewrite filter_nil, app_nil_r. reflexivity.
      * rewrite fired_other by congruence.
        rewrite filter_app, (filter_cons_False _ _ []) by (cbn; congruence).
        rewrite filter_nil, app_nil_r. reflexivity.
Qed.

Lemma view_step_same (w : string) (st : State) (e : Event) :
  window_of e = w → view w (step st e) = view_step (view w st) e.
Proof.
  intros <-. destruct e as [w c | w c ok]; cbn [step window_of view_step].
  - unfold handleRendererCrash, attempts_of. unfold view at 2.
    cbn [v_shutting v_attempts v_pending v_dialogs].
    destruct (isShuttingDown st) eqn:S; [reflexivity|].
    destruct (_ <? _)%nat; unfold view, pending_for, dialogs_for; cbn.
    + rewrite lookup_insert_eq, filter_app, (filter_cons_True _ _ []) by reflexivity.
      rewrite filter_nil, S. reflexivity.
    + rewrite filter_app, (filter_cons_True _ _ []) by reflexivity.
      rewrite filter_nil, S. reflexivity.
  - unfold attemptWindowRecovery, attempts_of. unfold view at 2.
    cbn [v_shutting v_attempts v_pending v_dialogs recoveryAttempts]. destruct ok.
    + unfold view, pending_for, dialogs_for; cbn.
      rewrite lookup_delete_eq, fired_same. reflexivity.
    + destruct (_ <? _)%nat; unfold view, pending_for, dialogs_for; cbn.
      * rewrite lookup_insert_eq, filter_app, fired_same,
          (filter_cons_True _ _ []) by reflexivity.
        rewrite filter_nil. reflexivity.
      * rewrite fired_same, filter_app, (filter_cons_True _ _ []) by reflexivity.
        rewrite filter_nil. reflexivity.
Qed.

(** Events of other windows do not show in the view of [w]. *)
Lemma view_run (w : string) (es : list Event) (st : State) :
  view w (run st es)
  = foldl view_step (view w st) (filter (fun e => window_of e = w) es).
Proof.
  revert st. induction es as [|e es IH]; intros st; [reflexivity|].
  unfold run in *. cbn [foldl]. rewrite IH, filter_cons. case_decide as D.
  - cbn [foldl]. now rewrite view_step_same.
  - now rewrite view_step_other.
Qed.

(** One crash sequence on its own. A window with no recovery in progress
    crashes, and its recovery attempts fail one after the other, while other
    windows crash and recover at will. After the crash and after each of the
    first two failures one attempt is waiting and no dialog was shown; after
    the third failure no attempt is waiting and the crash dialog was shown
    exactly once. *)
Theorem recovery_gives_up_after_three_failures
    (st : State) (w c : string) (k : nat) (es : list Event) :
  isShuttingDown st = false →
  recoveryAttempts st !! w = None →
  pending_for w st = [] →
  filter (fun e => window_of e = w) es = crash w c :: replicate k (attempt w c false) →
  (k ≤ maxRecoveryAttempts)%nat →
  pending_for w (run st es)
  = (if (k <? maxRecoveryAttempts)%nat
     then [((w, c), if (k =? 0)%nat then 1000 else 2000)] else [])
  ∧ dialogs_for w (run st es)
    = dialogs_for w st ++ (if (k <? maxRecoveryAttempts)%nat then [] else [(w, c)])
  ∧ recoveryAttempts (run st es) !! w = Some (Nat.min (k + 1) maxRecoveryAttempts).
Proof.
  intros S A P F K.
  pose proof (view_run w es st) as V. rewrite F in V.
  unfold view at 2 in V. rewrite S, A, P in V.
  assert (R : ∀ v, view w (run st es) = v →
              pending_for w (run st es) = v_pending v
              ∧ dialogs_for w (run st es) = v_dialogs v
              ∧ recoveryAttempts (run st es) !! w = v_attempts v).
  { intros v <-. repeat split. }
  unfold maxRecoveryAttempts in K.
  destruct k as [|[|[|[|k]]]]; [| | | |lia];
    cbn in V; rewrite ?String.eqb_refl in V; cbn in V;
    rewrite ?String.eqb_refl in V; cbn in V; rewrite ?String.eqb_refl in V; cbn in V;
    apply R in V; cbn in V; rewrite ?app_nil_r; exact V.
Qed.

Lemma recovery_gives_up_after_three_failures_witness :
  pending_for "ask"
    (run initial [crash "ask" "ask-1"; crash "listen" "listen-2";
                  attempt "ask" "ask-1" false; attempt "listen" "listen-2" true;
                  attempt "ask" "ask-1" false; attempt "ask" "ask-1" false]) = []
  ∧ dialogs_for "ask"
      (run initial [crash "ask" "ask-1"; crash "listen" "listen-2";
                    attempt "ask" "ask-1" false; attempt "listen" "listen-2" true;
                    attempt "ask" "ask-1" false; attempt "ask" "ask-1" false])
    = [("ask", "ask-1")].
Proof.
  destruct (recovery_gives_up_after_three_failures initial "ask" "ask-1" 3
              [crash "ask" "ask-1"; crash "listen" "listen-2";
               attempt "ask" "ask-1" false; attempt "listen" "listen-2" true;
               attempt "ask" "ask-1" false; attempt "ask" "ask-1" false])
    as (P & D & _).
  - reflexivity.
  - reflexivity.
  - reflexivity.
  - vm_compute. reflexivity.
  - vm_compute. lia.
  - split; [exact P | exact D].
Defined.

(** Once the dialog was shown the counter stays at the cap: a later crash
    of the window shows the dialog at once and schedules nothing. *)
Lemma crash_at_cap (st : State) (w c : string) :
  isShuttingDown st = false →
  recoveryAttempts st !! w = Some maxRecoveryAttempts →
  handleRendererCrash w c st = showCrashDialog w c st.
Proof.
  intros S A. unfold handleRendererCrash, attempts_of. rewrite S, A. reflexivity.
Qed.

(** C3. The counter is kept per window name, and a successful recreation
    deletes it. Two crashes of "ask" are reported before the first recovery
    attempt runs; the attempt for the first crash recreates the window and
    so clears the counter the second sequence relies on. The attempts for
    the second crash then fail three times in a row, and after the third
    failure a fourth attempt is waiting and no dialog was shown: only the
    fourth failure shows it. *)
Theorem overlapping_recoveries_pass_the_limit :
  let es := [crash "ask" "ask-1"; crash "ask" "ask-2"; attempt "ask" "ask-1" true;
             attempt "ask" "ask-2" false; attempt "ask" "ask-2" false;
             attempt "ask" "ask-2" false] in
  pending_for "ask" (run initial es) = [(("ask", "ask-2"), 2000)]
  ∧ dialogs_for "ask" (run initial es) = []
  ∧ recoveryAttempts (run initial es) !! "ask" = Some maxRecoveryAttempts
  ∧ pending_for "ask" (run initial (es ++ [attempt "ask" "ask-2" false])) = []
  ∧ dialogs_for "ask" (run initial (es ++ [attempt "ask" "ask-2" false]))
    = [("ask", "ask-2")].
Proof. vm_compute. repeat split. Qed.

(** A successful attempt clears the counter: the next crash starts again
    with the 1000ms delay of a first attempt. *)
Lemma recovery_resets_counter (st : State) (w c c' : string) :
  isShuttingDown st = false →
  handleRendererCrash w c' (attemptWindowRecovery w c true st)
  = schedule w c' 1000 (set_attempts w 1 (attemptWindowRecovery w c true st)).
Proof.
  intros S. unfold handleRendererCrash, attempts_of, attemptWindowRecovery. cbn.
  rewrite S, lookup_delete_eq. reflexivity.
Qed.

End CrashRecovery.

(** ** Content-fit resize requests *)

Section ContentFit.
Import AskView AskViewInvariant.

Lemma consistent_initial (api0 : bool) : consistent api0 (initial api0).
Proof. split; reflexivity. Qed.

(** A direct adjustment sends at most one request, fitted to the content,
    and leaves the throttle alone. *)
Lemma adjustWindowHeight_sent (dom : Dom) (st : State) :
  ∃ reqs : list Request,
    sent (adjustWindowHeight dom st) = sent st ++ reqs
    ∧ (length reqs ≤ 1)%nat
    ∧ (∀ r, r ∈ reqs → fits_content dom r)
    ∧ (api st = true → is_Some (response_header dom) →
       is_Some (response_container dom) → length reqs = 1%nat)
    ∧ api (adjustWindowHeight dom st) = api st
    ∧ isThrottled (adjustWindowHeight dom st) = isThrottled st
    ∧ animationFrames (adjustWindowHeight dom st) = animationFrames st
    ∧ timers (adjustWindowHeight dom st) = timers st.
Proof.
  unfold adjustWindowHeight, idealHeight.
  destruct (api st) eqn:A; cbn [negb].
  - destruct (response_header dom) as [headerEl|] eqn:H.
    + destruct (response_container dom) as [responseEl|] eqn:R.
      * eexists. split; [reflexivity|]. cbn [sent api isThrottled animationFrames timers].
        split; [cbn; lia|]. split; [|auto].
        intros r ->%list_elem_of_singleton. exists headerEl, responseEl.
        rewrite H, R. split; [reflexivity|]. split; [reflexivity|].
        unfold region_height.
        destruct (ai_response_container dom), (text_input_container dom); reflexivity.
      * exists []. rewrite app_nil_r. split; [reflexivity|]. split; [cbn; lia|].
        split; [intros r I; inversion I|]. split; [|auto].
        intros _ _ [? [=]].
    + exists []. rewrite app_nil_r. split; [reflexivity|]. split; [cbn; lia|].
      split; [intros r I; inversion I|]. split; [|auto].
      intros _ [? [=]].
  - exists []. rewrite app_nil_r. split; [reflexivity|]. split; [cbn; lia|].
    split; [intros r I; inversion I|]. split; [|auto].
    intros [=].
Qed.

Lemma resize_observed_throttle (entries : list Q) (innerHeight : Z) (st : State) :
  api (resize_observed entries innerHeight st) = api st
  ∧ isThrottled (resize_observed entries innerHeight st) = isThrottled st
  ∧ animationFrames (resize_observed entries innerHeight st) = animationFrames st
  ∧ timers (resize_observed entries innerHeight st) = timers st.
Proof.
  unfold resize_observed. revert st.
  induction entries as [|needed entries IH]; intros st; [auto|]. cbn [foldl].
  destruct (IH (if Qle_bool needed (inject_Z (innerHeight - 4)) then st
                else requestWindowResize (Qceiling needed) st)) as (A & T & F & M).
  rewrite A, T, F, M. unfold requestWindowResize.
  destruct (Qle_bool _ _); [repeat split|].
  destruct (api st) eqn:E; cbn; rewrite ?E; repeat split.
Qed.

(** Only a render pass throttles the view, and only a frame releases it. *)
Lemma step_throttle (st : State) (e : Event) :
  is_frame e = false →
  isThrottled (step st e) = isThrottled st || is_render_pass e.
Proof.
  destruct e as [|dom| |dom|entries innerHeight]; cbn [step is_frame is_render_pass];
    intros F; try discriminate.
  - unfold adjustWindowHeightThrottled. destruct (isThrottled st) eqn:T; cbn; auto.
  - rewrite orb_false_r. reflexivity.
  - rewrite orb_false_r. unfold timer_fires. destruct (timers st); [reflexivity|].
    match goal with |- context [adjustWindowHeight dom ?s] =>
      destruct (adjustWindowHeight_sent dom s) as (_ & _ & _ & _ & _ & _ & T & _) end.
    exact T.
  - rewrite orb_false_r. apply resize_observed_throttle.
Qed.

Lemma step_consistent (api0 : bool) (st : State) (e : Event) :
  consistent api0 st → consistent api0 (step st e).
Proof.
  intros [A F]. unfold consistent.
  destruct e as [|dom| |dom|entries innerHeight]; cbn [step].
  - unfold adjustWindowHeightThrottled. destruct (isThrottled st) eqn:T; cbn; rewrite ?T; auto.
  - unfold animation_frame. rewrite F.
    destruct (isThrottled st); unfold Nat.iter; cbn [nat_rect]; [|cbn; auto].
    unfold frame_callback. cbn [api isThrottled animationFrames].
    match goal with |- context [adjustWindowHeight dom ?s] =>
      destruct (adjustWindowHeight_sent dom s) as (_ & _ & _ & _ & _ & A' & _ & F' & _) end.
    rewrite A', F'. cbn. auto.
  - cbn. auto.
  - unfold timer_fires. destruct (timers st); [auto|].
    match goal with |- context [adjustWindowHeight dom ?s] =>
      destruct (adjustWindowHeight_sent dom s) as (_ & _ & _ & _ & _ & A' & T' & F' & _) end.
    rewrite A', T', F'. cbn. auto.
  - destruct (resize_observed_throttle entries innerHeight st) as (A' & T' & F' & _).
    rewrite A', T', F'. auto.
Qed.

Lemma run_consistent (api0 : bool) (es : list Event) (st : State) :
  consistent api0 st → consistent api0 (run st es).
Proof.
  unfold run. revert st. induction es as [|e es IH]; intros st C; [exact C|].
  cbn [foldl]. apply IH. now apply step_consistent.
Qed.

Lemma run_throttle (es : list Event) (st : State) :
  Forall (fun e => is_frame e = false) es →
  isThrottled (run st es) = isThrottled st || existsb is_render_pass es.
Proof.
  unfold run. revert st. induction es as [|e es IH]; intros st F; cbn [foldl existsb].
  - now rewrite orb_false_r.
  - inversion F as [|? ? Fe Fes]; subst. rewrite (IH _ Fes), (step_throttle _ _ Fe).
    now rewrite orb_assoc.
Qed.

(** The requests of the timers and of the observer do not depend on the
    throttle, and a render pass sends nothing. *)
Lemma adjustWindowHeight_part (dom : Dom) (s1 s2 : State) :
  unthrottled_part s1 = unthrottled_part s2 →
  unthrottled_part (adjustWindowHeight dom s1) = unthrottled_part (adjustWindowHeight dom s2).
Proof.
  unfold unthrottled_part. intros [= A M S]. unfold adjustWindowHeight. rewrite A.
  destruct (api s2) eqn:A2; cbn [negb]; [|cbn; congruence].
  destruct (idealHeight dom); cbn; congruence.
Qed.

Lemma resize_observed_part (entries : list Q) (innerHeight : Z) (s1 s2 : State) :
  unthrottled_part s1 = unthrottled_part s2 →
  unthrottled_part (resize_observed entries innerHeight s1)
  = unthrottled_part (resize_observed entries innerHeight s2).
Proof.
  unfold resize_observed. revert s1 s2.
  induction entries as [|needed entries IH]; intros s1 s2 E; [exact E|]. cbn [foldl].
  apply IH. destruct (Qle_bool _ _); [exact E|].
  revert E. unfold unthrottled_part, requestWindowResize. intros [= A M S]. rewrite A.
  destruct (api s2) eqn:A2; cbn; congruence.
Qed.

Lemma step_part (s1 s2 : State) (e : Event) :
  is_frame e = false →
  unthrottled_part s1 = unthrottled_part s2 →
  unthrottled_part (step s1 e)
  = unthrottled_part (if is_render_pass e then s2 else step s2 e).
Proof.
  destruct e as [|dom| |dom|entries innerHeight]; cbn [step is_frame is_render_pass];
    intros F E; try discriminate.
  - rewrite <- E. unfold adjustWindowHeightThrottled, unthrottled_part.
    destruct (isThrottled s1); reflexivity.
  - revert E. unfold unthrottled_part, firstUpdated. cbn. congruence.
  - unfold timer_fires. pose proof E as [= A M S]. rewrite M.
    destruct (timers s2); [exact E|]. apply adjustWindowHeight_part.
    unfold unthrottled_part. cbn. congruence.
  - now apply resize_observed_part.
Qed.

Lemma run_part (es : list Event) (s1 s2 : State) :
  Forall (fun e => is_frame e = false) es →
  unthrottled_part s1 = unthrottled_part s2 →
  unthrottled_part (run s1 es)
  = unthrottled_part (run s2 (filter (fun e => is_render_pass e = false) es)).
Proof.
  unfold run. revert s1 s2. induction es as [|e es IH]; intros s1 s2 F E; [exact E|].
  inversion F as [|? ? Fe Fes]; subst. cbn [foldl]. rewrite filter_cons.
  pose proof (step_part s1 s2 e Fe E) as P.
  destruct (is_render_pass e) eqn:R.
  - rewrite decide_False by discriminate. now apply IH.
  - rewrite decide_True by reflexivity. cbn [foldl]. now apply IH.
Qed.

(** A frame runs the one queued callback, if the view is throttled. *)
Lemma animation_frame_sent (api0 : bool) (dom : Dom) (st : State) :
  consistent api0 st →
  ∃ reqs : list Request,
    sent (animation_frame dom st) = sent st ++ reqs
    ∧ (length reqs ≤ 1)%nat
    ∧ (∀ r, r ∈ reqs → fits_content dom r)
    ∧ (api0 = true → isThrottled st = true → is_Some (response_header dom) →
       is_Some (response_container dom) → length reqs = 1%nat).
Proof.
  intros [A F]. unfold animation_frame. rewrite F.
  destruct (isThrottled st) eqn:T; unfold Nat.iter; cbn [nat_rect].
  - unfold frame_callback. cbn [sent].
    match goal with |- context [adjustWindowHeight dom ?s] =>
      destruct (adjustWindowHeight_sent dom s) as (reqs & S & L & C & O & _) end.
    exists reqs. split; [exact S|]. split; [exact L|]. split; [exact C|].
    intros -> _. apply O. exact A.
  - exists []. cbn. rewrite app_nil_r. split; [reflexivity|]. split; [lia|].
    split; [intros r I; inversion I|]. intros _ [=].
Qed.

(** C8, as amended. In any state the view can reach, and whatever the other
    senders do in the meantime, the render passes of one animation frame
    send nothing themselves, however many they are, and the frame that
    follows sends at most one request: for the window "ask", with the
    summed heights of the header, response, navigation and input regions
    (a hidden or absent header, navigation or input region counting 0),
    capped at 700. It sends exactly one when [window.api] exists, a render
    pass asked for it and both the header and the response container are
    found. *)
Theorem throttled_path_sends_one_request_per_frame
    (api0 : bool) (es0 es : list Event) (dom : Dom) :
  Forall (fun e => is_frame e = false) es →
  let st := run (initial api0) es0 in
  sent (run st es) = sent (run st (filter (fun e => is_render_pass e = false) es))
  ∧ ∃ reqs : list Request,
      sent (run st (es ++ [frame dom])) = sent (run st es) ++ reqs
      ∧ (length reqs ≤ 1)%nat
      ∧ (∀ r, r ∈ reqs → fits_content dom r)
      ∧ (api0 = true → isThrottled st = true ∨ render_pass ∈ es →
         is_Some (response_header dom) → is_Some (response_container dom) →
         length reqs = 1%nat).
Proof.
  intros F st. split.
  - pose proof (run_part es st st F eq_refl) as P. unfold unthrottled_part in P.
    now injection P.
  - pose proof (run_consistent api0 es st
                  (run_consistent api0 es0 _ (consistent_initial api0))) as C.
    destruct (animation_frame_sent api0 dom _ C) as (reqs & S & L & M & O).
    exists reqs. unfold run in *. rewrite foldl_app. cbn [foldl step].
    split; [exact S|]. split; [exact L|]. split; [exact M|].
    intros A T. apply O; [exact A|].
    change (foldl step st es) with (run st es). rewrite (run_throttle es st F).
    destruct T as [->|I]; [reflexivity|]. apply orb_true_iff. right.
    apply existsb_exists. exists render_pass. split; [|reflexivity].
    now apply list_elem_of_In.
Qed.

Lemma throttled_path_sends_one_request_per_frame_witness :
  sent (run (initial true)
          [render_pass; resized [(900 # 1)%Q] 300; render_pass; render_pass; frame dom_tall])
  = [[Num 900]; [Str "ask"; Num 700]].
Proof.
  destruct (throttled_path_sends_one_request_per_frame true []
              [render_pass; resized [(900 # 1)%Q] 300; render_pass; render_pass] dom_tall)
    as (E & reqs & S & L & M & O).
  - repeat constructor.
  - cbn [app] in S. change (run (initial true) []) with (initial true) in S. rewrite S.
    assert (N : length reqs = 1%nat).
    { apply O; [reflexivity|right; constructor|eexists; reflexivity..]. }
    destruct reqs as [|r [|r' reqs]]; try discriminate N.
    destruct (M r) as (h & c & H & C & ->); [constructor|].
    injection H as <-. injection C as <-. vm_compute. reflexivity.
Defined.

(** C8 as stated fails: the timer that [firstUpdated] sets calls
    [adjustWindowHeight] directly, past the throttle. When it fires in a
    frame in which a render pass happened, that frame sends two requests. *)
Lemma resize_requests_counterexample :
  sent (run (initial true) [first_updated; frame dom_short;
                            render_pass; timeout dom_short; frame dom_short])
  = [[Str "ask"; Num 380]; [Str "ask"; Num 380]]
  ∧ ¬ (length (sent (run (initial true)
                       [first_updated; frame dom_short;
                        render_pass; timeout dom_short; frame dom_short])) ≤ 1)%nat.
Proof. split; [vm_compute; reflexivity|]. vm_compute. lia. Qed.

(** The timer's request has the form of the throttled one. *)
Lemma first_updated_timer_request (dom : Dom) (st : State) :
  ∃ reqs : list Request,
    sent (step st (timeout dom)) = sent st ++ reqs
    ∧ (length reqs ≤ 1)%nat
    ∧ (∀ r, r ∈ reqs → fits_content dom r).
Proof.
  cbn [step]. unfold timer_fires. destruct (timers st).
  - exists []. rewrite app_nil_r. split; [reflexivity|]. split; [cbn; lia|].
    intros r I. inversion I.
  - match goal with |- context [adjustWindowHeight dom ?s] =>
      destruct (adjustWindowHeight_sent dom s) as (reqs & S & L & C & _) end.
    exists reqs. auto.
Qed.

(** The [ResizeObserver] passes the height of the container as the only
    argument, whatever it is: here 900, for a window 300 high. *)
Example resize_observer_request :
  sent (run (initial true) [resized [(900 # 1)%Q; (250 # 1)%Q] 300]) = [[Num 900]].
Proof. vm_compute. reflexivity. Qed.

End ContentFit.

(** * Further properties of the code *)

(** ** The geometry calculators *)

Section Calculators.
Variable scr : Screen.
Variable pool : gmap string BrowserWindow.

(** X1. A layout pass returns a rectangle for ask exactly when ask was
    requested and is a live window of the pool, and likewise for listen: no
    entry is ever returned for a window that is hidden, missing or
    destroyed. *)
Theorem layout_entries_iff_requested_and_live ov hb disp vis layout :
  header_frame scr pool ov hb disp →
  calculateFeatureWindowLayout scr pool vis ov = Ok layout →
  (is_Some (layout_ask layout) ↔ vis_ask vis = true ∧ live pool "ask" = true)
  ∧ (is_Some (layout_listen layout) ↔ vis_listen vis = true ∧ live pool "listen" = true).
Proof.
  intros F E. rewrite (layout_closed_form scr pool ov hb disp vis F) in E.
  injection E as <-. unfold expected_layout. cbn [layout_ask layout_listen].
  split.
  - destruct (vis_ask vis && live pool "ask") eqn:A.
    + apply andb_prop in A as [Va La]. split; [auto|]. intros _.
      apply live_inv in La as (a & -> & _). eexists; reflexivity.
    + split; [intros [? [=]]|]. intros [Va La]. rewrite Va, La in A. discriminate.
  - destruct (vis_listen vis && live pool "listen") eqn:L.
    + apply andb_prop in L as [Vl Ll]. split; [auto|]. intros _.
      apply live_inv in Ll as (l & -> & _). eexists; reflexivity.
    + split; [intros [? [=]]|]. intros [Vl Ll]. rewrite Vl, Ll in L. discriminate.
Qed.

Lemma layout_with_override vis h b :
  pool !! "header" = Some h → destroyed h = false →
  calculateFeatureWindowLayout scr pool vis (Some b)
  = calculateFeatureWindowLayout scr (<["header" := set_bounds b h]> pool) vis None.
Proof.
  intros Eh Dh.
  set (disp := getDisplayNearestPoint scr
                 (inject_Z (x b) + inject_Z (width b) / 2)%Q
                 (inject_Z (y b) + inject_Z (height b) / 2)%Q).
  rewrite (layout_closed_form scr pool (Some b) b disp vis) by (split; reflexivity).
  rewrite (layout_closed_form scr (<["header" := set_bounds b h]> pool) None b disp vis).
  - unfold expected_layout, live. rewrite !lookup_insert_ne by discriminate. reflexivity.
  - exists (set_bounds b h). rewrite lookup_insert_eq. cbn.
    unfold isDestroyed. cbn. rewrite Dh. repeat split.
Qed.

(** X2. Laying out against an override of the header bounds gives the layout
    the pass would give if the live header already had these bounds. *)
Theorem layout_override_is_moved_header vis h b :
  pool !! "header" = Some h → destroyed h = false →
  calculateFeatureWindowLayout scr pool vis (Some b)
  = calculateFeatureWindowLayout scr (<["header" := set_bounds b h]> pool) vis None.
Proof. apply layout_with_override. Qed.

(** X3. The dimensions used for a live window keep its position; ask and
    listen get their nominal width and a height of at least 100, settings
    width 240 and a height of at most 400, shortcut-settings always 353 by
    720, and a window without nominal dimensions its live bounds. *)
Theorem getWindowDimensions_constrained name w :
  pool !! name = Some w → destroyed w = false →
  ∃ d, getWindowDimensions pool name = Some d
       ∧ x d = x (bounds w) ∧ y d = y (bounds w)
       ∧ (name = "ask" → width d = 600 ∧ height d = Z.max 100 (height (bounds w)))
       ∧ (name = "listen" → width d = 400 ∧ height d = Z.max 100 (height (bounds w)))
       ∧ (name = "settings" → width d = 240 ∧ height d = Z.min 400 (height (bounds w)))
       ∧ (name = "shortcut-settings" → width d = 353 ∧ height d = 720)
       ∧ (ORIGINAL_WINDOW_DIMENSIONS name = None → d = bounds w).
Proof.
  intros E D. unfold getWindowDimensions, isDestroyed. rewrite E, D.
  eexists. split; [reflexivity|]. cbn [x y width height].
  split; [reflexivity|]. split; [reflexivity|].
  split; [|split; [|split; [|split]]].
  - intros ->. cbn. destruct (Z.ltb_spec (height (bounds w)) 100); lia.
  - intros ->. cbn. destruct (Z.ltb_spec (height (bounds w)) 100); lia.
  - intros ->. cbn. destruct (Z.ltb_spec 400 (height (bounds w))); lia.
  - intros ->. cbn. split; reflexivity.
  - intros ->. cbn. destruct (bounds w); reflexivity.
Qed.

(** The two settings placements in closed form. *)
Lemma calculateSettingsWindowPosition_live h s :
  pool !! "header" = Some h → destroyed h = false →
  pool !! "settings" = Some s → destroyed s = false →
  calculateSettingsWindowPosition pool
  = Ok (Some (mkRect (x (bounds h) + width (bounds h) - 240 + 170)
                     (y (bounds h) + height (bounds h) + 5)
                     240 (Z.min 400 (height (bounds s))))).
Proof.
  intros Eh Dh Es Ds.
  unfold calculateSettingsWindowPosition.
  rewrite (live_Some pool _ _ Eh Dh), (live_Some pool _ _ Es Ds). cbn [negb orb].
  rewrite Eh. cbn [deref JS.bind]. unfold getBounds, alive. rewrite Dh. cbn [JS.bind].
  unfold getWindowDimensions, isDestroyed. rewrite Es, Ds. cbn [deref JS.bind].
  rewrite !Math_round_Z. cbn [x y width height]. do 3 f_equal.
  cbn. destruct (Z.ltb_spec 400 (height (bounds s))); lia.
Qed.

Lemma calculateShortcutSettingsWindowPosition_live h s :
  pool !! "header" = Some h → destroyed h = false →
  pool !! "shortcut-settings" = Some s → destroyed s = false →
  calculateShortcutSettingsWindowPosition pool
  = Ok (Some (mkRect (x (bounds h) + (width (bounds h) - 353 + 1) / 2)
                     (y (bounds h)) 353 720)).
Proof.
  intros Eh Dh Es Ds.
  unfold calculateShortcutSettingsWindowPosition, getBounds, alive.
  rewrite Eh, Es, Dh. cbn [JS.bind].
  unfold getWindowDimensions, isDestroyed. rewrite Es, Ds. cbn [deref JS.bind].
  cbn [x y width height]. rewrite Math_round_Z.
  rewrite (Math_round_half_plus _ (width (bounds h) - 353) (x (bounds h))).
  - do 3 f_equal. lia.
  - cbn. unfold Z.sub. rewrite inject_Z_plus. change (inject_Z (- (353))) with (- (353))%Q.
    change (inject_Z 353) with 353%Q. field.
Qed.

(** X4. With a live header, a live settings window is placed 5px under the
    header with its right edge 170px to the right of the header's right edge,
    240 wide and at most 400 high; a live shortcut-settings window is placed
    at the header's top edge, 353 by 720, with its horizontal centre on the
    header's, up to the half pixel of rounding. *)
Theorem settings_windows_anchored_to_header h :
  pool !! "header" = Some h → destroyed h = false →
  (∀ s, pool !! "settings" = Some s → destroyed s = false →
        ∃ r, calculateSettingsWindowPosition pool = Ok (Some r)
             ∧ x r + width r = x (bounds h) + width (bounds h) + 170
             ∧ y r = y (bounds h) + height (bounds h) + 5
             ∧ width r = 240
             ∧ height r = Z.min 400 (height (bounds s)))
  ∧ (∀ s, pool !! "shortcut-settings" = Some s → destroyed s = false →
          ∃ r, calculateShortcutSettingsWindowPosition pool = Ok (Some r)
               ∧ width r = 353 ∧ height r = 720 ∧ y r = y (bounds h)
               ∧ 0 ≤ 2 * x r + width r - (2 * x (bounds h) + width (bounds h)) ≤ 1).
Proof.
  intros Eh Dh. split; intros s Es Ds; eexists.
  - split; [exact (calculateSettingsWindowPosition_live h s Eh Dh Es Ds)|].
    cbn. repeat split. lia.
  - split; [exact (calculateShortcutSettingsWindowPosition_live h s Eh Dh Es Ds)|].
    cbn [x y width height].
    pose proof (Z.div_mod (width (bounds h) - 353 + 1) 2 ltac:(lia)).
    pose proof (Z.mod_pos_bound (width (bounds h) - 353 + 1) 2 ltac:(lia)).
    repeat split; lia.
Qed.

(** X5. Resizing a live header keeps its top edge and its horizontal centre
    (up to the half pixel of rounding) and gives it the requested size. *)
Theorem header_resize_keeps_centre h width' height' :
  destroyed h = false →
  ∃ r, calculateHeaderResize (Some h) width' height' = Ok (Some r)
       ∧ width r = width' ∧ height r = height' ∧ y r = y (bounds h)
       ∧ 0 ≤ 2 * x r + width' - (2 * x (bounds h) + width (bounds h)) ≤ 1.
Proof.
  intros Dh. unfold calculateHeaderResize, isDestroyed, getBounds, alive.
  rewrite Dh. cbn [JS.bind]. eexists. split; [reflexivity|]. cbn [x y width height].
  rewrite (Math_round_half_plus _ (width (bounds h) - width') (x (bounds h))).
  - pose proof (Z.div_mod (width (bounds h) - width' + 1) 2 ltac:(lia)).
    pose proof (Z.mod_pos_bound (width (bounds h) - width' + 1) 2 ltac:(lia)).
    repeat split; lia.
  - inject_field.
Qed.

(** X6. A step moves a live header by exactly 80px along one axis, an
    unknown direction leaves it where it is, and a step in the opposite
    direction from the position reached leads back to where it was. *)
Theorem step_move_and_back h direction :
  destroyed h = false →
  ∃ x' y',
    calculateStepMovePosition (Some h) direction = Ok (Some (x', y'))
    ∧ (direction = "left" → x' = x (bounds h) - 80 ∧ y' = y (bounds h))
    ∧ (direction = "right" → x' = x (bounds h) + 80 ∧ y' = y (bounds h))
    ∧ (direction = "up" → x' = x (bounds h) ∧ y' = y (bounds h) - 80)
    ∧ (direction = "down" → x' = x (bounds h) ∧ y' = y (bounds h) + 80)
    ∧ (direction ∉ ["left"; "right"; "up"; "down"] →
       x' = x (bounds h) ∧ y' = y (bounds h))
    ∧ calculateStepMovePosition (Some (set_position x' y' h)) (opposite direction)
      = Ok (Some (x (bounds h), y (bounds h))).
Proof.
  intros Dh. unfold calculateStepMovePosition, isDestroyed, getBounds, alive.
  cbn [destroyed set_position set_bounds bounds]. rewrite Dh. cbn [JS.bind x y].
  unfold opposite.
  assert (In4 : ∀ d : string, d ∈ ["left"; "right"; "up"; "down"]
                → d = "left" ∨ d = "right" ∨ d = "up" ∨ d = "down").
  { intros d. rewrite !elem_of_cons, elem_of_nil. tauto. }
  destruct (String.eqb_spec direction "left") as [->|Nl];
    [|destruct (String.eqb_spec direction "right") as [->|Nr];
      [|destruct (String.eqb_spec direction "up") as [->|Nu];
        [|destruct (String.eqb_spec direction "down") as [->|Nd]]]].
  1-4: eexists _, _; (split; [reflexivity|]); cbn;
       (split; [|split; [|split; [|split; [|split]]]]);
       [ first [solve [intros [=]] | intros _; split; lia] ..
       | intros N; exfalso; apply N; set_solver
       | do 3 f_equal; lia ].
  eexists _, _. split; [reflexivity|].
  apply String.eqb_neq in Nl as Nl', Nr as Nr', Nu as Nu', Nd as Nd'.
  rewrite Nl', Nr', Nu', Nd'.
  split; [|split; [|split; [|split; [|split]]]]; try congruence.
  intros _. split; reflexivity.
Qed.

End Calculators.

(** ** Visibility requests, continued *)

(** Comparisons of the window names decided once and for all. *)
Ltac eval_names :=
  repeat match goal with
         | |- context [String.eqb ?a ?b] =>
             let v := eval vm_compute in (String.eqb a b) in
             change (String.eqb a b) with v
         end.

Section VisibilityRequests.
Variable scr : Screen.

(** X7. A visibility request for any window but shortcut-settings changes no
    other window of the pool, and leaves the recorded visible set, the focus
    state and its timers alone; only a settings request touches the settings
    hide timer. *)
Theorem visibility_request_touches_one_window (st st' : State) (name : string) (v : bool) :
  name ≠ "shortcut-settings" →
  handleWindowVisibilityRequest scr st name v = Ok st' →
  (∀ n, n ≠ name → windowPool st' !! n = windowPool st !! n)
  ∧ lastVisibleWindows st' = lastVisibleWindows st
  ∧ focusedWindow st' = focusedWindow st
  ∧ timers st' = timers st
  ∧ (name ≠ "settings" → settingsHideTimer st' = settingsHideTimer st).
Proof.
  intros Ns. unfold handleWindowVisibilityRequest.
  destruct (windowPool st !! name) as [win|] eqn:Ew; [|intros [= <-]; auto].
  destruct (isDestroyed win) eqn:Dw; [intros [= <-]; auto|].
  unfold isVisible, getBounds, alive. unfold isDestroyed in Dw. rewrite Dw.
  destruct (String.eqb_spec name "settings") as [->|N1]; cbn [negb JS.bind].
  - destruct v.
    + destruct (calculateSettingsWindowPosition (windowPool st)) as [[r|]|e]; cbn [JS.bind];
        intros [= <-]; cbn; repeat split; try congruence.
      intros n Hn. now rewrite lookup_insert_ne by congruence.
    + intros [= <-]. cbn. repeat split; try congruence.
      intros n Hn. now rewrite lookup_insert_ne by congruence.
  - destruct (Bool.eqb (visible win) v) eqn:Ev; [intros [= <-]; auto|].
    apply String.eqb_neq in Ns. rewrite Ns.
    destruct (String.eqb name "listen" || String.eqb name "ask"); [|intros [= <-]; auto].
    match goal with
    | |- context [calculateFeatureWindowLayout ?s ?p ?f None] =>
        destruct (calculateFeatureWindowLayout s p f None) as [L|e]
    end; cbn [JS.bind]; [|discriminate].
    destruct v.
    + destruct (layout_of name L) as [target|]; [|intros [= <-]; auto].
      intros [= <-]. cbn. repeat split.
      intros n Hn. now rewrite lookup_insert_ne by congruence.
    + destruct (negb (visible win)); intros [= <-]; cbn; auto.
Qed.

(** X8. Showing the hidden shortcut-settings window (with a live header)
    shows it on top and makes every other live window of the pool ignore the
    mouse; hiding it again takes it off the top, hides it, and makes every
    live window of the pool accept the mouse again. *)
Theorem shortcut_settings_isolates_mouse (st : State) (h win : BrowserWindow) :
  windowPool st !! "header" = Some h → destroyed h = false →
  windowPool st !! "shortcut-settings" = Some win →
  destroyed win = false → visible win = false →
  ∃ st1 w1,
    handleWindowVisibilityRequest scr st "shortcut-settings" true = Ok st1
    ∧ windowPool st1 !! "shortcut-settings" = Some w1
    ∧ visible w1 = true ∧ alwaysOnTop w1 = true
    ∧ ignoreMouseEvents w1 = ignoreMouseEvents win
    ∧ (∀ n w, n ≠ "shortcut-settings" → windowPool st1 !! n = Some w →
              destroyed w = false → ignoreMouseEvents w = true)
    ∧ ∃ st2 w2,
        handleWindowVisibilityRequest scr st1 "shortcut-settings" false = Ok st2
        ∧ windowPool st2 !! "shortcut-settings" = Some w2
        ∧ visible w2 = false ∧ alwaysOnTop w2 = false
        ∧ (∀ n w, windowPool st2 !! n = Some w →
                  destroyed w = false → ignoreMouseEvents w = false).
Proof.
  intros Eh Dh Ew Dw Vw.
  pose proof (calculateShortcutSettingsWindowPosition_live (windowPool st) h win Eh Dh Ew Dw)
    as Er.
  set (r := mkRect _ _ _ _) in Er.
  unfold handleWindowVisibilityRequest at 1.
  rewrite Ew. unfold isDestroyed, isVisible, alive. rewrite Dw. cbn [negb JS.bind String.eqb].
  change (String.eqb "shortcut-settings" "settings") with false.
  change (String.eqb "shortcut-settings" "shortcut-settings") with true.
  cbn [negb JS.bind]. rewrite Vw. cbn [Bool.eqb JS.bind]. rewrite Er. cbn [JS.bind].
  set (w0 := applyAggressiveAlwaysOnTop (set_bounds r win)).
  assert (D0 : destroyed w0 = false).
  { unfold w0, applyAggressiveAlwaysOnTop, isDestroyed. cbn. now rewrite Dw. }
  set (pool1 := on_live showInactive "shortcut-settings"
                  (disableClicks "shortcut-settings"
                     (<["shortcut-settings" := w0]> (windowPool st)))).
  assert (L1 : pool1 !! "shortcut-settings" = Some (showInactive w0)).
  { unfold pool1, on_live, disableClicks.
    rewrite lookup_alter_eq, map_lookup_imap, lookup_insert_eq. cbn.
    unfold isDestroyed. now rewrite D0. }
  assert (O1 : ∀ n w, n ≠ "shortcut-settings" → pool1 !! n = Some w →
                      destroyed w = false → ignoreMouseEvents w = true).
  { intros n w Hn. unfold pool1, on_live, disableClicks.
    rewrite lookup_alter_ne, map_lookup_imap, lookup_insert_ne by congruence.
    destruct (windowPool st !! n) as [w'|]; [|discriminate]. cbn.
    apply String.eqb_neq in Hn. rewrite Hn. cbn [negb andb]. unfold isDestroyed.
    destruct (destroyed w') eqn:D'; cbn; intros [= <-]; [congruence|reflexivity]. }
  eexists _, (showInactive w0). split; [reflexivity|].
  cbn [windowPool with_pool]. fold pool1.
  split; [exact L1|]. split; [reflexivity|].
  split; [unfold w0, applyAggressiveAlwaysOnTop, isDestroyed; cbn; now rewrite Dw|].
  split; [unfold w0, applyAggressiveAlwaysOnTop, isDestroyed; cbn; now rewrite Dw|].
  split; [exact O1|].
  unfold handleWindowVisibilityRequest. cbn [windowPool with_pool]. fold pool1.
  rewrite L1. unfold isDestroyed, isVisible, alive.
  change (destroyed (showInactive w0)) with (destroyed w0). rewrite D0.
  change (String.eqb "shortcut-settings" "settings") with false.
  change (String.eqb "shortcut-settings" "shortcut-settings") with true.
  cbn [negb JS.bind visible showInactive set_visible Bool.eqb].
  set (w1 := removeAggressiveAlwaysOnTop (showInactive w0)).
  assert (D1 : destroyed w1 = false).
  { unfold w1, removeAggressiveAlwaysOnTop, isDestroyed. cbn. now rewrite D0. }
  eexists _, (hide (set_ignoreMouseEvents false w1)). split; [reflexivity|].
  cbn [windowPool with_pool]. unfold on_live, restoreClicks.
  split; [|split; [reflexivity|split]].
  - rewrite lookup_alter_eq, lookup_fmap, lookup_insert_eq. cbn.
    unfold isDestroyed. rewrite D1. cbn. now rewrite D1.
  - unfold w1, removeAggressiveAlwaysOnTop, isDestroyed. cbn. now rewrite D0.
  - intros n w. destruct (decide (n = "shortcut-settings")) as [->|Hn].
    + rewrite lookup_alter_eq, lookup_fmap, lookup_insert_eq. cbn.
      unfold isDestroyed. rewrite D1. cbn. rewrite D1. now intros [= <-].
    + rewrite lookup_alter_ne, lookup_fmap, lookup_insert_ne by congruence.
      destruct (pool1 !! n) as [w'|]; [|discriminate]. cbn. unfold isDestroyed.
      destruct (destroyed w') eqn:D'; intros [= <-]; [congruence|reflexivity].
Qed.

(** X9. A hide request for the live settings window only arms the 200ms
    timer and unlocks the window; when the timer fires the window is taken
    off the top and hidden. A show request arriving before that clears the
    timer, so that its callback does nothing, and shows the window locked, on
    top, at the position anchored to the header. *)
Theorem settings_hide_is_debounced (st : State) (h s : BrowserWindow) :
  windowPool st !! "header" = Some h → destroyed h = false →
  windowPool st !! "settings" = Some s → destroyed s = false →
  ∃ st1,
    handleWindowVisibilityRequest scr st "settings" false = Ok st1
    ∧ settingsHideTimer st1 = true
    ∧ windowPool st1 !! "settings" = Some (set_lockedByButton false s)
    ∧ windowPool (settingsHideTimer_fires st1) !! "settings"
      = Some (hide (set_alwaysOnTop false (set_lockedByButton false s)))
    ∧ ∃ st2 r w2,
        handleWindowVisibilityRequest scr st1 "settings" true = Ok st2
        ∧ settingsHideTimer st2 = false
        ∧ settingsHideTimer_fires st2 = st2
        ∧ calculateSettingsWindowPosition (windowPool st) = Ok (Some r)
        ∧ windowPool st2 !! "settings" = Some w2
        ∧ bounds w2 = r ∧ visible w2 = true ∧ alwaysOnTop w2 = true
        ∧ lockedByButton w2 = true.
Proof.
  intros Eh Dh Es Ds.
  unfold handleWindowVisibilityRequest at 1.
  rewrite Es. unfold isDestroyed. rewrite Ds.
  change (String.eqb "settings" "settings") with true. cbn [negb JS.bind].
  eexists. split; [reflexivity|]. cbn [settingsHideTimer windowPool with_pool with_settingsHideTimer].
  split; [reflexivity|]. split; [apply lookup_insert_eq|].
  split.
  { unfold settingsHideTimer_fires. cbn. unfold on_live.
    rewrite lookup_alter_eq, lookup_insert_eq. cbn. rewrite Ds.
    unfold removeAggressiveAlwaysOnTop, isDestroyed. cbn. now rewrite Ds. }
  set (pool1 := <["settings" := set_lockedByButton false s]> (windowPool st)).
  assert (Eh1 : pool1 !! "header" = Some h) by (unfold pool1; now rewrite lookup_insert_ne).
  assert (Es1 : pool1 !! "settings" = Some (set_lockedByButton false s))
    by apply lookup_insert_eq.
  pose proof (calculateSettingsWindowPosition_live (windowPool st) h s Eh Dh Es Ds) as Er.
  pose proof (calculateSettingsWindowPosition_live pool1 h _ Eh1 Dh Es1 Ds) as Er1.
  cbn [bounds set_lockedByButton] in Er1.
  set (r := mkRect _ _ _ _) in Er, Er1.
  unfold handleWindowVisibilityRequest. cbn [windowPool with_pool with_settingsHideTimer].
  fold pool1. rewrite Es1. unfold isDestroyed. cbn [destroyed set_lockedByButton].
  rewrite Ds. change (String.eqb "settings" "settings") with true. cbn [negb JS.bind].
  rewrite Er1. cbn [JS.bind].
  eexists _, r, _. split; [reflexivity|].
  cbn [settingsHideTimer windowPool with_pool with_settingsHideTimer].
  split; [reflexivity|]. split; [reflexivity|]. split; [exact Er|].
  split; [apply lookup_insert_eq|].
  unfold applyAggressiveAlwaysOnTop, isDestroyed. cbn. rewrite Ds. cbn. auto.
Qed.

(** X10. Showing the hidden, live ask or listen window (with a live header)
    puts it at its place in the new layout shifted by the slide offset (ask
    20px up, listen 50px left), transparent, visible and on top, and hands
    the movement manager exactly a fade to opacity 1 and the new layout, in
    which the window has its final place. *)
Theorem feature_window_slides_in (st : State) (name : string) (win : BrowserWindow) hb disp :
  name = "ask" ∨ name = "listen" →
  windowPool st !! name = Some win → destroyed win = false → visible win = false →
  header_frame scr (windowPool st) None hb disp →
  ∃ st' L target w',
    handleWindowVisibilityRequest scr st name true = Ok st'
    ∧ layout_of name L = Some target
    ∧ windowPool st' !! name = Some w'
    ∧ (name = "ask" →
       target = ask_rect hb disp win
       ∧ bounds w' = mkRect (x target) (y target - 20) (width target) (height target))
    ∧ (name = "listen" →
       (∃ beside_ask, target = listen_rect hb disp beside_ask win)
       ∧ bounds w' = mkRect (x target - 50) (y target) (width target) (height target))
    ∧ visible w' = true ∧ opacity w' = 0%Q ∧ alwaysOnTop w' = true
    ∧ motion st' = motion st ++ [fade name 1 false; animateLayout L].
Proof.
  intros [-> | ->] Ew Dw Vw F; unfold handleWindowVisibilityRequest;
    rewrite Ew; unfold isDestroyed, isVisible, alive; rewrite Dw; cbn [negb JS.bind];
    eval_names;
    cbn [negb JS.bind orb andb]; rewrite Vw; cbn [Bool.eqb negb JS.bind orb andb];
    unfold set_vis; cbn [negb];
    match goal with
    | |- context [calculateFeatureWindowLayout scr ?p ?f None] =>
        rewrite (layout_closed_form scr p None hb disp f F)
    end; cbn [JS.bind]; unfold expected_layout, layout_of; eval_names;
    cbn [vis_ask vis_listen layout_ask layout_listen];
    rewrite ?(live_Some _ _ _ Ew Dw), Ew; cbn [andb fmap option_fmap option_map].
  - eexists _, _, _, _. split; [reflexivity|].
    split; [|split; [apply lookup_insert_eq|]].
    2: { cbn [windowPool with_pool issue motion].
         unfold applyAggressiveAlwaysOnTop, isDestroyed, slide. eval_names. cbn.
         rewrite Dw. cbn. unfold ANIM_OFFSET_Y.
         split; [intros _; split; reflexivity|]. split; [intros [=]|].
         repeat split. }
    reflexivity.
  - eexists _, _, _, _. split; [reflexivity|].
    split; [|split; [apply lookup_insert_eq|]].
    2: { cbn [windowPool with_pool issue motion].
         unfold applyAggressiveAlwaysOnTop, isDestroyed, slide. eval_names. cbn.
         rewrite Dw. cbn. unfold ANIM_OFFSET_X.
         split; [intros [=]|]. split; [intros _; split; [eexists|]; reflexivity|].
         repeat split. }
    reflexivity.
Qed.

(** X11. Hiding the visible, live ask or listen window (with a live header)
    changes no window yet: it hands the movement manager a fade to opacity 0
    that hides the window on completion, a slide by the same offset, and the
    layout of the remaining windows, in which the hidden window has no
    entry. *)
Theorem feature_window_slides_out (st : State) (name : string) (win : BrowserWindow) hb disp :
  name = "ask" ∨ name = "listen" →
  windowPool st !! name = Some win → destroyed win = false → visible win = true →
  header_frame scr (windowPool st) None hb disp →
  ∃ st' L,
    handleWindowVisibilityRequest scr st name false = Ok st'
    ∧ windowPool st' = windowPool st
    ∧ layout_of name L = None
    ∧ motion st'
      = motion st
        ++ [fade name 0 true;
            animateWindowPosition name
              (if String.eqb name "listen" then x (bounds win) - 50 else x (bounds win))
              (if String.eqb name "ask" then y (bounds win) - 20 else y (bounds win));
            animateLayout L].
Proof.
  intros [-> | ->] Ew Dw Vw F; unfold handleWindowVisibilityRequest;
    rewrite Ew; unfold isDestroyed, isVisible, getBounds, alive; rewrite Dw;
    cbn [negb JS.bind]; eval_names;
    cbn [negb JS.bind orb andb]; rewrite Vw; cbn [Bool.eqb negb JS.bind orb andb];
    match goal with
    | |- context [calculateFeatureWindowLayout scr ?p ?f None] =>
        rewrite (layout_closed_form scr p None hb disp f F)
    end; cbn [JS.bind]; unfold slide, layout_without, layout_of; eval_names;
    eexists _, _; (split; [reflexivity|]); (split; [reflexivity|]);
    (split; [|cbn; reflexivity]); unfold layout_of; eval_names; reflexivity.
Qed.

End VisibilityRequests.

(** ** The focus timers *)

Section FocusTimers.

Lemma count_restores_app (l : list Task) (t : Task) :
  length (filter (fun t => is_FocusRestore t = true) (l ++ [t]))
  = (length (filter (fun t => is_FocusRestore t = true) l)
     + (if is_FocusRestore t then 1 else 0))%nat.
Proof.
  rewrite filter_app, length_app. f_equal.
  destruct t; reflexivity.
Qed.

Lemma count_restores_clear (t : Task) (l : list Task) :
  length (filter (fun t => is_FocusRestore t = true) (clearTimeout t l))
  = (length (filter (fun t => is_FocusRestore t = true) l)
     - (if is_FocusRestore t then 1 else 0))%nat.
Proof.
  induction l as [|t' l IH]; [destruct t; reflexivity|].
  destruct t, t'; cbn [clearTimeout is_FocusRestore] in *;
    rewrite ?filter_cons; cbn [is_FocusRestore];
    repeat case_decide; try congruence; cbn [length]; rewrite ?IH; try lia.
Qed.

Lemma timers_focusRestoreTimer_fires (st : State) :
  timers (focusRestoreTimer_fires st) = timers st.
Proof.
  unfold focusRestoreTimer_fires. destruct (windowPool st !! "header"); [|reflexivity].
  destruct (_ && _); [|reflexivity]. destruct (isOtherAppActive st); reflexivity.
Qed.

Lemma pending_restores_restoreFocusIfNeeded (st : State) :
  (pending_restores st ≤ 1)%nat → pending_restores (restoreFocusIfNeeded st) = 1%nat.
Proof.
  unfold pending_restores, restoreFocusIfNeeded, setTimeout. cbn.
  rewrite count_restores_app, count_restores_clear. cbn. lia.
Qed.

Lemma pending_restores_on_event (e : Event) (st : State) :
  (pending_restores st ≤ 1)%nat → (pending_restores (on_event e st) ≤ 1)%nat.
Proof.
  intros B.
  assert (R : ∀ s, (pending_restores s ≤ 1)%nat →
                   (pending_restores (restoreFocusIfNeeded s) ≤ 1)%nat).
  { intros s Hs. now rewrite pending_restores_restoreFocusIfNeeded. }
  assert (S : ∀ t s, is_FocusRestore t = false → (pending_restores s ≤ 1)%nat →
                     (pending_restores (setTimeout t s) ≤ 1)%nat).
  { intros t s Ht Hs. unfold pending_restores, setTimeout in *. cbn.
    rewrite count_restores_app, Ht. lia. }
  assert (C : ∀ t, (pending_restores (with_timers (clearTimeout t (timers st)) st) ≤ 1)%nat).
  { intros t. unfold pending_restores in *. cbn. rewrite count_restores_clear. lia. }
  destruct e as [| | | | |t]; cbn [on_event].
  - destruct (windowPool st !! "header") as [h|]; [|exact B].
    destruct (_ && _); [now apply S|exact B].
  - now apply S.
  - now apply S.
  - destruct (header_shown st); [now apply S|exact B].
  - destruct (header_shown st); [now apply R|exact B].
  - specialize (C t). set (st1 := with_timers (clearTimeout t (timers st)) st) in *.
    destruct t.
    + destruct (focusedWindow st1); [now apply R|exact C|now apply R].
    + destruct (header_shown st1); [now apply R|exact C].
    + destruct (header_shown st1); [now apply R|exact C].
    + now apply R.
    + unfold pending_restores in *. now rewrite timers_focusRestoreTimer_fires.
Qed.

(** X12. Focus restoration is debounced: whatever blur, resume, unlock,
    activate and display events and timer callbacks follow one another, at
    most one focus-restore timer is pending at any time. *)
Theorem focus_restore_is_debounced (es : list Event) (st : State) :
  (pending_restores st ≤ 1)%nat → (pending_restores (run es st) ≤ 1)%nat.
Proof.
  revert st. induction es as [|e es IH]; intros st B; [exact B|].
  unfold run in *. cbn [foldl]. apply IH. now apply pending_restores_on_event.
Qed.



End FocusTimers.

(** ** The handlers of the window controller *)

Section Controller.
Import WindowController.
Variable scr : Screen.
Variable pool : gmap string BrowserWindow.

Lemma set_resizable_same (w : BrowserWindow) : set_resizable (resizable w) w = w.
Proof. destruct w. reflexivity. Qed.

Lemma unlock_pool (name : string) (w : BrowserWindow) :
  pool !! name = Some w →
  (if negb (resizable w) then <[name := set_resizable true w]> pool else pool)
  = <[name := set_resizable true w]> pool.
Proof.
  intros E. destruct (resizable w) eqn:R; cbn [negb]; [|reflexivity].
  symmetry. apply insert_id. rewrite E. f_equal. rewrite <- R. symmetry. apply set_resizable_same.
Qed.

(** The completion callback of a bounds animation, on a window that is
    still alive and still unlocked. *)
Lemma completed_relock (p : gmap string BrowserWindow) (name : string)
    (was : bool) (w2 : BrowserWindow) :
  p !! name = Some w2 → destroyed w2 = false → resizable w2 = true →
  (completed scr p (relock name was)).1 = <[name := set_resizable was w2]> p.
Proof.
  intros E D R. unfold completed, isDestroyed. rewrite E, D.
  destruct was; cbn [negb fst]; [|reflexivity].
  symmetry. apply insert_id. rewrite E. f_equal. rewrite <- R. symmetry. apply set_resizable_same.
Qed.


(** X15. A header resize is dropped while the movement manager is animating.
    Otherwise, for a live header, it unlocks the header's resizing and asks
    for one bounds animation to the requested size at the same top edge,
    whose completion restores the resizable flag. *)
Theorem resize_header_unlocks_unless_animating (h : BrowserWindow) (width' height' : Z) :
  pool !! "header" = Some h → destroyed h = false →
  on_resizeHeaderWindow pool true width' height' = Ok (pool, [])
  ∧ ∃ r, on_resizeHeaderWindow pool false width' height'
         = Ok (<["header" := set_resizable true h]> pool,
               [animateWindowBounds "header" r (relock "header" (resizable h))])
         ∧ width r = width' ∧ height r = height' ∧ y r = y (bounds h)
         ∧ (completed scr (<["header" := set_resizable true h]> pool)
              (relock "header" (resizable h))).1 = pool.
Proof.
  intros E D. split.
  - unfold on_resizeHeaderWindow, isDestroyed. rewrite E, D. reflexivity.
  - unfold on_resizeHeaderWindow, calculateHeaderResize, isDestroyed, getBounds, alive.
    rewrite E, D. cbn [orb JS.bind]. eexists. rewrite (unlock_pool "header" h E).
    split; [reflexivity|]. cbn [x y width height]. repeat split.
    rewrite (completed_relock _ "header" _ (set_resizable true h));
      [|apply lookup_insert_eq|exact D|reflexivity].
    rewrite insert_insert_eq. apply insert_id. rewrite E. destruct h; reflexivity.
Qed.

(** X16. Moving a live header to an edge asks for one animation of its
    position, after which the children are laid out again: to the left edge
    its left side comes 20px inside the work area of its display, to the
    right edge its right side comes 20px inside; its vertical position is
    kept, and any other direction keeps it where it is. *)
Theorem move_to_edge_margins (h : BrowserWindow) (direction : string) :
  pool !! "header" = Some h → destroyed h = false →
  ∃ x',
    on_moveToEdge scr pool direction
    = Ok (pool, [animateWindowPosition "header" x' (y (bounds h)) relayout])
    ∧ (direction = "left" →
       x' = x (workArea (getCurrentDisplay scr (Some h))) + 20)
    ∧ (direction = "right" →
       x' + width (bounds h) + 20
       = x (workArea (getCurrentDisplay scr (Some h)))
         + width (workArea (getCurrentDisplay scr (Some h))))
    ∧ (direction ≠ "left" → direction ≠ "right" → x' = x (bounds h)).
Proof.
  intros E D. unfold on_moveToEdge, calculateEdgePosition, isDestroyed, getBounds, alive.
  rewrite E, D. cbn [JS.bind]. eexists. split; [reflexivity|].
  destruct (String.eqb_spec direction "left") as [->|Nl].
  { split; [reflexivity|]. split; [intros [=]|]. congruence. }
  destruct (String.eqb_spec direction "right") as [->|Nr].
  { split; [intros [=]|]. split; [intros _; lia|]. congruence. }
  split; [congruence|]. split; [congruence|]. reflexivity.
Qed.

Lemma shown_insert_header (h' : BrowserWindow) (name : string) :
  name ≠ "header" → shown (<["header" := h']> pool) name = shown pool name.
Proof. intros N. unfold shown. now rewrite lookup_insert_ne. Qed.

(** X17. A step of a live header asks for the animation of the header to the
    stepped position and, in the same breath, for the animation of the
    visible feature windows to the layout that a layout pass computes once
    the header is there. *)
Theorem move_step_lays_out_for_arrival (h : BrowserWindow) (direction : string) :
  pool !! "header" = Some h → destroyed h = false →
  ∃ x' y' L,
    calculateStepMovePosition (Some h) direction = Ok (Some (x', y'))
    ∧ on_moveStep scr pool direction
      = Ok (pool, [animateWindowPosition "header" x' y' nothing; animateLayout L None])
    ∧ calculateFeatureWindowLayout scr (<["header" := set_position x' y' h]> pool)
        (visibleWindows (<["header" := set_position x' y' h]> pool)) None
      = Ok L.
Proof.
  intros E D.
  assert (S : ∃ x' y', calculateStepMovePosition (Some h) direction = Ok (Some (x', y'))).
  { unfold calculateStepMovePosition, isDestroyed, getBounds, alive. rewrite D. cbn [JS.bind].
    repeat (destruct (String.eqb direction _); [eauto|]). eauto. }
  destruct S as (x' & y' & S). exists x', y'.
  set (b := mkRect x' y' (width (bounds h)) (height (bounds h))).
  set (disp := getDisplayNearestPoint scr
                 (inject_Z (x b) + inject_Z (width b) / 2)%Q
                 (inject_Z (y b) + inject_Z (height b) / 2)%Q).
  exists (expected_layout pool (visibleWindows pool) b disp).
  split; [exact S|]. split.
  - unfold on_moveStep, isDestroyed. rewrite E, D, S. cbn [JS.bind].
    unfold getBounds, alive. rewrite D. cbn [JS.bind]. fold b.
    rewrite (layout_closed_form scr pool (Some b) b disp) by (split; reflexivity).
    reflexivity.
  - unfold visibleWindows. rewrite !shown_insert_header by discriminate.
    fold (visibleWindows pool). unfold set_position. fold b.
    rewrite <- (layout_with_override scr pool (visibleWindows pool) h b E D).
    apply layout_closed_form. split; reflexivity.
Qed.

(** X18. [updateChildWindowLayouts] calls the movement manager at most once:
    not at all when neither ask nor listen is a live, visible window, and
    otherwise (with a live header) with a layout that has a rectangle for
    each live, visible feature window and for nothing else. *)
Theorem relayout_covers_the_visible_windows (h : BrowserWindow) (animated : bool) :
  pool !! "header" = Some h → destroyed h = false →
  (shown pool "ask" = false → shown pool "listen" = false →
   updateChildWindowLayouts scr pool animated = Ok [])
  ∧ (shown pool "ask" = true ∨ shown pool "listen" = true →
     ∃ L, updateChildWindowLayouts scr pool animated = Ok [animateLayout L (Some animated)]
          ∧ (is_Some (layout_ask L) ↔ shown pool "ask" = true)
          ∧ (is_Some (layout_listen L) ↔ shown pool "listen" = true)).
Proof.
  intros E D. split.
  - intros A L. unfold updateChildWindowLayouts. rewrite A, L. reflexivity.
  - intros V.
    assert (F : header_frame scr pool None (bounds h) (getCurrentDisplay scr (Some h))).
    { exists h. auto. }
    exists (expected_layout pool (visibleWindows pool) (bounds h)
              (getCurrentDisplay scr (Some h))).
    split.
    + unfold updateChildWindowLayouts.
      destruct (negb (shown pool "listen") && negb (shown pool "ask")) eqn:N.
      { apply andb_prop in N as [Nl Na]. apply negb_true_iff in Nl, Na.
        destruct V; congruence. }
      rewrite (layout_closed_form scr pool None _ _ (visibleWindows pool) F). reflexivity.
    + assert (Lv : ∀ name, shown pool name = true → live pool name = true).
      { intros name. unfold shown, live. destruct (pool !! name); [|discriminate].
        now intros [? _]%andb_prop. }
      unfold expected_layout, visibleWindows. cbn [vis_ask vis_listen layout_ask layout_listen].
      split.
      * destruct (shown pool "ask") eqn:A; cbn [andb].
        -- rewrite (Lv _ A). destruct (live_inv pool _ (Lv _ A)) as (a & -> & _).
           split; [reflexivity|]. intros _. eexists. reflexivity.
        -- split; [intros [? [=]]|discriminate].
      * destruct (shown pool "listen") eqn:A; cbn [andb].
        -- rewrite (Lv _ A). destruct (live_inv pool _ (Lv _ A)) as (a & -> & _).
           split; [reflexivity|]. intros _. eexists. reflexivity.
        -- split; [intros [? [=]]|discriminate].
Qed.

End Controller.

(** ** Creating, destroying and recreating windows *)

Section Lifecycle.
Import FeatureWindows.
Variable construct : Construction → BrowserWindow.

Lemma is_feature_elem (name : string) : is_feature name = true ↔ name ∈ featureWindows.
Proof.
  unfold is_feature, featureWindows. rewrite !elem_of_cons, elem_of_nil.
  rewrite !orb_true_iff, !String.eqb_eq. tauto.
Qed.

Lemma createFeatureWindow_lookup (pool : gmap string BrowserWindow) (name k : string) :
  createFeatureWindow construct pool name !! k
  = match pool !! k with
    | Some w => Some w
    | None =>
        if decide (k = name) then
          if is_feature name
          then Some (applyAggressiveAlwaysOnTop (construct (created name))) else None
        else None
    end.
Proof.
  unfold createFeatureWindow. destruct (decide (k = name)) as [->|N].
  - destruct (pool !! name) as [w|] eqn:E; [now rewrite E|].
    destruct (is_feature name); [apply lookup_insert_eq|exact E].
  - destruct (pool !! name) as [w|] eqn:E; [now destruct (pool !! k)|].
    destruct (is_feature name); [rewrite lookup_insert_ne by congruence|];
      now destruct (pool !! k).
Qed.

Lemma createFeatureWindows_lookup (l : list string) (pool : gmap string BrowserWindow)
    (k : string) :
  foldl (createFeatureWindow construct) pool l !! k
  = match pool !! k with
    | Some w => Some w
    | None =>
        if bool_decide (k ∈ l) && is_feature k
        then Some (applyAggressiveAlwaysOnTop (construct (created k))) else None
    end.
Proof.
  revert pool. induction l as [|a l IH]; intros pool; cbn [foldl].
  - now destruct (pool !! k).
  - rewrite IH, createFeatureWindow_lookup.
    destruct (pool !! k) as [w|]; [reflexivity|].
    destruct (decide (k = a)) as [->|N].
    + rewrite (bool_decide_eq_true_2 (a ∈ a :: l)) by left.
      destruct (is_feature a); [reflexivity|]. now rewrite andb_false_r.
    + assert (E : bool_decide (k ∈ a :: l) = bool_decide (k ∈ l)).
      { apply bool_decide_ext. rewrite elem_of_cons. tauto. }
      now rewrite E.
Qed.

Lemma delete_features_lookup (pool : gmap string BrowserWindow) (k : string) :
  foldl (fun pool name => delete name pool) pool featureWindows !! k
  = if is_feature k then None else pool !! k.
Proof.
  unfold featureWindows, is_feature. cbn [foldl].
  rewrite !lookup_delete.
  repeat case_decide; subst; cbn; try reflexivity;
    repeat match goal with
           | H : ?a ≠ ?b |- _ => apply String.eqb_neq in H; rewrite ?(String.eqb_sym b a), H
           end; reflexivity.
Qed.

(** X19. Entering the main state registers every feature window (listen, ask,
    settings, shortcut-settings) that is not registered; a window already
    registered, even a destroyed one, is kept as it is, and nothing else is
    added. *)
Theorem entering_main_registers_missing_windows (st : State) (k : string) :
  windowPool (handleHeaderStateChanged construct "main" st) !! k
  = match windowPool st !! k with
    | Some w => Some w
    | None =>
        if is_feature k
        then Some (applyAggressiveAlwaysOnTop (construct (created k))) else None
    end.
Proof.
  unfold handleHeaderStateChanged. change (String.eqb "main" "main") with true.
  cbn [windowPool with_pool createFeatureWindows]. rewrite createFeatureWindows_lookup.
  destruct (windowPool st !! k); [reflexivity|].
  destruct (is_feature k) eqn:F; [|now rewrite andb_false_r].
  apply is_feature_elem in F. now rewrite (bool_decide_eq_true_2 _ F).
Qed.

(** X20. Leaving the main state removes the four feature windows from the
    pool, leaves the header and every other entry alone and no settings hide
    timer pending; entering main again then registers four freshly
    constructed windows. *)
Theorem leaving_main_forgets_feature_windows (state : string) (st : State) (k : string) :
  state ≠ "main" →
  windowPool (handleHeaderStateChanged construct state st) !! k
  = (if is_feature k then None else windowPool st !! k)
  ∧ settingsHideTimer (handleHeaderStateChanged construct state st) = false
  ∧ (is_feature k = true →
     windowPool (handleHeaderStateChanged construct "main"
                   (handleHeaderStateChanged construct state st)) !! k
     = Some (applyAggressiveAlwaysOnTop (construct (created k)))).
Proof.
  intros N. apply String.eqb_neq in N.
  assert (L : windowPool (handleHeaderStateChanged construct state st) !! k
              = if is_feature k then None else windowPool st !! k).
  { unfold handleHeaderStateChanged. rewrite N. apply delete_features_lookup. }
  split; [exact L|]. split.
  - unfold handleHeaderStateChanged. rewrite N. reflexivity.
  - intros F. unfold handleHeaderStateChanged at 1. change (String.eqb "main" "main") with true.
    cbn [windowPool with_pool createFeatureWindows]. rewrite createFeatureWindows_lookup.
    rewrite L, F. cbn [andb]. apply is_feature_elem in F.
    now rewrite (bool_decide_eq_true_2 _ F).
Qed.

(** X21. [recreateWindow] throws an error of its own exactly for a name that
    is none of header, ask, listen, settings and shortcut-settings, and for
    ask or listen when no header is registered. When it throws, the name is
    left unregistered; otherwise the name holds the new window; every other
    entry of the pool is as before. *)
Theorem recreateWindow_outcome (name : string) (pool : gmap string BrowserWindow) :
  let r := recreateWindow construct name pool in
  (is_Some r.2
   ↔ (name ≠ "header" ∧ is_feature name = false)
     ∨ ((name = "ask" ∨ name = "listen") ∧ pool !! "header" = None))
  ∧ r.1 !! name = (if r.2 is None then Some (construct (recreated name)) else None)
  ∧ ∀ k, k ≠ name → r.1 !! k = pool !! k.
Proof.
  unfold recreateWindow, is_feature.
  destruct (String.eqb_spec name "header") as [->|Nh].
  { cbn. split; [|split].
    - split; [intros [? [=]]|]. intros [[? _]|[[[=]|[=]] _]]. congruence.
    - apply lookup_insert_eq.
    - intros k Hk. now rewrite lookup_insert_ne, lookup_delete_ne by congruence. }
  destruct (String.eqb_spec name "ask") as [->|Na];
    [|destruct (String.eqb_spec name "listen") as [->|Nl]].
  1-2: cbn [orb]; rewrite lookup_delete_ne by discriminate;
       destruct (pool !! "header") as [h|] eqn:Eh; cbn;
       (split; [|split]);
       [ split; [intros [? [=]]|]; intros [[_ [=]]|[_ [=]]]
       | apply lookup_insert_eq
       | intros k Hk; now rewrite lookup_insert_ne, lookup_delete_ne by congruence
       | split; [intros _; right; auto|eauto]
       | apply lookup_delete_eq
       | intros k Hk; now rewrite lookup_delete_ne by congruence ].
  cbn [orb].
  destruct (String.eqb name "settings" || String.eqb name "shortcut-settings") eqn:S; cbn.
  - split; [|split].
    + split; [intros [? [=]]|]. intros [[_ [=]]|[[?|?] _]]; congruence.
    + apply lookup_insert_eq.
    + intros k Hk. now rewrite lookup_insert_ne, lookup_delete_ne by congruence.
  - split; [|split].
    + split; [auto|eauto].
    + apply lookup_delete_eq.
    + intros k Hk. now rewrite lookup_delete_ne by congruence.
Qed.

End Lifecycle.

(** ** Crash recovery, continued *)

Section CrashRecoveryMore.
Import CrashRecoveryManager CrashView FeatureWindows.
Variable construct : Construction → BrowserWindow.

Lemma recover_fails (w c : string) (pool : gmap string BrowserWindow) (st : State) :
  w ≠ "header" → is_feature w = false →
  recover construct w c (pool, st) = (delete w pool, attemptWindowRecovery w c false st).
Proof.
  intros Nh Nf. unfold recover, recreateWindow. cbn [fst snd].
  apply String.eqb_neq in Nh. rewrite Nh.
  unfold is_feature in Nf. apply orb_false_iff in Nf as [Nf Nss].
  apply orb_false_iff in Nf as [Nf Ns]. apply orb_false_iff in Nf as [Nl Na].
  rewrite Na, Nl, Ns, Nss. reflexivity.
Qed.

(** X22. A crash attributed to a name that is no window type of the window
    manager (such as the fallback name 'unknown') cannot be recovered: with no
    recovery of that name in progress, each of the three attempts fails in
    [recreateWindow], the name is left unregistered, the rest of the pool
    untouched, and the sequence ends with the crash dialog shown once and no
    attempt waiting. *)
Theorem unknown_window_never_recovers
    (w c : string) (pool : gmap string BrowserWindow) (st : State) :
  w ≠ "header" → is_feature w = false →
  isShuttingDown st = false → recoveryAttempts st !! w = None → pending_for w st = [] →
  ∃ st3,
    recover construct w c
      (recover construct w c
         (recover construct w c (pool, handleRendererCrash w c st)))
    = (delete w pool, st3)
    ∧ pending_for w st3 = []
    ∧ dialogs_for w st3 = dialogs_for w st ++ [(w, c)].
Proof.
  intros Nh Nf S A P.
  rewrite !recover_fails by assumption. rewrite !delete_delete_eq.
  eexists. split; [reflexivity|].
  pose proof (view_run w [crash w c; attempt w c false; attempt w c false;
                          attempt w c false] st) as V.
  remember (run st [crash w c; attempt w c false; attempt w c false; attempt w c false])
    as s3 eqn:R.
  rewrite !filter_cons_True, filter_nil in V by reflexivity.
  unfold view at 2 in V. rewrite S, A, P in V.
  cbn in V. rewrite ?String.eqb_refl in V. cbn in V.
  rewrite ?String.eqb_refl in V. cbn in V. rewrite ?String.eqb_refl in V. cbn in V.
  unfold run in R. cbn [foldl step] in R. rewrite <- R.
  split.
  - change (pending_for w s3) with (v_pending (view w s3)). now rewrite V.
  - change (dialogs_for w s3) with (v_dialogs (view w s3)). now rewrite V.
Qed.

Lemma Forall_fired (P : Ticket * Z → Prop) (t : Ticket) (l : list (Ticket * Z)) :
  Forall P l → Forall P (fired t l).
Proof.
  induction 1 as [|[t' d] l Hx Hl IH]; cbn [fired]; [constructor|].
  destruct (_ && _); [exact Hl|]. now constructor.
Qed.

Lemma attempts_of_set (w w' : string) (n : nat) (st : State) :
  attempts_of (set_attempts w n st) w' = if decide (w = w') then n else attempts_of st w'.
Proof.
  unfold attempts_of, set_attempts. cbn. rewrite lookup_insert.
  now case_decide.
Qed.

Lemma recovery_bounded_step (st : State) (e : Event) :
  recovery_bounded st → recovery_bounded (step st e).
Proof.
  unfold recovery_bounded. intros [A D]. unfold maxRecoveryAttempts in *.
  destruct e as [w c | w c ok]; cbn [step].
  - unfold handleRendererCrash. destruct (isShuttingDown st); [now split|].
    unfold maxRecoveryAttempts.
    destruct (Nat.ltb_spec (attempts_of st w) 3) as [Lt|Ge].
    + split.
      * intros w'. unfold schedule.
        change (attempts_of (mkState ?a ?b ?c ?d) w')
          with (attempts_of (set_attempts w (attempts_of st w + 1) st) w').
        rewrite attempts_of_set. case_decide; [lia|apply A].
      * cbn. apply Forall_app. split; [exact D|]. repeat constructor; cbn; lia.
    + now split.
  - unfold attemptWindowRecovery. destruct ok.
    + split.
      * intros w'. unfold attempts_of, delete_attempts. cbn. rewrite lookup_delete.
        case_decide; [cbn; lia|apply A].
      * cbn. now apply Forall_fired.
    + unfold maxRecoveryAttempts.
      match goal with |- context [(?a <? 3)%nat] => destruct (Nat.ltb_spec a 3) as [Lt|Ge] end.
      * split.
        -- intros w'. unfold schedule.
           match goal with
           | |- context [set_attempts w ?n ?s] =>
               change (attempts_of (mkState ?a ?b ?c ?d) w')
                 with (attempts_of (set_attempts w n s) w')
           end.
           rewrite attempts_of_set. case_decide; [subst|apply A].
           unfold attempts_of in *. cbn in *. lia.
        -- cbn. apply Forall_app. split; [now apply Forall_fired|].
           repeat constructor; cbn; lia.
      * split; [apply A|]. cbn. now apply Forall_fired.
Qed.

(** X23. Whatever crashes and recovery attempts happen, no window's attempt
    counter ever exceeds the cap of three, and every recovery attempt is
    scheduled with a delay between one and three seconds. *)
Theorem counters_and_delays_bounded (es : list Event) :
  (∀ w, (attempts_of (run initial es) w ≤ maxRecoveryAttempts)%nat)
  ∧ Forall (fun td : Ticket * Z => 1000 ≤ td.2 ≤ 3000) (scheduled (run initial es)).
Proof.
  change (recovery_bounded (run initial es)).
  assert (I : recovery_bounded initial).
  { split; [|constructor]. intros w. unfold attempts_of, initial. cbn.
    rewrite lookup_empty. cbn. lia. }
  revert I. generalize initial.
  induction es as [|e es IH]; intros st I; [exact I|].
  unfold run in *. cbn [foldl]. apply IH. now apply recovery_bounded_step.
Qed.

End CrashRecoveryMore.

(** ** The response history of the ask view *)

Section History.
Import AskHistory.

Lemma index_in_range_step (st : State) (e : Event) :
  index_in_range st → index_in_range (step st e).
Proof.
  intros I. destruct e as [ns now| | | | | |]; cbn [step].
  - unfold onAskStateUpdate. cbv zeta.
    destruct (_ && _ && _); [|exact I].
    right. unfold onResponseCompleted. cbn. rewrite length_app. cbn. lia.
  - unfold navigatePreviousResponse, loadResponseAtIndex.
    destruct (negb (canNavigatePrevious st)); [exact I|].
    destruct (_ || _) eqn:G; [exact I|].
    destruct (responses st !! _); [|exact I].
    right. cbn. apply orb_false_iff in G as [G1 G2]. lia.
  - unfold navigateNextResponse, loadResponseAtIndex.
    destruct (negb (canNavigateNext st)); [exact I|].
    destruct (_ || _) eqn:G; [exact I|].
    destruct (responses st !! _); [|exact I].
    right. cbn. apply orb_false_iff in G as [G1 G2]. lia.
  - left. split; reflexivity.
  - exact I.
  - exact I.
  - exact I.
Qed.

(** X24. Whatever state updates, navigations, clears and timers follow the
    construction of the view, the current response index is -1 while the
    history is empty and otherwise the index of an entry of the history. *)
Theorem history_index_in_range (es : list Event) :
  index_in_range (run initial es).
Proof.
  assert (I : index_in_range initial) by (left; split; reflexivity).
  revert I. generalize initial.
  induction es as [|e es IH]; intros st I; [exact I|].
  unfold run in *. cbn [foldl]. apply IH. now apply index_in_range_step.
Qed.

Lemma loadResponseAtIndex_shows (st : State) (i : Z) (r : Response) :
  0 ≤ i → responses st !! Z.to_nat i = Some r →
  loadResponseAtIndex i st
  = mkState (responses st) i true (isLoading st) (isStreaming st) (showTextInput st)
            (content r) (question r) (liveResponse st) (liveQuestion st)
            (content r) (question r).
Proof.
  intros Hi E. unfold loadResponseAtIndex.
  apply lookup_lt_Some in E as L.
  destruct (Z.ltb_spec i 0); [lia|].
  destruct (Z.leb_spec (Z.of_nat (length (responses st))) i); [lia|].
  cbn [orb]. now rewrite E.
Qed.

(** X25. When going back is possible, going back shows the stored response
    before the current index and raises the navigation flag, the history is
    not touched, and going forward again shows the stored response at the
    index the view started from. *)
Theorem navigate_previous_then_next (st : State) :
  canNavigatePrevious st = true →
  currentResponseIndex st < Z.of_nat (length (responses st)) →
  ∃ r r',
    responses st !! Z.to_nat (currentResponseIndex st - 1) = Some r
    ∧ responses st !! Z.to_nat (currentResponseIndex st) = Some r'
    ∧ currentResponseIndex (navigatePreviousResponse st) = currentResponseIndex st - 1
    ∧ shows (navigatePreviousResponse st) r
    ∧ isNavigatingHistory (navigatePreviousResponse st) = true
    ∧ responses (navigatePreviousResponse st) = responses st
    ∧ currentResponseIndex (navigateNextResponse (navigatePreviousResponse st))
      = currentResponseIndex st
    ∧ shows (navigateNextResponse (navigatePreviousResponse st)) r'
    ∧ responses (navigateNextResponse (navigatePreviousResponse st)) = responses st.
Proof.
  intros C B. pose proof C as C'. unfold canNavigatePrevious in C'.
  apply andb_prop in C' as [C' S']. apply andb_prop in C' as [C' L'].
  apply andb_prop in C' as [_ P']. apply Z.ltb_lt in P'.
  apply negb_true_iff in S', L'.
  destruct (lookup_lt_is_Some_2 (responses st) (Z.to_nat (currentResponseIndex st - 1)))
    as [r Er]; [lia|].
  destruct (lookup_lt_is_Some_2 (responses st) (Z.to_nat (currentResponseIndex st)))
    as [r' Er']; [lia|].
  exists r, r'. split; [exact Er|]. split; [exact Er'|].
  assert (E1 : navigatePreviousResponse st
               = mkState (responses st) (currentResponseIndex st - 1) true (isLoading st)
                   (isStreaming st) (showTextInput st) (content r) (question r)
                   (liveResponse st) (liveQuestion st) (content r) (question r)).
  { unfold navigatePreviousResponse. rewrite C. cbn [negb].
    apply loadResponseAtIndex_shows; [lia|exact Er]. }
  rewrite E1. cbn [currentResponseIndex isNavigatingHistory responses].
  split; [reflexivity|]. split; [repeat split|]. split; [reflexivity|].
  split; [reflexivity|].
  set (st1 := mkState _ _ _ _ _ _ _ _ _ _ _ _).
  assert (R1 : responses st1 = responses st) by reflexivity.
  assert (I1 : currentResponseIndex st1 = currentResponseIndex st - 1) by reflexivity.
  assert (Lo1 : isLoading st1 = false) by exact L'.
  assert (St1 : isStreaming st1 = false) by exact S'.
  assert (E2 : navigateNextResponse st1
               = mkState (responses st1) (currentResponseIndex st) true (isLoading st1)
                   (isStreaming st1) (showTextInput st1) (content r') (question r')
                   (liveResponse st1) (liveQuestion st1) (content r') (question r')).
  { unfold navigateNextResponse, canNavigateNext. rewrite R1, I1, Lo1, St1.
    destruct (Z.ltb_spec 0 (Z.of_nat (length (responses st)))); [|lia].
    destruct (Z.ltb_spec (currentResponseIndex st - 1)
                (Z.of_nat (length (responses st)) - 1)); [|lia].
    cbn [andb negb].
    replace (currentResponseIndex st - 1 + 1) with (currentResponseIndex st) by lia.
    rewrite (loadResponseAtIndex_shows st1 _ r'); [|lia|now rewrite R1].
    now rewrite R1, Lo1, St1. }
  rewrite E2. repeat split.
Qed.

(** X26. A state update always replaces the live response. It completes a
    response exactly when the view was loading or streaming, is idle
    afterwards, and the live response is not empty: then the response is
    appended to the history, becomes the current one and is shown, and the
    navigation flag is cleared. Otherwise the history is untouched, and while
    the navigation flag is up the shown response stays as it is. *)
Theorem state_update_and_history (newState : AskState) (now : string * Z) (st : State) :
  let st' := onAskStateUpdate newState now st in
  let completes :=
    (isLoading st || isStreaming st)
    && (negb (new_isStreaming newState) && negb (new_isLoading newState))
    && nonempty (new_currentResponse newState) in
  liveResponse st' = new_currentResponse newState
  ∧ liveQuestion st' = new_currentQuestion newState
  ∧ (completes = true →
     responses st'
     = responses st ++ [mkResponse (new_currentResponse newState)
                          (new_currentQuestion newState) now.1 now.2]
     ∧ currentResponseIndex st' = Z.of_nat (length (responses st))
     ∧ isNavigatingHistory st' = false
     ∧ currentResponse st' = new_currentResponse newState
     ∧ displayResponse st' = new_currentResponse newState)
  ∧ (completes = false →
     responses st' = responses st
     ∧ currentResponseIndex st' = currentResponseIndex st
     ∧ isNavigatingHistory st' = isNavigatingHistory st
     ∧ (isNavigatingHistory st = true →
        currentResponse st' = currentResponse st
        ∧ displayResponse st' = displayResponse st)
     ∧ (isNavigatingHistory st = false →
        currentResponse st' = new_currentResponse newState
        ∧ displayResponse st' = new_currentResponse newState)).
Proof.
  intros st' completes. unfold st', onAskStateUpdate. cbv zeta.
  cbn [isStreaming isLoading liveResponse liveQuestion]. fold completes.
  destruct completes.
  - unfold onResponseCompleted. cbn. rewrite length_app. cbn.
    split; [reflexivity|]. split; [reflexivity|].
    split; [|intros [=]]. intros _. repeat split. lia.
  - cbn. split; [reflexivity|]. split; [reflexivity|].
    split; [intros [=]|]. intros _.
    split; [reflexivity|]. split; [reflexivity|]. split; [reflexivity|].
    split; intros ->; split; reflexivity.
Qed.

End History.

(** ** Two text helpers of the ask view *)

Section Text.
Import AskText.

Lemma length_append (a b : string) :
  String.length (String.append a b) = (String.length a + String.length b)%nat.
Proof. induction a as [|c a IH]; simpl; [reflexivity|]. f_equal. exact IH. Qed.

Lemma length_substring_0 (n : nat) (s : string) :
  (n ≤ String.length s)%nat → String.length (String.substring 0 n s) = n.
Proof.
  revert s. induction n as [|n IH]; intros [|c s]; cbn; try reflexivity; try lia.
  intros H. rewrite IH; [reflexivity|lia].
Qed.

(** X27. The truncated question is the question itself when it has at most
    [maxLength] characters, and otherwise its first [maxLength] characters
    followed by three dots; it never has more than [maxLength + 3]
    characters. *)
Theorem truncated_question_length (question : string) (maxLength : nat) :
  (String.length (getTruncatedQuestion question maxLength) ≤ maxLength + 3)%nat
  ∧ ((String.length question ≤ maxLength)%nat →
     getTruncatedQuestion question maxLength = question)
  ∧ ((maxLength < String.length question)%nat →
     getTruncatedQuestion question maxLength
     = String.append (String.substring 0 maxLength question) "..."
     ∧ String.length (getTruncatedQuestion question maxLength) = (maxLength + 3)%nat).
Proof.
  unfold getTruncatedQuestion.
  destruct question as [|c q].
  { cbn. split; [lia|]. split; [reflexivity|]. intros H. lia. }
  cbn [AskHistory.nonempty negb].
  destruct (Nat.leb_spec (String.length (String c q)) maxLength) as [Le|Gt].
  - split; [lia|]. split; [reflexivity|]. intros H. lia.
  - rewrite length_append, length_substring_0 by lia. cbn [String.length] in *.
    split; [lia|]. split; [intros H; lia|]. intros _. split; [reflexivity|lia].
Qed.

Lemma is_backtick_newline : is_backtick (Ascii.ascii_of_nat 10) = false.
Proof. reflexivity. Qed.

Lemma count_fences_3 (a b c : Ascii.ascii) (s : string) :
  count_fences (String a (String b (String c s)))
  = if is_backtick a && is_backtick b && is_backtick c
    then S (count_fences s) else count_fences (String b (String c s)).
Proof. reflexivity. Qed.

Lemma count_fences_short (a b : Ascii.ascii) :
  count_fences (String a "") = 0%nat ∧ count_fences (String a (String b "")) = 0%nat.
Proof. split; reflexivity. Qed.

Lemma count_fences_closing_fence : count_fences closing_fence = 1%nat.
Proof. reflexivity. Qed.

Lemma count_fences_closed_aux (n : nat) (s : string) :
  (String.length s ≤ n)%nat →
  count_fences (String.append s closing_fence) = S (count_fences s).
Proof.
  revert s. induction n as [|n IH]; intros s L.
  { destruct s; [reflexivity|cbn in L; lia]. }
  destruct s as [|a [|b [|c s3]]].
  - reflexivity.
  - change (String.append (String a "") closing_fence)
      with (String a (String (Ascii.ascii_of_nat 10) (String (Ascii.ascii_of_nat 96) "``"))).
    rewrite count_fences_3, is_backtick_newline, andb_false_r. cbn [andb]. reflexivity.
  - change (String.append (String a (String b "")) closing_fence)
      with (String a (String b (String (Ascii.ascii_of_nat 10) "```"))).
    rewrite count_fences_3, is_backtick_newline, andb_false_r.
    change (String b (String (Ascii.ascii_of_nat 10) "```"))
      with (String.append (String b "") closing_fence).
    rewrite IH by (cbn in *; lia).
    now rewrite (proj1 (count_fences_short b b)), (proj2 (count_fences_short a b)).
  - change (String.append (String a (String b (String c s3))) closing_fence)
      with (String a (String b (String c (String.append s3 closing_fence)))).
    rewrite !count_fences_3. cbn [String.length] in L.
    destruct (is_backtick a && is_backtick b && is_backtick c).
    + rewrite IH by lia. reflexivity.
    + change (String b (String c (String.append s3 closing_fence)))
        with (String.append (String b (String c s3)) closing_fence).
      rewrite IH by (cbn [String.length]; lia). reflexivity.
Qed.

Lemma count_fences_closed (s : string) :
  count_fences (String.append s closing_fence) = S (count_fences s).
Proof. now apply (count_fences_closed_aux (String.length s)). Qed.

Lemma nonempty_append (a b : string) :
  AskHistory.nonempty a = true → AskHistory.nonempty (String.append a b) = true.
Proof. now destruct a. Qed.

(** X28. [fixIncompleteCodeBlocks] returns a text with an even number of
    code fences: the text itself if its fences are already paired (or it is
    empty), and otherwise the text with a line feed and a closing fence
    appended, which adds exactly one fence. Fixing a fixed text changes
    nothing. *)
Theorem fixed_code_blocks_are_paired (text : string) :
  Nat.even (count_fences (fixIncompleteCodeBlocks text)) = true
  ∧ (Nat.even (count_fences text) = true → fixIncompleteCodeBlocks text = text)
  ∧ (Nat.odd (count_fences text) = true →
     fixIncompleteCodeBlocks text = String.append text closing_fence)
  ∧ fixIncompleteCodeBlocks (fixIncompleteCodeBlocks text) = fixIncompleteCodeBlocks text.
Proof.
  unfold fixIncompleteCodeBlocks.
  destruct (AskHistory.nonempty text) eqn:N; cbn [negb].
  - destruct (Nat.odd (count_fences text)) eqn:O.
    + rewrite (nonempty_append _ _ N). cbn [negb]. rewrite count_fences_closed.
      rewrite Nat.even_succ, Nat.odd_succ, O.
      rewrite <- Nat.negb_odd, O. repeat split; discriminate.
    + rewrite N, O. cbn [negb]. rewrite <- Nat.negb_odd, O. repeat split. discriminate.
  - destruct text; [|discriminate]. cbn. repeat split. discriminate.
Qed.

End Text.

(** ** The theorems at concrete pools *)

Section Instances.

Lemma layout_entries_iff_requested_and_live_witness :
  is_Some (layout_ask (mkLayout (Some (mkRect 661 76 600 300)) None))
  ↔ true = true ∧ live pool0 "ask" = true.
Proof.
  destruct (layout_entries_iff_requested_and_live screen0 pool0 None (bounds header0) display0
              (mkVis true false) (mkLayout (Some (mkRect 661 76 600 300)) None))
    as [A _].
  - exists header0. repeat split; reflexivity.
  - vm_compute. reflexivity.
  - exact A.
Defined.

Lemma layout_override_is_moved_header_witness :
  calculateFeatureWindowLayout screen0 pool0 (mkVis true true) (Some (mkRect 100 500 353 47))
  = calculateFeatureWindowLayout screen0
      (<["header" := set_bounds (mkRect 100 500 353 47) header0]> pool0) (mkVis true true) None.
Proof.
  apply (layout_override_is_moved_header screen0 pool0 (mkVis true true) header0
           (mkRect 100 500 353 47)); reflexivity.
Defined.

Lemma getWindowDimensions_constrained_witness :
  ∃ d, getWindowDimensions pool0 "listen" = Some d ∧ width d = 400 ∧ height d = 100.
Proof.
  destruct (getWindowDimensions_constrained pool0 "listen" listen0)
    as (d & E & _ & _ & _ & L & _); [reflexivity|reflexivity|].
  destruct (L eq_refl) as [W H]. exists d. repeat split; assumption.
Defined.

Lemma settings_windows_anchored_to_header_witness :
  ∃ r, calculateSettingsWindowPosition pool_full = Ok (Some r)
       ∧ x r + width r = 784 + 353 + 170 ∧ height r = 400.
Proof.
  destruct (settings_windows_anchored_to_header pool_full header0) as [S _];
    [reflexivity|reflexivity|].
  destruct (S settings0) as (r & E & X & _ & _ & H); [reflexivity|reflexivity|].
  exists r. repeat split; assumption.
Defined.

Lemma header_resize_keeps_centre_witness :
  ∃ r, calculateHeaderResize (Some header0) 500 60 = Ok (Some r)
       ∧ width r = 500 ∧ height r = 60 ∧ y r = 21.
Proof.
  destruct (header_resize_keeps_centre header0 500 60) as (r & E & W & H & Y & _);
    [reflexivity|].
  exists r. repeat split; assumption.
Defined.

Lemma step_move_and_back_witness :
  ∃ x' y',
    calculateStepMovePosition (Some header0) "left" = Ok (Some (x', y'))
    ∧ calculateStepMovePosition (Some (set_position x' y' header0)) "right"
      = Ok (Some (784, 21)).
Proof.
  destruct (step_move_and_back header0 "left") as (x' & y' & E & _ & _ & _ & _ & _ & B);
    [reflexivity|].
  exists x', y'. split; [exact E|exact B].
Defined.

Lemma visibility_request_touches_one_window_witness :
  windowPool
    (issue [fade "ask" 1 false;
            animateLayout (mkLayout (Some (mkRect 661 76 600 300)) None)]
       (with_pool
          (<["ask" := mkWin false (mkRect 661 56 600 300) true false 0%Q true
                            false false false]> pool_ask_hidden)
          (initial pool_ask_hidden))) !! "header"
  = windowPool (initial pool_ask_hidden) !! "header".
Proof.
  destruct (visibility_request_touches_one_window screen0 (initial pool_ask_hidden)
              (issue [fade "ask" 1 false;
                      animateLayout (mkLayout (Some (mkRect 661 76 600 300)) None)]
                 (with_pool
                    (<["ask" := mkWin false (mkRect 661 56 600 300) true false 0%Q true
                                      false false false]> pool_ask_hidden)
                    (initial pool_ask_hidden)))
              "ask" true) as [F _].
  - discriminate.
  - vm_compute. reflexivity.
  - apply F. discriminate.
Defined.

Lemma shortcut_settings_isolates_mouse_witness :
  ∃ st1 w1,
    handleWindowVisibilityRequest screen0 (initial pool_full) "shortcut-settings" true = Ok st1
    ∧ windowPool st1 !! "shortcut-settings" = Some w1
    ∧ visible w1 = true ∧ alwaysOnTop w1 = true.
Proof.
  destruct (shortcut_settings_isolates_mouse screen0 (initial pool_full) header0 shortcuts0)
    as (st1 & w1 & E & L & V & T & _); try reflexivity.
  exists st1, w1. repeat split; assumption.
Defined.

Lemma settings_hide_is_debounced_witness :
  ∃ st1,
    handleWindowVisibilityRequest screen0 (initial pool_full) "settings" false = Ok st1
    ∧ settingsHideTimer st1 = true.
Proof.
  destruct (settings_hide_is_debounced screen0 (initial pool_full) header0 settings0)
    as (st1 & E & T & _); try reflexivity.
  exists st1. split; assumption.
Defined.

Lemma feature_window_slides_in_witness :
  ∃ st' w',
    handleWindowVisibilityRequest screen0 (initial pool_ask_hidden) "ask" true = Ok st'
    ∧ windowPool st' !! "ask" = Some w'
    ∧ visible w' = true ∧ opacity w' = 0%Q.
Proof.
  destruct (feature_window_slides_in screen0 (initial pool_ask_hidden) "ask" ask_hidden
              (bounds header0) display0)
    as (st' & L & target & w' & E & _ & Ew & _ & _ & V & O & _).
  - left. reflexivity.
  - reflexivity.
  - reflexivity.
  - reflexivity.
  - exists header0. repeat split; reflexivity.
  - exists st', w'. repeat split; assumption.
Defined.

Lemma feature_window_slides_out_witness :
  ∃ st', handleWindowVisibilityRequest screen0 (initial pool0) "ask" false = Ok st'
         ∧ windowPool st' = pool0.
Proof.
  destruct (feature_window_slides_out screen0 (initial pool0) "ask" ask0
              (bounds header0) display0)
    as (st' & L & E & P & _).
  - left. reflexivity.
  - reflexivity.
  - reflexivity.
  - reflexivity.
  - exists header0. repeat split; reflexivity.
  - exists st'. split; [exact E|exact P].
Defined.

Lemma focus_restore_is_debounced_witness :
  (pending_restores
     (WindowManager.run [display_metrics_changed; resume; timeout ResumeCheck;
                         display_metrics_changed] (initial pool_plain)) ≤ 1)%nat.
Proof.
  apply (focus_restore_is_debounced
           [display_metrics_changed; resume; timeout ResumeCheck; display_metrics_changed]
           (initial pool_plain)).
  vm_compute. lia.
Defined.


End Instances.

Section ControllerInstances.
Import WindowController.


Lemma resize_header_unlocks_unless_animating_witness :
  on_resizeHeaderWindow pool0 true 500 60 = Ok (pool0, []).
Proof.
  destruct (resize_header_unlocks_unless_animating screen0 pool0 header0 500 60) as [E _];
    [reflexivity|reflexivity|].
  exact E.
Defined.

Lemma move_to_edge_margins_witness :
  ∃ x', on_moveToEdge screen0 pool0 "right"
        = Ok (pool0, [animateWindowPosition "header" x' 21 relayout])
        ∧ x' + 353 + 20 = 0 + 1920.
Proof.
  destruct (move_to_edge_margins screen0 pool0 header0 "right") as (x' & E & _ & R & _);
    [reflexivity|reflexivity|].
  exists x'. split; [exact E|exact (R eq_refl)].
Defined.

Lemma move_step_lays_out_for_arrival_witness :
  ∃ x' y' L,
    on_moveStep screen0 pool0 "down"
    = Ok (pool0, [animateWindowPosition "header" x' y' nothing; animateLayout L None])
    ∧ calculateFeatureWindowLayout screen0 (<["header" := set_position x' y' header0]> pool0)
        (visibleWindows (<["header" := set_position x' y' header0]> pool0)) None
      = Ok L.
Proof.
  destruct (move_step_lays_out_for_arrival screen0 pool0 header0 "down")
    as (x' & y' & L & _ & M & A); [reflexivity|reflexivity|].
  exists x', y', L. split; [exact M|exact A].
Defined.

Lemma relayout_covers_the_visible_windows_witness :
  ∃ L, updateChildWindowLayouts screen0 pool0 true = Ok [animateLayout L (Some true)]
       ∧ (is_Some (layout_ask L) ↔ shown pool0 "ask" = true).
Proof.
  destruct (relayout_covers_the_visible_windows screen0 pool0 header0 true) as [_ R];
    [reflexivity|reflexivity|].
  destruct R as (L & E & A & _); [left; reflexivity|].
  exists L. split; [exact E|exact A].
Defined.

End ControllerInstances.

Section LifecycleInstances.
Import FeatureWindows.

Lemma leaving_main_forgets_feature_windows_witness :
  windowPool (handleHeaderStateChanged construct0 "apikey" (initial pool_full)) !! "ask" = None
  ∧ windowPool (handleHeaderStateChanged construct0 "apikey" (initial pool_full)) !! "header"
    = Some header0.
Proof.
  destruct (leaving_main_forgets_feature_windows construct0 "apikey" (initial pool_full) "ask")
    as [A _]; [discriminate|].
  destruct (leaving_main_forgets_feature_windows construct0 "apikey" (initial pool_full)
              "header") as [H _]; [discriminate|].
  split; [exact A|exact H].
Defined.

Lemma unknown_window_never_recovers_witness :
  ∃ st3,
    recover construct0 "unknown" "unknown-1"
      (recover construct0 "unknown" "unknown-1"
         (recover construct0 "unknown" "unknown-1"
            (pool0, CrashRecoveryManager.handleRendererCrash "unknown" "unknown-1"
                      CrashRecoveryManager.initial)))
    = (delete "unknown" pool0, st3)
    ∧ CrashRecoveryManager.pending_for "unknown" st3 = []
    ∧ CrashRecoveryManager.dialogs_for "unknown" st3 = [("unknown", "unknown-1")].
Proof.
  destruct (unknown_window_never_recovers construct0 "unknown" "unknown-1" pool0
              CrashRecoveryManager.initial)
    as (st3 & E & P & D); try reflexivity; try discriminate.
  exists st3. repeat split; assumption.
Defined.

Lemma navigate_previous_then_next_witness :
  AskHistory.currentResponse (AskHistory.navigatePreviousResponse history2) = "first answer"
  ∧ AskHistory.currentResponseIndex
      (AskHistory.navigateNextResponse (AskHistory.navigatePreviousResponse history2)) = 1.
Proof.
  destruct (navigate_previous_then_next history2)
    as (r & r' & Er & _ & _ & S & _ & _ & I & _).
  - reflexivity.
  - vm_compute. reflexivity.
  - injection Er as <-. destruct S as [C _]. split; [exact C|exact I].
Defined.

End LifecycleInstances.
